(** * Genome.ai: job orchestration and chat sessions

    A shallow embedding of the orchestration code of the repository:
    - [brand_ai_assistant.py]: [PixaroBrandAssistant._detect_action_type],
      [generate_image] and [chat];
    - [email_service.py]: [EmailService.send_email] and its two callers used
      by the pipeline;
    - [market_genome_engine.py]: [MarketGenomeEngine.collect_brand_data] and
      the signatures of the AI stages;
    - [market_genome_main.py]: the job registry [genome_jobs], the session
      registry [chat_sessions], [analyze_brand], [analyze_brand_genome],
      [get_genome_status], [initialize_chat], [send_chat_message],
      [generate_chat_report] and [end_chat_session].

    Python [str] is modelled by [string] (texts over the 8-bit alphabet, read
    as the code points 0 to 255), a
    Python [dict] with string keys by [gmap string value] where only lookups
    by key are made, and by an association list in insertion order where the
    code iterates over it ([genome_jobs.items()]). External services (the
    OpenAI client, HTTP, SMTP, the report generator, the clock) are oracles
    gathered in a record [env]; an oracle answers [Ok v] or [Raise msg]. *)

From Stdlib Require Import String Ascii List Bool Arith Lia.
From stdpp Require Import base option list gmap strings fin_maps pretty.
Import ListNotations.

Open Scope string_scope.

(** ** Python strings *)

(** [c.lower()] on one character of the 8-bit alphabet, read as the code
    points 0 to 255: the capitals [A]..[Z] (65 to 90) and the accented
    capitals from 192 to 222, without the multiplication sign 215, go to the
    small letter 32 places further; every other character is kept. *)
Definition lower_ascii (c : ascii) : ascii :=
  let n := nat_of_ascii c in
  if (Nat.leb 65 n && Nat.leb n 90) ||
     (Nat.leb 192 n && Nat.leb n 222 && negb (Nat.eqb n 215))
  then ascii_of_nat (n + 32) else c.

(** [s.lower()]. *)
Fixpoint lower (s : string) : string :=
  match s with
  | EmptyString => EmptyString
  | String c s' => String (lower_ascii c) (lower s')
  end.

(** [s.startswith(p)]. *)
Fixpoint startswith (p s : string) : bool :=
  match p, s with
  | EmptyString, _ => true
  | String a p', String b s' => if Ascii.eqb a b then startswith p' s' else false
  | String _ _, EmptyString => false
  end.

(** [p in s] for two strings: [p] starts at some offset of [s]. *)
Fixpoint contains (p s : string) : bool :=
  startswith p s ||
  match s with
  | EmptyString => false
  | String _ s' => contains p s'
  end.

(** [s.replace(c, '')] for a one-character [c]. *)
Fixpoint remove_char (c : ascii) (s : string) : string :=
  match s with
  | EmptyString => EmptyString
  | String a s' => if Ascii.eqb a c then remove_char c s' else String a (remove_char c s')
  end.

(** [any(phrase in s for phrase in phrases)]. *)
Definition any_in (phrases : list string) (s : string) : bool :=
  existsb (fun phrase => contains phrase s) phrases.

(** Results of calls that may raise: [Raise msg] carries [str(e)]. *)
Inductive result (A : Type) : Type :=
| Ok (a : A)
| Raise (msg : string).
Arguments Ok {A} a.
Arguments Raise {A} msg.

(** ** [brand_ai_assistant.py]: intent classification *)

Inductive action_type : Type :=
| generate_image_action
| generate_report
| generate_content
| competitor_analysis
| predictive_analysis
| audience_insights
| campaign_creation
| general_chat
| error_action.

(** The value of the ["action_type"] entry as the code writes it. *)
Definition action_type_str (a : action_type) : string :=
  match a with
  | generate_image_action => "generate_image"
  | generate_report => "generate_report"
  | generate_content => "generate_content"
  | competitor_analysis => "competitor_analysis"
  | predictive_analysis => "predictive_analysis"
  | audience_insights => "audience_insights"
  | campaign_creation => "campaign_creation"
  | general_chat => "general_chat"
  | error_action => "error"
  end.

Definition image_phrases : list string :=
  [ "create a image"; "create an image"; "generate a image"; "generate an image";
    "generate image"; "make image"; "make a image"; "make an image";
    "create a photo"; "create photo"; "generate a photo"; "generate photo"; "make photo";
    "design a post"; "design post"; "create visual"; "generate visual";
    "make a post photo"; "create post image"; "image of"; "photo of";
    "image about"; "photo about"; "picture of"; "picture about";
    "graphic about"; "graphic of"; "design about" ].

Definition report_phrases : list string :=
  [ "generate report"; "send report"; "create report"; "email report" ].

Definition content_phrases : list string :=
  [ "generate post"; "create caption"; "write post"; "generate content" ].

Definition competitor_phrases : list string :=
  [ "competitor"; "competition"; "rival" ].

Definition predictive_phrases : list string :=
  [ "predict"; "forecast"; "what if"; "scenario" ].

Definition audience_phrases : list string :=
  [ "persona"; "audience segment"; "who is" ].

Definition campaign_phrases : list string :=
  [ "campaign"; "strategy"; "plan" ].

(** [PixaroBrandAssistant._detect_action_type]: the if/elif chain. *)
Definition _detect_action_type (message : string) : action_type :=
  let message_lower := lower message in
  if any_in image_phrases message_lower then generate_image_action
  else if any_in report_phrases message_lower then generate_report
  else if any_in content_phrases message_lower then generate_content
  else if any_in competitor_phrases message_lower then competitor_analysis
  else if any_in predictive_phrases message_lower then predictive_analysis
  else if any_in audience_phrases message_lower then audience_insights
  else if any_in campaign_phrases message_lower then campaign_creation
  else general_chat.

(** The classifier as the specification words it: an ordered rule table of
    (category, phrases), searched for the first rule with a phrase that
    occurs in the lower-cased text; the default category when none does. *)
Definition intent_rules : list (action_type * list string) :=
  [ (generate_image_action, image_phrases);
    (generate_report, report_phrases);
    (generate_content, content_phrases);
    (competitor_analysis, competitor_phrases);
    (predictive_analysis, predictive_phrases);
    (audience_insights, audience_phrases);
    (campaign_creation, campaign_phrases) ].

Definition rule_matches (text : string) (r : action_type * list string) : bool :=
  any_in (snd r) (lower text).

Definition classify_by_table (text : string) : action_type :=
  match find (rule_matches text) intent_rules with
  | Some r => fst r
  | None => general_chat
  end.

(** Two texts that differ only in the case of their letters. *)
Definition same_modulo_case (s t : string) : Prop := lower s = lower t.

(** ** Values stored in the registries *)

(** [models.JobStatus]. *)
Inductive JobStatus : Type := PENDING | PROCESSING | COMPLETED | FAILED.

Definition JobStatus_value (s : JobStatus) : string :=
  match s with
  | PENDING => "pending"
  | PROCESSING => "processing"
  | COMPLETED => "completed"
  | FAILED => "failed"
  end.

Definition JobStatus_eqb (a b : JobStatus) : bool :=
  match a, b with
  | PENDING, PENDING | PROCESSING, PROCESSING
  | COMPLETED, COMPLETED | FAILED, FAILED => true
  | _, _ => false
  end.

(** The Python values that the job and context dictionaries hold.
    [VTime t] is the text of [datetime.now().isoformat()] read at instant
    [t]; [VDict d] is a nested dictionary with text entries ([VDict []] is
    the empty dictionary). *)
Inductive value : Type :=
| VNone
| VBool (b : bool)
| VStr (s : string)
| VStatus (s : JobStatus)
| VTime (t : nat)
| VDict (d : list (string * string)).

(** [v == JobStatus.X]; [JobStatus] is a [str] enumeration, so the text of
    the member compares equal to it. *)
Definition value_is_status (v : option value) (s : JobStatus) : bool :=
  match v with
  | Some (VStatus s') => JobStatus_eqb s' s
  | Some (VStr t) => String.eqb t (JobStatus_value s)
  | _ => false
  end.

(** [d.get(k, {})]. *)
Definition get_or_empty_dict (d : gmap string value) (k : string) : value :=
  default (VDict []) (d !! k).

(** ** [brand_ai_assistant.py]: the assistant of one chat session *)

Inductive role : Type := system | user | assistant.

(** One entry of [conversation_history]. *)
Record message : Type := {
  msg_role : role;
  msg_content : string;
  msg_timestamp : nat;
  msg_image_url : option string
}.

(** The attributes of a [PixaroBrandAssistant] (the OpenAI client is in
    [env]). *)
Record PixaroBrandAssistant : Type := {
  brand_handle : string;
  brand_context : gmap string value;
  conversation_history : list message;
  assistant_session_id : nat
}.

(** What the system prompt is computed from. The prompt is a fixed template
    filled with the brand handle and, when the context is not empty, with
    entries of its three nested dictionaries. *)
Record system_prompt : Type := {
  sp_brand_handle : string;
  sp_brand_dna : list (string * string);
  sp_audience : list (string * string);
  sp_competitors : list (string * string);
  sp_with_context : bool
}.

(** A mail handed to [EmailService.send_email], by the method that builds it. *)
Inductive mail : Type :=
| GenomeReportMail (to_email brand_input report_path : string)
| ErrorMail (to_email product_name error_message : string).

(** [brand_data['website_data']]: empty, the scraped page, or the error
    dictionary of a failed scrape. *)
Inductive website_data : Type :=
| NoWebsite
| WebPage (url title details : string)
| WebError (url error : string).

(** [brand_data['social_data']]. *)
Inductive social_data : Type :=
| NoSocial
| Social (platform handle : string).

(** The dictionary returned by [collect_brand_data]. *)
Record brand_data : Type := {
  bd_brand_input : string;
  bd_brand_name : string;
  bd_website_data : website_data;
  bd_social_data : social_data
}.

(** The result of an AI stage: the JSON text the stage parsed. *)
Definition artifact : Type := string.

(** The external services of one operation. Each oracle stands for a call
    whose result the code cannot know in advance.
    - [openai_new]: [OpenAI(api_key=...)] in [PixaroBrandAssistant.__init__];
    - [images_generate]: the [try] block of [generate_image] (enhanced prompt
      built from the context, [images.generate], [response.data[0].url]);
    - [completions_create]: the [try] block of [chat] up to
      [response.choices[0].message.content];
    - [engine_new]: [MarketGenomeEngine()];
    - [http_get]: the [try] block of [_scrape_website], returning the title
      and the rest of the scraped fields;
    - the five AI stages and the report generator of the engine;
    - [smtp_send]: the [try] block of [EmailService.send_email];
    - [export_conversation]: [PixaroBrandAssistant.export_conversation]. *)
Record env : Type := {
  openai_new : result unit;
  images_generate : gmap string value -> string -> result string;
  completions_create : system_prompt -> list (role * string) -> result string;
  engine_new : result unit;
  http_get : string -> result (string * string);
  analyze_brand_dna : brand_data -> result artifact;
  analyze_competitors : brand_data -> artifact -> result artifact;
  create_growth_roadmap : artifact -> artifact -> result artifact;
  create_content_strategy : artifact -> result artifact;
  generate_genome_report :
    string -> string -> artifact -> artifact -> artifact -> artifact -> result string;
  smtp_send : mail -> result unit;
  export_conversation : PixaroBrandAssistant -> result string
}.

(** [PixaroBrandAssistant.__init__]: [brand_context or {}]. *)
Definition new_assistant (handle : string) (context : option (gmap string value))
    (now : nat) : PixaroBrandAssistant :=
  {| brand_handle := handle;
     brand_context := default ∅ context;
     conversation_history := [];
     assistant_session_id := now |}.

(** One of the three nested dictionaries read by [_build_system_prompt]:
    [self.brand_context.get(k, {})] followed by [.get] on it, which raises
    on anything but a dictionary. *)
Definition context_dict (ctx : gmap string value) (k : string)
    : result (list (string * string)) :=
  match get_or_empty_dict ctx k with
  | VDict d => Ok d
  | _ => Raise "AttributeError: object has no attribute 'get'"
  end.

(** [PixaroBrandAssistant._build_system_prompt]. *)
Definition _build_system_prompt (self : PixaroBrandAssistant) : result system_prompt :=
  if bool_decide (brand_context self = ∅) then
    Ok {| sp_brand_handle := brand_handle self; sp_brand_dna := [];
          sp_audience := []; sp_competitors := []; sp_with_context := false |}
  else
    match context_dict (brand_context self) "brand_dna" with
    | Raise e => Raise e
    | Ok dna =>
      match context_dict (brand_context self) "audience" with
      | Raise e => Raise e
      | Ok aud =>
        match context_dict (brand_context self) "competitors" with
        | Raise e => Raise e
        | Ok comp =>
          Ok {| sp_brand_handle := brand_handle self; sp_brand_dna := dna;
                sp_audience := aud; sp_competitors := comp; sp_with_context := true |}
        end
      end
    end.

(** The dictionary returned by [generate_image]. *)
Inductive image_result : Type :=
| ImageSuccess (image_url prompt : string)
| ImageFailure (error prompt : string).

(** [PixaroBrandAssistant.generate_image]: everything is inside
    [try ... except Exception]. *)
Definition generate_image (E : env) (self : PixaroBrandAssistant) (prompt : string)
    : image_result :=
  match images_generate E (brand_context self) prompt with
  | Ok url => ImageSuccess url prompt
  | Raise e => ImageFailure e prompt
  end.

(** The dictionary returned by [chat]. *)
Record chat_reply : Type := {
  response : string;
  reply_action_type : action_type;
  needs_report : bool;
  image_url : option string;
  reply_timestamp : nat
}.

Definition append_message (self : PixaroBrandAssistant) (m : message)
    : PixaroBrandAssistant :=
  {| brand_handle := brand_handle self;
     brand_context := brand_context self;
     conversation_history := conversation_history self ++ [m];
     assistant_session_id := assistant_session_id self |}.

Definition history_for_openai (self : PixaroBrandAssistant) : list (role * string) :=
  map (fun m => (msg_role m, msg_content m)) (conversation_history self).

(** The text of the reply after a generated image. *)
Definition image_reply_text (prompt : string) : string :=
  "I've generated an image for you! Here's what I created:" ++
  String "010" (String "010" (prompt ++
  String "010" (String "010"
    "Would you like me to create another variation or adjust anything?"))).

(** The text of the reply when the completion call raised. *)
Definition error_reply_text (e handle : string) : string :=
  "I encountered an error: " ++ e ++
  ". Let me try to help you anyway. What would you like to know about " ++
  handle ++ "?".

(** [PixaroBrandAssistant.chat]. The assistant object is mutated in place, so
    the new assistant is returned also when the call raises; [now] is the
    reading of the clock. *)
Definition chat (E : env) (self : PixaroBrandAssistant) (now : nat)
    (user_message : string) : PixaroBrandAssistant * result chat_reply :=
  let self1 := append_message self
    {| msg_role := user; msg_content := user_message;
       msg_timestamp := now; msg_image_url := None |} in
  let action := _detect_action_type user_message in
  let image_done :=
    match action with
    | generate_image_action =>
      match generate_image E self1 user_message with
      | ImageSuccess url prompt => Some (url, prompt)
      | ImageFailure _ _ => None
      end
    | _ => None
    end in
  match image_done with
  | Some (url, prompt) =>
    let assistant_response := image_reply_text prompt in
    (append_message self1
       {| msg_role := assistant; msg_content := assistant_response;
          msg_timestamp := now; msg_image_url := Some url |},
     Ok {| response := assistant_response; reply_action_type := action;
           needs_report := false; image_url := Some url;
           reply_timestamp := now |})
  | None =>
    match _build_system_prompt self1 with
    | Raise e => (self1, Raise e)
    | Ok prompt =>
      match completions_create E prompt (history_for_openai self1) with
      | Ok assistant_response =>
        (append_message self1
           {| msg_role := assistant; msg_content := assistant_response;
              msg_timestamp := now; msg_image_url := None |},
         Ok {| response := assistant_response; reply_action_type := action;
               needs_report :=
                 contains "report" (lower user_message) &&
                 (contains "generate" (lower user_message) ||
                  contains "send" (lower user_message));
               image_url := None; reply_timestamp := now |})
      | Raise e =>
        (self1,
         Ok {| response := error_reply_text e (brand_handle self1);
               reply_action_type := error_action; needs_report := false;
               image_url := None; reply_timestamp := now |})
      end
    end
  end.

(** ** [email_service.py] *)

(** [EmailService.send_email]: the whole body is inside
    [try ... except Exception], which returns [False]. *)
Definition send_email (E : env) (m : mail) : bool :=
  match smtp_send E m with
  | Ok _ => true
  | Raise _ => false
  end.

(** [EmailService.send_genome_report_email]: builds the subject and the body
    and returns [self.send_email(...)]. *)
Definition send_genome_report_email (E : env) (to_email brand_input report_path : string)
    : bool :=
  send_email E (GenomeReportMail to_email brand_input report_path).

(** [EmailService.send_error_email]. *)
Definition send_error_email (E : env) (to_email product_name error_message : string)
    : bool :=
  send_email E (ErrorMail to_email product_name error_message).

(** ** [market_genome_engine.py]: data collection *)

(** [MarketGenomeEngine._detect_input_type]. *)
Definition _detect_input_type (brand_input : string) : string :=
  if startswith "http://" brand_input || startswith "https://" brand_input
     || startswith "www." brand_input then "website"
  else if startswith "@" brand_input then
    if contains "instagram" brand_input || contains "insta" brand_input then "instagram"
    else if contains "twitter" brand_input || contains "x.com" brand_input then "twitter"
    else "social"
  else "brand_name".

(** [MarketGenomeEngine._scrape_website]: a failure is caught and reported in
    the returned dictionary. *)
Definition _scrape_website (E : env) (url : string) : website_data :=
  let url := if startswith "http" url then url else "https://" ++ url in
  match http_get E url with
  | Ok (title, details) => WebPage url title details
  | Raise e => WebError url e
  end.

(** [MarketGenomeEngine._find_brand_website]. *)
Definition _find_brand_website (brand_name : string) : string :=
  "https://www." ++ remove_char " " (lower brand_name) ++ ".com".

(** [website_data.get('title', default)]. *)
Definition website_title (w : website_data) (default : string) : string :=
  match w with
  | WebPage _ title _ => title
  | _ => default
  end.

(** [MarketGenomeEngine.collect_brand_data]: it has no raising path. *)
Definition collect_brand_data (E : env) (brand_input input_type : string) : brand_data :=
  let input_type :=
    if String.eqb input_type "auto" then _detect_input_type brand_input
    else input_type in
  if String.eqb input_type "website" then
    let w := _scrape_website E brand_input in
    {| bd_brand_input := brand_input; bd_brand_name := website_title w brand_input;
       bd_website_data := w; bd_social_data := NoSocial |}
  else if String.eqb input_type "instagram" || String.eqb input_type "twitter"
          || String.eqb input_type "linkedin" then
    {| bd_brand_input := brand_input; bd_brand_name := remove_char "@" brand_input;
       bd_website_data := NoWebsite; bd_social_data := Social input_type brand_input |}
  else
    {| bd_brand_input := brand_input; bd_brand_name := brand_input;
       bd_website_data := _scrape_website E (_find_brand_website brand_input);
       bd_social_data := NoSocial |}.

(** ** [market_genome_main.py]: the pipeline run *)

(** What a run does, in order: the writes to [genome_jobs[job_id]] and the
    calls that leave the function. [EvStage k] marks the start of stage
    [k] (1 collection, 2 brand DNA, 3 competitors, 4 roadmap, 5 content
    strategy, 6 report, 7 delivery). *)
Inductive event : Type :=
| EvSet (key : string) (v : value)
| EvEngineNew
| EvStage (k : nat)
| EvMail (m : mail) (sent : bool).

(** The state of a run: the entry [genome_jobs[job_id]] ([None] when the
    key is absent) and the log of events so far. *)
Record run_state : Type := {
  rs_job : option (gmap string value);
  rs_log : list event
}.

(** A computation that may raise, over the state of a run. *)
Definition run (A : Type) : Type := run_state -> run_state * result A.

#[global] Instance run_ret : MRet run := fun A a s => (s, Ok a).

#[global] Instance run_bind : MBind run := fun A B f m s =>
  match m s with
  | (s', Ok a) => f a s'
  | (s', Raise e) => (s', Raise e)
  end.

Definition log_event (ev : event) : run unit := fun s =>
  ({| rs_job := rs_job s; rs_log := rs_log s ++ [ev] |}, Ok tt).

(** [genome_jobs[job_id][key] = v]; [KeyError] when the job is absent. *)
Definition set_field (job_id key : string) (v : value) : run unit := fun s =>
  match rs_job s with
  | Some job =>
    ({| rs_job := Some (<[key := v]> job); rs_log := rs_log s ++ [EvSet key v] |}, Ok tt)
  | None => (s, Raise ("'" ++ job_id ++ "'"))
  end.

(** The result of an oracle, raised when it is [Raise]. *)
Definition call {A : Type} (r : result A) : run A := fun s => (s, r).

(** [try: body except Exception as e: handler(e)]. *)
Definition try_except {A : Type} (body : run A) (handler : string -> run A) : run A :=
  fun s =>
    match body s with
    | (s', Ok a) => (s', Ok a)
    | (s', Raise e) => handler e s'
    end.

(** The [try] block of [analyze_brand_genome]. *)
Definition analyze_brand_genome_body (E : env) (now : nat)
    (job_id brand_input input_type email : string) : run unit :=
  set_field job_id "status" (VStatus PROCESSING);;
  set_field job_id "message" (VStr "Analyzing brand data...");;
  log_event EvEngineNew;;
  call (engine_new E);;
  set_field job_id "message" (VStr "Collecting brand data from multiple sources...");;
  log_event (EvStage 1);;
  let brand_data := collect_brand_data E brand_input input_type in
  set_field job_id "message" (VStr "Analyzing brand personality and positioning...");;
  log_event (EvStage 2);;
  brand_dna ← call (analyze_brand_dna E brand_data);
  set_field job_id "message" (VStr "Analyzing competitor landscape...");;
  log_event (EvStage 3);;
  competitor_intel ← call (analyze_competitors E brand_data brand_dna);
  set_field job_id "message" (VStr "Generating growth strategy...");;
  log_event (EvStage 4);;
  growth_roadmap ← call (create_growth_roadmap E brand_dna competitor_intel);
  set_field job_id "message" (VStr "Creating content strategy...");;
  log_event (EvStage 5);;
  content_strategy ← call (create_content_strategy E brand_dna);
  set_field job_id "message" (VStr "Creating Marketing Genome Report...");;
  log_event (EvStage 6);;
  pdf_path ← call (generate_genome_report E job_id (bd_brand_name brand_data)
                     brand_dna competitor_intel growth_roadmap content_strategy);
  set_field job_id "pdf_path" (VStr pdf_path);;
  set_field job_id "pdf_url" (VStr ("/api/download/report/" ++ job_id));;
  set_field job_id "message" (VStr "Sending Marketing Genome Report...");;
  log_event (EvStage 7);;
  let email_sent := send_genome_report_email E email brand_input pdf_path in
  log_event (EvMail (GenomeReportMail email brand_input pdf_path) email_sent);;
  set_field job_id "email_sent" (VBool email_sent);;
  set_field job_id "status" (VStatus COMPLETED);;
  set_field job_id "message" (VStr "Marketing Genome Report generated successfully!");;
  set_field job_id "completed_at" (VTime now).

(** The [except Exception as e] block of [analyze_brand_genome]; the inner
    [try ... except: pass] swallows whatever the notification raises. *)
Definition analyze_brand_genome_handler (E : env)
    (job_id brand_input email : string) (e : string) : run unit :=
  let error_msg := "Error generating genome: " ++ e in
  set_field job_id "status" (VStatus FAILED);;
  set_field job_id "message" (VStr error_msg);;
  try_except
    (log_event (EvMail (ErrorMail email brand_input e)
                  (send_error_email E email brand_input e)))
    (fun _ => mret tt).

(** [analyze_brand_genome]. *)
Definition analyze_brand_genome (E : env) (now : nat)
    (job_id brand_input input_type email : string) : run unit :=
  try_except
    (analyze_brand_genome_body E now job_id brand_input input_type email)
    (analyze_brand_genome_handler E job_id brand_input email).

(** ** [market_genome_main.py]: registries and endpoints *)

(** A scheduled call [background_tasks.add_task(analyze_brand_genome, ...)]. *)
Record task : Type := {
  task_job_id : string;
  task_brand_input : string;
  task_input_type : string;
  task_email : string
}.

(** An entry of [chat_sessions]. *)
Record chat_session : Type := {
  cs_session_id : string;
  cs_brand_handle : string;
  cs_assistant : PixaroBrandAssistant;
  cs_created_at : nat;
  cs_last_activity : nat
}.

(** The state of the process: [genome_jobs] in insertion order (a Python
    dictionary iterates in that order), [chat_sessions], the background
    tasks that were scheduled and have not run yet, and the clock. *)
Record world : Type := {
  genome_jobs : list (string * gmap string value);
  chat_sessions : gmap string chat_session;
  background_tasks : list task;
  clock : nat
}.

Definition initial_world : world :=
  {| genome_jobs := []; chat_sessions := ∅; background_tasks := []; clock := 0 |}.

(** [genome_jobs.get(job_id)]. *)
Fixpoint jobs_lookup (job_id : string) (jobs : list (string * gmap string value))
    : option (gmap string value) :=
  match jobs with
  | [] => None
  | (k, job) :: rest => if String.eqb k job_id then Some job else jobs_lookup job_id rest
  end.

(** [genome_jobs[job_id] = job]: an existing key keeps its position, a new
    key goes last. *)
Fixpoint jobs_set (job_id : string) (job : gmap string value)
    (jobs : list (string * gmap string value)) : list (string * gmap string value) :=
  match jobs with
  | [] => [(job_id, job)]
  | (k, j) :: rest =>
    if String.eqb k job_id then (k, job) :: rest else (k, j) :: jobs_set job_id job rest
  end.

(** The answer of an endpoint: the returned body, or an [HTTPException]. *)
Inductive http (A : Type) : Type :=
| HttpOk (body : A)
| HttpError (status_code : nat) (detail : string).
Arguments HttpOk {A} body.
Arguments HttpError {A} status_code detail.

(** [d.get(k)]. *)
Definition get_or_none (d : gmap string value) (k : string) : value :=
  default VNone (d !! k).

(** The dictionary a new job starts with in [analyze_brand]. *)
Definition new_job (job_id brand_input input_type email : string) (now : nat)
    : gmap string value :=
  <["job_id" := VStr job_id]>
  (<["status" := VStatus PENDING]>
  (<["message" := VStr "Analysis starting..."]>
  (<["brand_input" := VStr brand_input]>
  (<["input_type" := VStr input_type]>
  (<["email" := VStr email]>
  (<["created_at" := VTime now]>
  (<["pdf_url" := VNone]>
  (<["email_sent" := VBool false]> ∅)))))))).

(** The dictionary a new job starts with in [generate_chat_report]. *)
Definition new_chat_job (job_id brand_handle email session_id : string) (now : nat)
    : gmap string value :=
  <["job_id" := VStr job_id]>
  (<["status" := VStatus PENDING]>
  (<["message" := VStr "Generating report from chat session..."]>
  (<["brand_input" := VStr brand_handle]>
  (<["input_type" := VStr "auto"]>
  (<["email" := VStr email]>
  (<["created_at" := VTime now]>
  (<["pdf_url" := VNone]>
  (<["email_sent" := VBool false]>
  (<["from_chat" := VBool true]>
  (<["chat_session_id" := VStr session_id]> ∅)))))))))).

(** [analyze_brand]; [job_id] is the value of [str(uuid.uuid4())]. *)
Definition analyze_brand (job_id brand_input input_type email : string) (w : world)
    : world * http string :=
  if Nat.ltb (String.length brand_input) 3 then
    (w, HttpError 400
          "Brand input too short. Please provide a brand name, website, or social handle.")
  else
    ({| genome_jobs :=
          jobs_set job_id (new_job job_id brand_input input_type email (clock w))
            (genome_jobs w);
        chat_sessions := chat_sessions w;
        background_tasks :=
          background_tasks w ++
          [{| task_job_id := job_id; task_brand_input := brand_input;
              task_input_type := input_type; task_email := email |}];
        clock := S (clock w) |},
     HttpOk job_id).

(** The state a run of [analyze_brand_genome] for task [t] ends in, and
    whether it raised. *)
Definition run_task_state (E : env) (t : task) (w : world) : run_state * result unit :=
  analyze_brand_genome E (clock w) (task_job_id t) (task_brand_input t)
    (task_input_type t) (task_email t)
    {| rs_job := jobs_lookup (task_job_id t) (genome_jobs w); rs_log := [] |}.

(** The world with the entry of [job_id] replaced when the run has one. *)
Definition put_job (job_id : string) (job : option (gmap string value)) (w : world)
    : world :=
  {| genome_jobs :=
       match job with
       | Some j => jobs_set job_id j (genome_jobs w)
       | None => genome_jobs w
       end;
     chat_sessions := chat_sessions w;
     background_tasks := background_tasks w;
     clock := clock w |}.

(** The scheduler takes the [i]-th scheduled task out of the queue. *)
Definition take_task (i : nat) (w : world) : option (task * world) :=
  match background_tasks w !! i with
  | None => None
  | Some t =>
    Some (t, {| genome_jobs := genome_jobs w; chat_sessions := chat_sessions w;
                background_tasks := take i (background_tasks w) ++
                                    drop (S i) (background_tasks w);
                clock := clock w |})
  end.

Definition tick (w : world) : world :=
  {| genome_jobs := genome_jobs w; chat_sessions := chat_sessions w;
     background_tasks := background_tasks w; clock := S (clock w) |}.

(** Running the [i]-th scheduled task to its end. *)
Definition run_task (E : env) (i : nat) (w : world) : world :=
  match take_task i w with
  | None => w
  | Some (t, w') =>
    tick (put_job (task_job_id t) (rs_job (fst (run_task_state E t w'))) w')
  end.

(** [get_genome_status]: the returned dictionary. *)
Definition get_genome_status (job_id : string) (w : world) : http (gmap string value) :=
  match jobs_lookup job_id (genome_jobs w) with
  | None => HttpError 404 "Job not found"
  | Some job =>
    match job !! "status", job !! "message" with
    | Some st, Some msg =>
      HttpOk (<["job_id" := VStr job_id]>
             (<["status" := st]>
             (<["message" := msg]>
             (<["brand_input" := get_or_none job "brand_input"]>
             (<["pdf_url" := get_or_none job "pdf_url"]>
             (<["email_sent" := default (VBool false) (job !! "email_sent")]>
             (<["created_at" := get_or_none job "created_at"]>
             (<["completed_at" := get_or_none job "completed_at"]> ∅))))))))
    | _, _ => HttpError 500 "Internal Server Error"
    end
  end.

(** [job.get('brand_input', '').lower()]: raises on a value that is not a
    text. *)
Definition brand_input_lower (job : gmap string value) : result string :=
  match job !! "brand_input" with
  | None => Ok ""
  | Some (VStr s) => Ok (lower s)
  | Some _ => Raise "AttributeError: object has no attribute 'lower'"
  end.

(** The loop of [initialize_chat] over [genome_jobs.items()]: the entry at
    which it breaks, if any. *)
Fixpoint find_brand_job (handle : string) (jobs : list (string * gmap string value))
    : result (option (string * gmap string value)) :=
  match jobs with
  | [] => Ok None
  | (job_id, job) :: rest =>
    match brand_input_lower job with
    | Raise e => Raise e
    | Ok b =>
      if String.eqb b (lower handle) && value_is_status (job !! "status") COMPLETED
      then Ok (Some (job_id, job))
      else find_brand_job handle rest
    end
  end.

(** The [brand_context] dictionary built from the job the loop stopped at. *)
Definition context_of_job (job : gmap string value) : gmap string value :=
  <["brand_dna" := get_or_empty_dict job "brand_dna"]>
  (<["audience" := get_or_empty_dict job "audience"]>
  (<["competitors" := get_or_empty_dict job "competitors"]> ∅)).

(** The body returned by [initialize_chat]. *)
Record chat_init_response : Type := {
  ci_session_id : string;
  ci_brand_handle : string;
  ci_has_context : bool
}.

(** [initialize_chat]; [session_id] is the value of [str(uuid.uuid4())]. Any
    exception becomes a 500 answer. *)
Definition initialize_chat (E : env) (session_id handle : string) (w : world)
    : world * http chat_init_response :=
  match find_brand_job handle (genome_jobs w) with
  | Raise e => (w, HttpError 500 ("Failed to initialize chat: " ++ e))
  | Ok found =>
    let brand_context := option_map (fun kj => context_of_job (snd kj)) found in
    match openai_new E with
    | Raise e => (w, HttpError 500 ("Failed to initialize chat: " ++ e))
    | Ok _ =>
      let a := new_assistant handle brand_context (clock w) in
      ({| genome_jobs := genome_jobs w;
          chat_sessions :=
            <[session_id := {| cs_session_id := session_id; cs_brand_handle := handle;
                               cs_assistant := a; cs_created_at := clock w;
                               cs_last_activity := clock w |}]> (chat_sessions w);
          background_tasks := background_tasks w;
          clock := S (clock w) |},
       HttpOk {| ci_session_id := session_id; ci_brand_handle := handle;
                 ci_has_context := bool_decide (brand_context <> None) |})
    end
  end.

(** [send_chat_message]. The session and its assistant are objects of the
    registry, so what [chat] did to the history stays also when it raised. *)
Definition send_chat_message (E : env) (session_id msg : string) (w : world)
    : world * http chat_reply :=
  match chat_sessions w !! session_id with
  | None => (w, HttpError 404 "Session not found. Please initialize chat first.")
  | Some session =>
    let '(a, r) := chat E (cs_assistant session) (clock w) msg in
    let session' :=
      {| cs_session_id := cs_session_id session;
         cs_brand_handle := cs_brand_handle session;
         cs_assistant := a; cs_created_at := cs_created_at session;
         cs_last_activity := clock w |} in
    ({| genome_jobs := genome_jobs w;
        chat_sessions := <[session_id := session']> (chat_sessions w);
        background_tasks := background_tasks w;
        clock := S (clock w) |},
     match r with
     | Ok reply => HttpOk reply
     | Raise e => HttpError 500 ("Chat error: " ++ e)
     end)
  end.

(** [generate_chat_report]; [job_id] is the value of [str(uuid.uuid4())]. *)
Definition generate_chat_report (session_id email job_id : string) (w : world)
    : world * http string :=
  match chat_sessions w !! session_id with
  | None => (w, HttpError 404 "Session not found")
  | Some session =>
    let handle := cs_brand_handle session in
    ({| genome_jobs :=
          jobs_set job_id (new_chat_job job_id handle email session_id (clock w))
            (genome_jobs w);
        chat_sessions := chat_sessions w;
        background_tasks :=
          background_tasks w ++
          [{| task_job_id := job_id; task_brand_input := handle;
              task_input_type := "auto"; task_email := email |}];
        clock := S (clock w) |},
     HttpOk job_id)
  end.

(** [end_chat_session]: a failed export does not stop the removal. *)
Definition end_chat_session (E : env) (session_id : string) (w : world)
    : world * http (option string) :=
  match chat_sessions w !! session_id with
  | None => (w, HttpError 404 "Session not found")
  | Some session =>
    let export_path :=
      match export_conversation E (cs_assistant session) with
      | Ok p => Some p
      | Raise _ => None
      end in
    ({| genome_jobs := genome_jobs w;
        chat_sessions := delete session_id (chat_sessions w);
        background_tasks := background_tasks w;
        clock := S (clock w) |},
     HttpOk export_path)
  end.

(** ** Executions of the process *)

(** The operations that change the state. The identifiers drawn from
    [uuid.uuid4()] are part of the operation. *)
Inductive op : Type :=
| OpAnalyze (job_id brand_input input_type email : string)
| OpRunTask (E : env) (i : nat)
| OpChatInit (E : env) (session_id handle : string)
| OpChatMessage (E : env) (session_id msg : string)
| OpChatReport (session_id email job_id : string)
| OpEndSession (E : env) (session_id : string).

Definition exec_op (o : op) (w : world) : world :=
  match o with
  | OpAnalyze job_id brand_input input_type email =>
    fst (analyze_brand job_id brand_input input_type email w)
  | OpRunTask E i => run_task E i w
  | OpChatInit E session_id handle => fst (initialize_chat E session_id handle w)
  | OpChatMessage E session_id msg => fst (send_chat_message E session_id msg w)
  | OpChatReport session_id email job_id =>
    fst (generate_chat_report session_id email job_id w)
  | OpEndSession E session_id => fst (end_chat_session E session_id w)
  end.

Definition exec (ops : list op) (w : world) : world :=
  fold_left (fun w o => exec_op o w) ops w.

(** The identifier an operation draws is new: no job has it. *)
Definition op_id_fresh (o : op) (w : world) : bool :=
  match o with
  | OpAnalyze job_id _ _ _ | OpChatReport _ _ job_id =>
    bool_decide (jobs_lookup job_id (genome_jobs w) = None)
  | _ => true
  end.

Fixpoint ids_fresh (ops : list op) (w : world) : bool :=
  match ops with
  | [] => true
  | o :: rest => op_id_fresh o w && ids_fresh rest (exec_op o w)
  end.

(** The successive values of [genome_jobs[job_id]] after each write of a
    log, starting from [job]. *)
Fixpoint snapshots (job : gmap string value) (log : list event)
    : list (gmap string value) :=
  match log with
  | [] => []
  | EvSet key v :: rest => <[key := v]> job :: snapshots (<[key := v]> job) rest
  | _ :: rest => snapshots job rest
  end.

(** The worlds that can be observed while an operation runs, in order; the
    last one is the world it ends in. A pipeline run shows one world per
    write to the job record. *)
Definition op_worlds (o : op) (w : world) : list world :=
  match o with
  | OpRunTask E i =>
    match take_task i w with
    | None => [w]
    | Some (t, w') =>
      match jobs_lookup (task_job_id t) (genome_jobs w') with
      | None => [exec_op o w]
      | Some job =>
        map (fun j => put_job (task_job_id t) (Some j) w')
            (snapshots job (rs_log (fst (run_task_state E t w'))))
        ++ [exec_op o w]
      end
    end
  | _ => [exec_op o w]
  end.

Fixpoint execution (ops : list op) (w : world) : list world :=
  match ops with
  | [] => []
  | o :: rest => op_worlds o w ++ execution rest (exec_op o w)
  end.

(** The status of a job as a status query would read it. *)
Definition job_status (job : gmap string value) : option JobStatus :=
  match job !! "status" with
  | Some (VStatus s) => Some s
  | _ => None
  end.

Definition status_of (job_id : string) (w : world) : option JobStatus :=
  jobs_lookup job_id (genome_jobs w) ≫= job_status.

(** The moves of the status of one job between two successive observations:
    no change, creation in [PENDING], [PENDING] to [PROCESSING], and
    [PROCESSING] to [COMPLETED] or [FAILED]. *)
Definition status_move (a b : option JobStatus) : bool :=
  match a, b with
  | None, None => true
  | None, Some PENDING => true
  | Some PENDING, Some PROCESSING => true
  | Some PROCESSING, Some COMPLETED => true
  | Some PROCESSING, Some FAILED => true
  | Some x, Some y => JobStatus_eqb x y
  | _, _ => false
  end.

(** Every two neighbours of a list are related. *)
Fixpoint chain {A : Type} (R : A -> A -> bool) (l : list A) : bool :=
  match l with
  | a :: (b :: _) as rest => R a b && chain R rest
  | _ => true
  end.

Definition is_terminal (s : JobStatus) : bool :=
  match s with
  | COMPLETED | FAILED => true
  | _ => false
  end.

(** The stages a log started, and the mails it sent, in order. *)
Definition stages_started (log : list event) : list nat :=
  omap (fun ev => match ev with EvStage k => Some k | _ => None end) log.

Definition mails_sent (log : list event) : list (mail * bool) :=
  omap (fun ev => match ev with EvMail m b => Some (m, b) | _ => None end) log.

(** Stage [k] raises [e] in a run with these arguments: the engine was
    built, the stages before [k] returned, and stage [k] raised. Data
    collection (1) and delivery (7) have no raising path. *)
Definition stage_raises (E : env) (job_id brand_input input_type : string)
    (k : nat) (e : string) : Prop :=
  let bd := collect_brand_data E brand_input input_type in
  engine_new E = Ok tt /\
  match k with
  | 2 => analyze_brand_dna E bd = Raise e
  | 3 => exists dna, analyze_brand_dna E bd = Ok dna /\
           analyze_competitors E bd dna = Raise e
  | 4 => exists dna comp, analyze_brand_dna E bd = Ok dna /\
           analyze_competitors E bd dna = Ok comp /\
           create_growth_roadmap E dna comp = Raise e
  | 5 => exists dna comp road, analyze_brand_dna E bd = Ok dna /\
           analyze_competitors E bd dna = Ok comp /\
           create_growth_roadmap E dna comp = Ok road /\
           create_content_strategy E dna = Raise e
  | 6 => exists dna comp road cont, analyze_brand_dna E bd = Ok dna /\
           analyze_competitors E bd dna = Ok comp /\
           create_growth_roadmap E dna comp = Ok road /\
           create_content_strategy E dna = Ok cont /\
           generate_genome_report E job_id (bd_brand_name bd) dna comp road cont = Raise e
  | _ => False
  end.

(** Stages 1 to 6 all return, the report being written at [pdf_path]. *)
Definition stages_succeed (E : env) (job_id brand_input input_type pdf_path : string)
    : Prop :=
  let bd := collect_brand_data E brand_input input_type in
  engine_new E = Ok tt /\
  exists dna comp road cont, analyze_brand_dna E bd = Ok dna /\
    analyze_competitors E bd dna = Ok comp /\
    create_growth_roadmap E dna comp = Ok road /\
    create_content_strategy E dna = Ok cont /\
    generate_genome_report E job_id (bd_brand_name bd) dna comp road cont = Ok pdf_path.

(** A value of a dictionary is the text of artifact [a]. *)
Definition holds_artifact (d : gmap string value) (a : artifact) : Prop :=
  exists key, d !! key = Some (VStr a).

(** ** Chat sessions over several turns *)

(** One call of [chat]: the services at that moment, the clock and the text. *)
Record turn : Type := {
  turn_env : env;
  turn_now : nat;
  turn_message : string
}.

(** The assistant after the calls of [turns], and the results in call order. *)
Fixpoint chat_turns (turns : list turn) (self : PixaroBrandAssistant)
    : PixaroBrandAssistant * list (result chat_reply) :=
  match turns with
  | [] => (self, [])
  | t :: rest =>
    let '(self', r) := chat (turn_env t) self (turn_now t) (turn_message t) in
    let '(self'', rs) := chat_turns rest self' in
    (self'', r :: rs)
  end.

(** A call succeeded: it returned a reply that is not the error reply. *)
Definition successful (r : result chat_reply) : bool :=
  match r with
  | Ok reply =>
    match reply_action_type reply with
    | error_action => false
    | _ => true
    end
  | Raise _ => false
  end.

(** The completion call of a turn, when the code reaches it: [None] when the
    turn ended with a generated image or the prompt could not be built,
    otherwise the answer of [completions_create]. *)
Definition completion_outcome (E : env) (self : PixaroBrandAssistant) (now : nat)
    (user_message : string) : option (result string) :=
  let self1 := append_message self
    {| msg_role := user; msg_content := user_message;
       msg_timestamp := now; msg_image_url := None |} in
  let image_ok :=
    match _detect_action_type user_message with
    | generate_image_action =>
      match images_generate E (brand_context self1) user_message with
      | Ok _ => true
      | Raise _ => false
      end
    | _ => false
    end in
  if image_ok then None
  else
    match _build_system_prompt self1 with
    | Raise _ => None
    | Ok prompt => Some (completions_create E prompt (history_for_openai self1))
    end.

(** The generation call of a turn failed with [e]. *)
Definition generation_fails (E : env) (self : PixaroBrandAssistant) (now : nat)
    (user_message e : string) : Prop :=
  completion_outcome E self now user_message = Some (Raise e).

(** The two entries a successful turn leaves in the history. *)
Definition turn_entries (t : turn) (r : result chat_reply) : list (role * string) :=
  match r with
  | Ok reply => [(user, turn_message t); (assistant, response reply)]
  | Raise _ => [(user, turn_message t)]
  end.

(** The context seeded from a completed job of the pipeline. *)
Definition empty_context : gmap string value :=
  <["brand_dna" := VDict []]>
  (<["audience" := VDict []]>
  (<["competitors" := VDict []]> ∅)).

(** A job matches a handle as the loop of [initialize_chat] tests it. *)
Definition job_matches (handle : string) (kj : string * gmap string value) : bool :=
  match brand_input_lower (snd kj) with
  | Ok b => String.eqb b (lower handle) && value_is_status (snd kj !! "status") COMPLETED
  | Raise _ => false
  end.

(** The instant at which a job completed. *)
Definition completed_at (job : gmap string value) : nat :=
  match job !! "completed_at" with
  | Some (VTime t) => t
  | _ => 0
  end.

(** The matching job that completed last, as the specification words the
    seeding of the context. *)
Fixpoint most_recently_completed (handle : string)
    (jobs : list (string * gmap string value)) : option (string * gmap string value) :=
  match jobs with
  | [] => None
  | kj :: rest =>
    if job_matches handle kj then
      match most_recently_completed handle rest with
      | Some kj' =>
        if Nat.ltb (completed_at (snd kj)) (completed_at (snd kj')) then Some kj'
        else Some kj
      | None => Some kj
      end
    else most_recently_completed handle rest
  end.

(** The user entry that a call of [chat] appends first. *)
Definition user_entry (now : nat) (text : string) : message :=
  {| msg_role := user; msg_content := text; msg_timestamp := now; msg_image_url := None |}.

(** [holds_artifact] as a test over the entries of the dictionary. *)
Definition holds_artifactb (d : gmap string value) (a : artifact) : bool :=
  existsb (fun kv => match snd kv with
                     | VStr s => String.eqb s a
                     | _ => false
                     end) (map_to_list d).

(** The scheduled tasks are those of the jobs still [PENDING], one per job. *)
Definition tasks_pending (w : world) : Prop :=
  Forall (fun t => status_of (task_job_id t) w = Some PENDING) (background_tasks w) /\
  NoDup (map task_job_id (background_tasks w)).

(** No job of the registry has one of the keys read by [initialize_chat] for
    the brand context. *)
Definition no_context_keys (job : gmap string value) : Prop :=
  job !! "brand_dna" = None /\ job !! "audience" = None /\ job !! "competitors" = None.

Definition jobs_without_context (w : world) : Prop :=
  Forall (fun kj => no_context_keys (snd kj)) (genome_jobs w).

(** The context of every session is empty or the context seeded from a job
    without context keys. *)
Definition sessions_context_ok (w : world) : Prop :=
  forall session_id session,
    chat_sessions w !! session_id = Some session ->
    brand_context (cs_assistant session) = ∅ \/
    brand_context (cs_assistant session) = empty_context.

(** The status of the job after each write of a log, starting from status
    [s]: a write to ["status"] changes it, the other writes keep it. *)
Fixpoint log_statuses (s : option JobStatus) (log : list event)
    : list (option JobStatus) :=
  match log with
  | [] => []
  | EvSet key v :: rest =>
    let s' := if String.eqb key "status"
              then match v with VStatus x => Some x | _ => None end
              else s in
    s' :: log_statuses s' rest
  | _ :: rest => log_statuses s rest
  end.

(** Every key of the dictionary is one of [keys]. *)
Definition keys_within (d : gmap string value) (keys : list string) : bool :=
  forallb (fun kv => existsb (String.eqb (fst kv)) keys) (map_to_list d).

(** ** [market_genome_main.py]: the read-only endpoints *)

(** Python truth value of a stored value ([not v] is its negation). *)
Definition truthy (v : value) : bool :=
  match v with
  | VNone => false
  | VBool b => b
  | VStr s => negb (String.eqb s "")
  | VStatus _ => true
  | VTime _ => true
  | VDict d => match d with [] => false | _ => true end
  end.

(** One entry of the list returned by [list_genome_jobs]. *)
Record job_summary : Type := {
  js_job_id : string;
  js_status : value;
  js_brand : value;
  js_created_at : value
}.

(** The list comprehension of [list_genome_jobs]; [job['status']] raises
    [KeyError] on a record without status. *)
Fixpoint job_summaries (jobs : list (string * gmap string value))
    : option (list job_summary) :=
  match jobs with
  | [] => Some []
  | (job_id, job) :: rest =>
    match job !! "status", job_summaries rest with
    | Some st, Some l =>
      Some ({| js_job_id := job_id; js_status := st;
               js_brand := default (VStr "") (job !! "brand_input");
               js_created_at := get_or_none job "created_at" |} :: l)
    | _, _ => None
    end
  end.

(** [list_genome_jobs]: [total_jobs] and [jobs]. *)
Definition list_genome_jobs (w : world) : http (nat * list job_summary) :=
  match job_summaries (genome_jobs w) with
  | Some l => HttpOk (length (genome_jobs w), l)
  | None => HttpError 500 "Internal Server Error"
  end.

(** [download_report]: the path and the file name of the [FileResponse].
    [path_exists] stands for [os.path.exists] on the stored value, which may
    raise on a value that is not a path. *)
Definition download_report (path_exists : value -> result bool) (job_id : string)
    (w : world) : http (value * string) :=
  match jobs_lookup job_id (genome_jobs w) with
  | None => HttpError 404 "Job not found"
  | Some job =>
    let pdf_path := get_or_none job "pdf_path" in
    if negb (truthy pdf_path) then HttpError 404 "Report not found"
    else
      match path_exists pdf_path with
      | Raise e => HttpError 500 "Internal Server Error"
      | Ok false => HttpError 404 "Report not found"
      | Ok true => HttpOk (pdf_path, "marketing_genome_" ++ job_id ++ ".pdf")
      end
  end.

(** The body returned by [get_chat_history]. *)
Record chat_history_response : Type := {
  ch_session_id : string;
  ch_brand_handle : string;
  ch_conversation : list message;
  ch_created_at : nat;
  ch_last_activity : nat
}.

(** [PixaroBrandAssistant.get_conversation_history]. *)
Definition get_conversation_history (self : PixaroBrandAssistant) : list message :=
  conversation_history self.

(** [PixaroBrandAssistant.clear_conversation]. *)
Definition clear_conversation (self : PixaroBrandAssistant) (now : nat)
    : PixaroBrandAssistant :=
  {| brand_handle := brand_handle self;
     brand_context := brand_context self;
     conversation_history := [];
     assistant_session_id := now |}.

(** [get_chat_history]. *)
Definition get_chat_history (session_id : string) (w : world)
    : http chat_history_response :=
  match chat_sessions w !! session_id with
  | None => HttpError 404 "Session not found"
  | Some session =>
    HttpOk {| ch_session_id := session_id;
              ch_brand_handle := cs_brand_handle session;
              ch_conversation := get_conversation_history (cs_assistant session);
              ch_created_at := cs_created_at session;
              ch_last_activity := cs_last_activity session |}
  end.

(** The shape of a job record at rest: a [PENDING] or [FAILED] job has no
    report, a [COMPLETED] job has its path, its download address and its
    completion time. *)
Definition job_at_rest (job_id : string) (job : gmap string value) : Prop :=
  match job_status job with
  | Some PENDING =>
    job !! "pdf_path" = None /\ job !! "pdf_url" = Some VNone /\
    job !! "completed_at" = None /\ job !! "email_sent" = Some (VBool false)
  | Some FAILED =>
    job !! "pdf_path" = None /\ job !! "pdf_url" = Some VNone /\
    job !! "completed_at" = None /\ job !! "email_sent" = Some (VBool false)
  | Some COMPLETED =>
    (exists path, job !! "pdf_path" = Some (VStr path)) /\
    job !! "pdf_url" = Some (VStr ("/api/download/report/" ++ job_id)) /\
    (exists t, job !! "completed_at" = Some (VTime t)) /\
    (exists sent, job !! "email_sent" = Some (VBool sent))
  | _ => False
  end.

(** Every job of the registry is at rest under its own identifier. *)
Definition jobs_at_rest (w : world) : Prop :=
  Forall (fun kj => job_at_rest (fst kj) (snd kj)) (genome_jobs w).

(** The recipient of a mail. *)
Definition mail_to (m : mail) : string :=
  match m with
  | GenomeReportMail to_email _ _ => to_email
  | ErrorMail to_email _ _ => to_email
  end.

Definition is_report_mail (m : mail) : bool :=
  match m with
  | GenomeReportMail _ _ _ => true
  | ErrorMail _ _ _ => false
  end.

(** Every job of the registry can be read by the endpoints: its status is a
    [JobStatus], its message and its brand are texts. *)
Definition job_readable (job : gmap string value) : Prop :=
  (exists st, job !! "status" = Some (VStatus st)) /\
  (exists msg, job !! "message" = Some (VStr msg)) /\
  (exists b, job !! "brand_input" = Some (VStr b)).

Definition jobs_readable (w : world) : Prop :=
  Forall (fun kj => job_readable (snd kj)) (genome_jobs w).

(** ** [brand_ai_assistant.py]: Instagram posts *)

(** [c.isspace()] on the 8-bit alphabet, the characters that [strip]
    removes: tab to carriage return (9 to 13), the four separators 28 to 31,
    the space, the next-line control 133 and the no-break space 160. *)
Definition is_space (c : ascii) : bool :=
  let n := nat_of_ascii c in
  (Nat.leb 9 n && Nat.leb n 13) || (Nat.leb 28 n && Nat.leb n 32) ||
  Nat.eqb n 133 || Nat.eqb n 160.

(** [s.lstrip()], [s.rstrip()] and [s.strip()]. *)
Fixpoint lstrip (s : string) : string :=
  match s with
  | EmptyString => EmptyString
  | String c s' => if is_space c then lstrip s' else s
  end.

Fixpoint rstrip (s : string) : string :=
  match s with
  | EmptyString => EmptyString
  | String c s' =>
    match rstrip s' with
    | EmptyString => if is_space c then EmptyString else String c EmptyString
    | r => String c r
    end
  end.

Definition strip (s : string) : string := rstrip (lstrip s).

(** [s.split(sep)] for a one-character separator: never the empty list. *)
Fixpoint split_on (sep : ascii) (s : string) : list string :=
  match s with
  | EmptyString => [EmptyString]
  | String c s' =>
    if Ascii.eqb c sep then EmptyString :: split_on sep s'
    else
      match split_on sep s' with
      | first :: others => String c first :: others
      | [] => [String c EmptyString]
      end
  end.

(** [line.split(':', 1)[1]]: the text after the first colon; without a
    colon the index is out of range. *)
Fixpoint after_colon (line : string) : option string :=
  match line with
  | EmptyString => None
  | String c rest => if Ascii.eqb c ":" then Some rest else after_colon rest
  end.

(** A post of the returned list: a dictionary with at most these keys. *)
Record post : Type := {
  post_caption : option string;
  post_hashtags : option string;
  post_best_time : option string;
  post_content_type : option string;
  post_error : option string
}.

Definition empty_post : post :=
  {| post_caption := None; post_hashtags := None; post_best_time := None;
     post_content_type := None; post_error := None |}.

(** Python truth value of the dictionary: it has a key. *)
Definition post_nonempty (p : post) : bool :=
  match post_caption p, post_hashtags p, post_best_time p, post_content_type p,
        post_error p with
  | None, None, None, None, None => false
  | _, _, _, _, _ => true
  end.

(** The value stored for a field line. *)
Definition field_value (line : string) : result string :=
  match after_colon line with
  | Some v => Ok (strip v)
  | None => Raise "list index out of range"
  end.

(** [if current_post: posts.append(current_post)]. *)
Definition flush_post (posts : list post) (current : post) : list post :=
  if post_nonempty current then posts ++ [current] else posts.

(** One round of the loop of [_parse_instagram_posts] on [posts] and
    [current_post]. *)
Definition parse_line (raw : string) (st : list post * post)
    : result (list post * post) :=
  let line := strip raw in
  let '(posts, current) := st in
  if startswith "Post " line || startswith "**Post" line then
    Ok (flush_post posts current, empty_post)
  else if contains "caption:" (lower line) then
    match field_value line with
    | Raise e => Raise e
    | Ok v =>
      Ok (posts, {| post_caption := Some v; post_hashtags := post_hashtags current;
                    post_best_time := post_best_time current;
                    post_content_type := post_content_type current;
                    post_error := post_error current |})
    end
  else if contains "hashtag" (lower line) then
    match field_value line with
    | Raise e => Raise e
    | Ok v =>
      Ok (posts, {| post_caption := post_caption current; post_hashtags := Some v;
                    post_best_time := post_best_time current;
                    post_content_type := post_content_type current;
                    post_error := post_error current |})
    end
  else if contains "time" (lower line) || contains "posting" (lower line) then
    match field_value line with
    | Raise e => Raise e
    | Ok v =>
      Ok (posts, {| post_caption := post_caption current;
                    post_hashtags := post_hashtags current;
                    post_best_time := Some v;
                    post_content_type := post_content_type current;
                    post_error := post_error current |})
    end
  else if contains "type" (lower line) then
    match field_value line with
    | Raise e => Raise e
    | Ok v =>
      Ok (posts, {| post_caption := post_caption current;
                    post_hashtags := post_hashtags current;
                    post_best_time := post_best_time current;
                    post_content_type := Some v;
                    post_error := post_error current |})
    end
  else Ok (posts, current).

Fixpoint parse_lines (lines : list string) (st : list post * post)
    : result (list post * post) :=
  match lines with
  | [] => Ok st
  | line :: rest =>
    match parse_line line st with
    | Raise e => Raise e
    | Ok st' => parse_lines rest st'
    end
  end.

(** The single post returned when nothing was recognised. *)
Definition fallback_post (ai_response : string) : post :=
  {| post_caption := Some ai_response; post_hashtags := Some "";
     post_best_time := Some "Peak hours"; post_content_type := Some "Static";
     post_error := None |}.

(** [PixaroBrandAssistant._parse_instagram_posts]. *)
Definition _parse_instagram_posts (ai_response : string) : result (list post) :=
  match parse_lines (split_on "010" ai_response) ([], empty_post) with
  | Raise e => Raise e
  | Ok (posts, current) =>
    match flush_post posts current with
    | [] => Ok [fallback_post ai_response]
    | posts' => Ok posts'
    end
  end.

(** The entry returned when generating the posts failed. *)
Definition error_post (e : string) : post :=
  {| post_caption := Some "Error generating posts"; post_hashtags := None;
     post_best_time := None; post_content_type := None; post_error := Some e |}.

(** The user message of [generate_instagram_posts]. *)
Definition instagram_prompt (handle topic : string) (count : Z) : string :=
  "Create " ++ pretty count ++ " Instagram post captions for " ++ handle ++
  " about: " ++ topic ++ String "010" (String "010"
  ("For each post, provide:" ++ String "010"
  ("1. Engaging caption (150-200 characters)" ++ String "010"
  ("2. Relevant hashtags (5-8 hashtags)" ++ String "010"
  ("3. Best posting time" ++ String "010"
  ("4. Content type suggestion (carousel, reel, static image)" ++
   String "010" (String "010"
  "Make sure captions match the brand voice and tone. Include call-to-actions."))))))).

(** [PixaroBrandAssistant.generate_instagram_posts]: the system prompt, the
    completion call and the parsing are all inside [try ... except
    Exception]. *)
Definition generate_instagram_posts (E : env) (self : PixaroBrandAssistant)
    (topic : string) (count : Z) : list post :=
  match _build_system_prompt self with
  | Raise e => [error_post e]
  | Ok prompt =>
    match completions_create E prompt
            [(user, instagram_prompt (brand_handle self) topic count)] with
    | Raise e => [error_post e]
    | Ok content =>
      match _parse_instagram_posts content with
      | Raise e => [error_post e]
      | Ok posts => posts
      end
    end
  end.

(** A line on which the loop raises: not a header, no ["caption:"], one of
    the other key words, and no colon. *)
Definition line_raises (raw : string) : bool :=
  let line := strip raw in
  negb (startswith "Post " line || startswith "**Post" line) &&
  negb (contains "caption:" (lower line)) &&
  (contains "hashtag" (lower line) || contains "time" (lower line) ||
   contains "posting" (lower line) || contains "type" (lower line)) &&
  negb (contains ":" line).

(** A line that sets a field of the current post. *)
Definition field_line (raw : string) : bool :=
  let line := strip raw in
  negb (startswith "Post " line || startswith "**Post" line) &&
  (contains "caption:" (lower line) || contains "hashtag" (lower line) ||
   contains "time" (lower line) || contains "posting" (lower line) ||
   contains "type" (lower line)).

(** What the loop keeps true of [posts] and [current_post]. *)
Definition parse_state_ok (st : list post * post) : Prop :=
  Forall (fun p => post_nonempty p = true /\ post_error p = None) (fst st) /\
  post_error (snd st) = None.

(** ** Sample services

    Services for the examples: the completion call answers [text], the image
    call answers [image], stage [failing_stage] of the pipeline raises (no
    stage does when it is 0 or above 6) and the mail server answers [smtp]. *)
Definition stage_answer (failing_stage k : nat) (produced : string) : result string :=
  if Nat.eqb failing_stage k then Raise "service unavailable" else Ok produced.

Definition services (text image : result string) (failing_stage : nat)
    (smtp : result unit) : env :=
  {| openai_new := Ok tt;
     images_generate := fun _ _ => image;
     completions_create := fun _ _ => text;
     engine_new := Ok tt;
     http_get := fun _ => Ok ("Acme Inc", "We make everything");
     analyze_brand_dna := fun _ => stage_answer failing_stage 2 "brand-dna";
     analyze_competitors := fun _ _ => stage_answer failing_stage 3 "competitor-intel";
     create_growth_roadmap := fun _ _ => stage_answer failing_stage 4 "growth-roadmap";
     create_content_strategy := fun _ => stage_answer failing_stage 5 "content-strategy";
     generate_genome_report := fun job_id _ _ _ _ _ =>
       stage_answer failing_stage 6 ("outputs/genome_" ++ job_id ++ ".pdf");
     smtp_send := fun _ => smtp;
     export_conversation := fun _ => Ok "conversations/conversation.json" |}.

(** Everything works. *)
Definition good_services : env :=
  services (Ok "Here is a plan.") (Ok "https://images.example/1.png") 0 (Ok tt).

(** The completion call times out. *)
Definition no_completion : env :=
  services (Raise "Request timed out.") (Raise "Request timed out.") 0 (Ok tt).

(** Competitor analysis is down. *)
Definition no_competitors : env :=
  services (Ok "Here is a plan.") (Ok "https://images.example/1.png") 3 (Ok tt).

(** A job is submitted and its run fails at stage 3. *)
Definition failing_world : world :=
  exec [ OpAnalyze "job-1" "acme" "brand_name" "user@x.com"; OpRunTask no_competitors 0 ]
    initial_world.

(** The two facts about the registries that hold in every reachable state. *)
Definition world_ok (w : world) : Prop :=
  jobs_without_context w /\ sessions_context_ok w.

(** Two jobs for the same brand, written with different letter case, ran to
    completion one after the other. *)
Definition two_completed_world : world :=
  exec [ OpAnalyze "job-1" "Acme" "brand_name" "user@x.com";
         OpRunTask good_services 0;
         OpAnalyze "job-2" "ACME" "brand_name" "user@x.com";
         OpRunTask good_services 0 ]
    initial_world.


(** A session was opened for a brand. *)
Definition one_session_world : world :=
  exec [ OpChatInit good_services "session-1" "acme" ] initial_world.

(** * Properties *)

(** ** Strings *)

Lemma startswith_spec (p s : string) :
  startswith p s = true <-> exists rest, s = p ++ rest.
Proof.
  revert s. induction p as [|a p IH]; intros s; simpl.
  - split; [intros _; exists s; reflexivity | reflexivity].
  - destruct s as [|b s].
    + split; [discriminate | intros [rest H]; discriminate].
    + destruct (Ascii.eqb_spec a b) as [->|Hne].
      * rewrite IH. split; intros [rest H]; exists rest; [now rewrite H | now inversion H].
      * split; [discriminate | intros [rest H]; inversion H; congruence].
Qed.

(** [contains] is the substring test of Python's [in]. *)
Lemma contains_spec (p s : string) :
  contains p s = true <-> exists before rest, s = before ++ p ++ rest.
Proof.
  induction s as [|b s IH].
  - simpl. rewrite orb_false_r, startswith_spec. split.
    + intros [rest H]. exists "", rest. exact H.
    + intros [before [rest H]]. destruct before; [exists rest; exact H | discriminate].
  - cbn [contains]. rewrite orb_true_iff, IH, startswith_spec. split.
    + intros [[rest H] | [before [rest H]]].
      * exists "", rest. exact H.
      * exists (String b before), rest. simpl. now rewrite H.
    + intros [before [rest H]]. destruct before as [|c before].
      * left. exists rest. exact H.
      * right. exists before, rest. now inversion H.
Qed.

Lemma lower_ascii_idem (c : ascii) : lower_ascii (lower_ascii c) = lower_ascii c.
Proof.
  destruct c as [[] [] [] [] [] [] [] []]; reflexivity.
Qed.

Lemma lower_idem (s : string) : lower (lower s) = lower s.
Proof.
  induction s as [|c s IH]; simpl; [reflexivity|].
  now rewrite lower_ascii_idem, IH.
Qed.

(** Accented capitals are folded as well: [É] (201) goes to [é] (233), the
    multiplication sign (215) and the sharp s (223) are kept. *)
Example lower_of_accented_capitals :
  lower ("CAF" ++ String "201" "") = "caf" ++ String "233" "" /\
  lower (String "215" (String "223" "")) = String "215" (String "223" "").
Proof. vm_compute. auto. Qed.

Lemma any_in_intro (phrases : list string) (p s : string) :
  In p phrases -> contains p s = true -> any_in phrases s = true.
Proof.
  intros Hin Hc. unfold any_in. apply existsb_exists. exists p. split; assumption.
Qed.

(** ** Intent classification *)

Lemma detect_eq_table (m : string) : _detect_action_type m = classify_by_table m.
Proof.
  unfold _detect_action_type, classify_by_table, intent_rules, rule_matches.
  cbn [find fst snd].
  repeat (match goal with
          | |- context [any_in ?l (lower m)] => destruct (any_in l (lower m))
          end; try reflexivity).
Qed.

Lemma find_first_match {A : Type} (f : A -> bool) (before after : list A) (r : A) :
  f r = true -> (forall r', In r' before -> f r' = false) ->
  find f (before ++ r :: after)%list = Some r.
Proof.
  intros Hr Hb. induction before as [|a before IH]; simpl.
  - now rewrite Hr.
  - rewrite (Hb a) by (left; reflexivity). apply IH. intros r' Hin. apply Hb. now right.
Qed.

(** C3. The classifier is the ordered, case-insensitive cascade of the rule
    table: it computes the category of the first rule of [intent_rules] one
    of whose phrases occurs in the lower-cased text (and [general_chat] when
    there is none); a rule that matches wins over all the rules after it;
    texts that differ only in letter case get the same category; and a text
    in which both an image phrase and a competitor phrase occur is classified
    as image generation. *)
Theorem C3_intent_cascade :
  (forall m, _detect_action_type m = classify_by_table m) /\
  (forall m before r after,
      intent_rules = (before ++ r :: after)%list ->
      rule_matches m r = true ->
      (forall r', In r' before -> rule_matches m r' = false) ->
      _detect_action_type m = fst r) /\
  (forall m m', same_modulo_case m m' -> _detect_action_type m = _detect_action_type m') /\
  (forall m p q,
      In p image_phrases -> In q competitor_phrases ->
      contains p (lower m) = true -> contains q (lower m) = true ->
      _detect_action_type m = generate_image_action).
Proof.
  split; [exact detect_eq_table|]. split; [|split].
  - intros m before r after Hrules Hr Hb.
    rewrite detect_eq_table. unfold classify_by_table. rewrite Hrules.
    now rewrite (find_first_match _ before after r Hr Hb).
  - intros m m' H. unfold same_modulo_case in H. unfold _detect_action_type. now rewrite H.
  - intros m p q Hp _ Hcp _. unfold _detect_action_type.
    now rewrite (any_in_intro image_phrases p (lower m) Hp Hcp).
Qed.

Lemma C3_intent_cascade_witness :
  In "image of" image_phrases /\ In "rival" competitor_phrases /\
  contains "image of" (lower "Make an IMAGE OF our Rival") = true /\
  contains "rival" (lower "Make an IMAGE OF our Rival") = true /\
  _detect_action_type "Make an IMAGE OF our Rival" = generate_image_action.
Proof.
  assert (Hp : In "image of" image_phrases) by (vm_compute; tauto).
  assert (Hq : In "rival" competitor_phrases) by (vm_compute; tauto).
  assert (H1 : contains "image of" (lower "Make an IMAGE OF our Rival") = true)
    by reflexivity.
  assert (H2 : contains "rival" (lower "Make an IMAGE OF our Rival") = true)
    by reflexivity.
  repeat (split; [assumption|]).
  exact (proj2 (proj2 (proj2 C3_intent_cascade)) _ _ _ Hp Hq H1 H2).
Defined.

Lemma lower_same_modulo_case (m : string) : same_modulo_case (lower m) m.
Proof. apply lower_idem. Qed.

Example detect_ignores_case :
  _detect_action_type "SEND REPORT to me" = _detect_action_type "send report to me".
Proof. reflexivity. Qed.

Example detect_competitor_alone :
  _detect_action_type "Who is our biggest RIVAL?" = competitor_analysis.
Proof. reflexivity. Qed.

Example detect_default : _detect_action_type "hello there" = general_chat.
Proof. reflexivity. Qed.

(** ** One turn of [chat] *)



Lemma history_for_openai_append (self : PixaroBrandAssistant) (m : message) :
  history_for_openai (append_message self m)
  = (history_for_openai self ++ [(msg_role m, msg_content m)])%list.
Proof. unfold history_for_openai, append_message. cbn. now rewrite map_app. Qed.

(** A successful turn appends the user entry and then the assistant entry
    that carries the reply. *)
Lemma chat_successful (E : env) (self : PixaroBrandAssistant) (now : nat) (m : string) :
  successful (snd (chat E self now m)) = true ->
  exists reply,
    snd (chat E self now m) = Ok reply /\
    history_for_openai (fst (chat E self now m))
    = (history_for_openai self ++ [(user, m); (assistant, response reply)])%list /\
    brand_handle (fst (chat E self now m)) = brand_handle self /\
    brand_context (fst (chat E self now m)) = brand_context self.
Proof.
  unfold chat.
  set (self1 := append_message self _).
  destruct (match _detect_action_type m with
            | generate_image_action => _
            | _ => None
            end) as [[url prompt]|].
  - intros _. eexists; split; [reflexivity|]. cbn [fst response].
    rewrite history_for_openai_append. subst self1.
    rewrite history_for_openai_append. cbn. rewrite <- app_assoc. auto.
  - destruct (_build_system_prompt self1) as [p|e]; [|discriminate].
    destruct (completions_create E p (history_for_openai self1)) as [text|e];
      [|discriminate].
    intros _. eexists; split; [reflexivity|]. cbn [fst response].
    rewrite history_for_openai_append. subst self1.
    rewrite history_for_openai_append. cbn. rewrite <- app_assoc. auto.
Qed.

(** When the generation call fails the turn appends the user entry only and
    answers with the error reply. *)
Lemma chat_generation_fails (E : env) (self : PixaroBrandAssistant) (now : nat)
    (m e : string) :
  generation_fails E self now m e ->
  chat E self now m
  = (append_message self (user_entry now m),
     Ok {| response := error_reply_text e (brand_handle self);
           reply_action_type := error_action; needs_report := false;
           image_url := None; reply_timestamp := now |}).
Proof.
  unfold generation_fails, completion_outcome, chat, generate_image, user_entry.
  set (self1 := append_message self _).
  destruct (_detect_action_type m);
    try (destruct (_build_system_prompt self1) as [p|e']; [|discriminate];
         intros H; injection H as H; rewrite H; reflexivity).
  destruct (images_generate E (brand_context self1) m) as [url|e']; [discriminate|].
  destruct (_build_system_prompt self1) as [p|e'']; [|discriminate].
  intros H; injection H as H; rewrite H; reflexivity.
Qed.

(** Whatever happens, a turn keeps the earlier history and puts the user
    entry right after it. *)
Lemma chat_history_extends (E : env) (self : PixaroBrandAssistant) (now : nat)
    (m : string) :
  exists tail,
    conversation_history (fst (chat E self now m))
    = (conversation_history self ++ user_entry now m :: tail)%list /\
    brand_handle (fst (chat E self now m)) = brand_handle self /\
    brand_context (fst (chat E self now m)) = brand_context self /\
    assistant_session_id (fst (chat E self now m)) = assistant_session_id self.
Proof.
  unfold chat, user_entry.
  set (self1 := append_message self _).
  destruct (match _detect_action_type m with
            | generate_image_action => _
            | _ => None
            end) as [[url prompt]|].
  - eexists. cbn. rewrite <- app_assoc. cbn. auto.
  - destruct (_build_system_prompt self1) as [p|e].
    + destruct (completions_create E p (history_for_openai self1)) as [text|e].
      * eexists. cbn. rewrite <- app_assoc. cbn. auto.
      * exists []. cbn. auto.
    + exists []. cbn. auto.
Qed.

(** ** Several turns *)

Lemma chat_turns_cons (t : turn) (rest : list turn) (self : PixaroBrandAssistant) :
  chat_turns (t :: rest) self
  = (fst (chat_turns rest (fst (chat (turn_env t) self (turn_now t) (turn_message t)))),
     snd (chat (turn_env t) self (turn_now t) (turn_message t))
     :: snd (chat_turns rest (fst (chat (turn_env t) self (turn_now t) (turn_message t))))).
Proof.
  cbn [chat_turns].
  destruct (chat (turn_env t) self (turn_now t) (turn_message t)) as [self' r].
  cbn [fst snd]. destruct (chat_turns rest self') as [self'' rs]. reflexivity.
Qed.

Lemma chat_turns_length (turns : list turn) (self : PixaroBrandAssistant) :
  length (snd (chat_turns turns self)) = length turns.
Proof.
  revert self. induction turns as [|t rest IH]; intros self; [reflexivity|].
  rewrite chat_turns_cons. cbn. now rewrite IH.
Qed.

Lemma chat_turns_successful (turns : list turn) (self : PixaroBrandAssistant) :
  forallb successful (snd (chat_turns turns self)) = true ->
  history_for_openai (fst (chat_turns turns self))
  = (history_for_openai self
     ++ concat (zip_with turn_entries turns (snd (chat_turns turns self))))%list /\
  length (conversation_history (fst (chat_turns turns self)))
  = length (conversation_history self) + 2 * length turns.
Proof.
  revert self. induction turns as [|t rest IH]; intros self.
  - intros _. cbn. rewrite app_nil_r. split; [reflexivity | lia].
  - rewrite chat_turns_cons. cbn [fst snd forallb].
    intros H. apply andb_prop in H as [Ht Hrest].
    destruct (chat_successful _ _ _ _ Ht) as (reply & Hr & Hh & _ & _).
    destruct (IH _ Hrest) as [IH1 IH2].
    rewrite IH1, IH2. split.
    + rewrite Hh. cbn [zip_with concat]. rewrite Hr. cbn [turn_entries].
      rewrite <- app_assoc. reflexivity.
    + assert (Hl : length (conversation_history
                     (fst (chat (turn_env t) self (turn_now t) (turn_message t))))
                   = length (conversation_history self) + 2).
      { pose proof (f_equal (@length _) Hh) as Hlen.
        unfold history_for_openai in Hlen.
        rewrite length_app, !length_map in Hlen. exact Hlen. }
      rewrite Hl. cbn [length]. lia.
Qed.

Lemma entries_lookup (turns : list turn) (rs : list (result chat_reply)) :
  length rs = length turns ->
  forallb successful rs = true ->
  forall i t, turns !! i = Some t ->
    exists reply,
      rs !! i = Some (Ok reply) /\
      concat (zip_with turn_entries turns rs) !! (2 * i) = Some (user, turn_message t) /\
      concat (zip_with turn_entries turns rs) !! (2 * i + 1)
      = Some (assistant, response reply).
Proof.
  revert rs. induction turns as [|t0 rest IH]; intros rs Hlen Hall i t Hi.
  - destruct i; discriminate.
  - destruct rs as [|r rs]; [discriminate|].
    cbn [forallb] in Hall. apply andb_prop in Hall as [Hr Hall].
    destruct r as [reply|e]; [|discriminate].
    destruct i as [|i].
    + injection Hi as <-. exists reply. cbn. auto.
    + cbn in Hi. injection Hlen as Hlen.
      destruct (IH rs Hlen Hall i t Hi) as (reply' & H1 & H2 & H3).
      exists reply'. replace (2 * S i) with (S (S (2 * i))) by lia.
      cbn. auto.
Qed.

(** C7. In a session where the [n] calls made so far all succeeded, the
    history holds exactly [2n] entries: for each call, in call order, the
    user entry with the text of the call followed by the assistant entry
    with the reply of that call. *)
Theorem C7_history_two_per_successful_turn
    (handle : string) (context : option (gmap string value)) (created : nat)
    (turns : list turn) :
  let session := new_assistant handle context created in
  forallb successful (snd (chat_turns turns session)) = true ->
  length (conversation_history (fst (chat_turns turns session))) = 2 * length turns /\
  history_for_openai (fst (chat_turns turns session))
  = concat (zip_with turn_entries turns (snd (chat_turns turns session))) /\
  (forall i t, turns !! i = Some t ->
     exists reply,
       snd (chat_turns turns session) !! i = Some (Ok reply) /\
       history_for_openai (fst (chat_turns turns session)) !! (2 * i)
       = Some (user, turn_message t) /\
       history_for_openai (fst (chat_turns turns session)) !! (2 * i + 1)
       = Some (assistant, response reply)).
Proof.
  intros session Hall.
  destruct (chat_turns_successful turns session Hall) as [Hh Hl].
  split; [exact Hl|]. split; [exact Hh|].
  intros i t Hi. rewrite Hh. cbn [app].
  apply entries_lookup; auto using chat_turns_length.
Qed.

Lemma C7_history_two_per_successful_turn_witness :
  let turns := [ {| turn_env := good_services; turn_now := 1;
                    turn_message := "Plan my week" |};
                 {| turn_env := good_services; turn_now := 2;
                    turn_message := "Generate an image of a cat" |} ] in
  let session := new_assistant "acme" None 0 in
  forallb successful (snd (chat_turns turns session)) = true /\
  length (conversation_history (fst (chat_turns turns session))) = 4.
Proof.
  intros turns session.
  assert (H : forallb successful (snd (chat_turns turns session)) = true)
    by (vm_compute; reflexivity).
  split; [exact H|].
  exact (proj1 (C7_history_two_per_successful_turn "acme" None 0 turns H)).
Defined.

Example two_turns_history :
  history_for_openai
    (fst (chat_turns
            [ {| turn_env := good_services; turn_now := 1;
                 turn_message := "Plan my week" |};
              {| turn_env := good_services; turn_now := 2;
                 turn_message := "Plan my month" |} ]
            (new_assistant "acme" None 0)))
  = [ (user, "Plan my week"); (assistant, "Here is a plan.");
      (user, "Plan my month"); (assistant, "Here is a plan.") ].
Proof. vm_compute. reflexivity. Qed.

(** C10, as amended. When the generation call of a turn fails, the user
    entry was appended before the failure and no assistant entry follows it:
    the history is the earlier history plus that one entry, so its length
    grows by exactly one; it becomes odd when it was even before, which is
    the case as long as all the earlier turns succeeded. The turn is answered
    with the error reply and is not a successful turn. *)
Theorem C10_failed_turn_appends_user_entry_only
    (E : env) (self : PixaroBrandAssistant) (now : nat) (m e : string) :
  generation_fails E self now m e ->
  conversation_history (fst (chat E self now m))
  = (conversation_history self ++ [user_entry now m])%list /\
  length (conversation_history (fst (chat E self now m)))
  = S (length (conversation_history self)) /\
  (Nat.even (length (conversation_history self)) = true ->
   Nat.odd (length (conversation_history (fst (chat E self now m)))) = true) /\
  successful (snd (chat E self now m)) = false /\
  (forall handle context created turns,
     self = fst (chat_turns turns (new_assistant handle context created)) ->
     forallb successful (snd (chat_turns turns (new_assistant handle context created)))
     = true ->
     length (conversation_history (fst (chat E self now m))) = 2 * length turns + 1).
Proof.
  intros Hfail. rewrite (chat_generation_fails _ _ _ _ _ Hfail). cbn [fst snd].
  assert (Hlen : length (conversation_history (append_message self (user_entry now m)))
                 = S (length (conversation_history self))).
  { cbn. rewrite length_app. cbn. lia. }
  split; [reflexivity|]. split; [exact Hlen|]. split; [|split; [reflexivity|]].
  - intros Heven. rewrite Hlen, Nat.odd_succ. exact Heven.
  - intros handle context created turns -> Hall. rewrite Hlen.
    rewrite (proj2 (chat_turns_successful _ _ Hall)). cbn. lia.
Qed.

Lemma C10_failed_turn_appends_user_entry_only_witness :
  let self := new_assistant "acme" None 0 in
  generation_fails no_completion self 1 "hello" "Request timed out." /\
  length (conversation_history (fst (chat no_completion self 1 "hello"))) = 1.
Proof.
  intros self.
  assert (H : generation_fails no_completion self 1 "hello" "Request timed out.")
    by (vm_compute; reflexivity).
  split; [exact H|].
  exact (proj1 (proj2 (C10_failed_turn_appends_user_entry_only _ _ _ _ _ H))).
Defined.

(** C10 as stated fails: a second failed turn in a row leaves a history of
    even length. *)
Lemma C10_counterexample :
  let after_first := fst (chat no_completion (new_assistant "acme" None 0) 1 "hello") in
  generation_fails no_completion after_first 2 "are you there?" "Request timed out." /\
  length (conversation_history (fst (chat no_completion after_first 2 "are you there?")))
  = 2 /\
  Nat.odd (length (conversation_history
                     (fst (chat no_completion after_first 2 "are you there?")))) = false.
Proof. vm_compute. auto. Qed.

(** ** The pipeline run *)

Ltac run_eval :=
  unfold analyze_brand_genome, analyze_brand_genome_body,
    analyze_brand_genome_handler, try_except, mbind, run_bind, mret, run_ret,
    set_field, log_event, call;
  cbn [rs_job rs_log app fst snd].

(** Evaluates a run by cases on the answers of the engine and of the five
    stages that can raise. *)
Ltac run_cases E :=
  run_eval;
  destruct (engine_new E) as [[]|?e] eqn:?Hengine; cbn [rs_job rs_log app fst snd];
  [ destruct (analyze_brand_dna E _) as [?dna|?e] eqn:?Hdna;
    cbn [rs_job rs_log app fst snd];
    [ destruct (analyze_competitors E _ _) as [?comp|?e] eqn:?Hcomp;
      cbn [rs_job rs_log app fst snd];
      [ destruct (create_growth_roadmap E _ _) as [?road|?e] eqn:?Hroad;
        cbn [rs_job rs_log app fst snd];
        [ destruct (create_content_strategy E _) as [?cont|?e] eqn:?Hcont;
          cbn [rs_job rs_log app fst snd];
          [ destruct (generate_genome_report E _ _ _ _ _ _) as [?pdf|?e] eqn:?Hpdf;
            cbn [rs_job rs_log app fst snd] | ] | ] | ] | ] | ].

(** [try: ... except: pass] never raises, whatever its body does. *)
Lemma try_except_pass (body : run unit) (s : run_state) :
  snd (try_except body (fun _ => mret tt) s) = Ok tt.
Proof.
  unfold try_except. destruct (body s) as [s' [[]|e]]; reflexivity.
Qed.

(** A run on a job that is in the registry never raises. *)
Lemma run_returns (E : env) (now : nat) (id b it em : string) (j : gmap string value) :
  snd (analyze_brand_genome E now id b it em {| rs_job := Some j; rs_log := [] |}) = Ok tt.
Proof. run_cases E; reflexivity. Qed.

Lemma failed_record (j : gmap string value) (m1 m2 : value) (s1 s2 : value) :
  <["message" := m2]> (<["status" := s2]> (<["message" := m1]> (<["status" := s1]> j)))
  = <["message" := m2]> (<["status" := s2]> j).
Proof.
  apply map_eq. intros key. rewrite !lookup_insert.
  repeat case_decide; congruence.
Qed.

Lemma insert_message_twice (j : gmap string value) (m1 m2 : value) :
  <["message" := m2]> (<["message" := m1]> j) = <["message" := m2]> j.
Proof. apply insert_insert_eq. Qed.

(** What a run does when stage [k] raises [e]. *)
Lemma run_stage_raises (E : env) (now : nat) (id b it em : string)
    (j : gmap string value) (k : nat) (e : string) :
  stage_raises E id b it k e ->
  2 <= k <= 6 /\
  analyze_brand_genome E now id b it em {| rs_job := Some j; rs_log := [] |}
  = ({| rs_job := Some (<["message" := VStr ("Error generating genome: " ++ e)]>
                        (<["status" := VStatus FAILED]> j));
        rs_log := rs_log (fst (analyze_brand_genome E now id b it em
                                 {| rs_job := Some j; rs_log := [] |})) |}, Ok tt) /\
  stages_started (rs_log (fst (analyze_brand_genome E now id b it em
                                 {| rs_job := Some j; rs_log := [] |}))) = seq 1 k /\
  mails_sent (rs_log (fst (analyze_brand_genome E now id b it em
                             {| rs_job := Some j; rs_log := [] |})))
  = [(ErrorMail em b e, send_error_email E em b e)].
Proof.
  intros H.
  assert (Hk : 2 <= k <= 6).
  { destruct H as [_ H]. do 7 (try destruct k as [|k]); try contradiction; lia. }
  split; [exact Hk|].
  destruct H as [He H].
  do 2 (destruct k as [|k]; [lia|]).
  do 5 (try destruct k as [|k]); [ | | | | | lia];
    repeat match goal with
           | H : exists _, _ |- _ => destruct H as [? H]
           | H : _ /\ _ |- _ => destruct H
           end;
    run_eval;
    repeat match goal with
           | H : ?x = _ |- context [?x] => rewrite H; cbn [rs_job rs_log app fst snd]
           end;
    rewrite ?insert_message_twice, failed_record;
    (split; [reflexivity|]); split; reflexivity.
Qed.

Ltac lookup_job :=
  repeat (rewrite lookup_insert_eq || (rewrite lookup_insert_ne by discriminate));
  try reflexivity.

(** What a run does when the stages up to the report all return. *)
Lemma run_stages_succeed (E : env) (now : nat) (id b it em : string)
    (j : gmap string value) (pdf : string) :
  stages_succeed E id b it pdf ->
  let final := analyze_brand_genome E now id b it em {| rs_job := Some j; rs_log := [] |} in
  let delivered := send_genome_report_email E em b pdf in
  snd final = Ok tt /\
  (exists j', rs_job (fst final) = Some j' /\
     j' !! "status" = Some (VStatus COMPLETED) /\
     j' !! "message" = Some (VStr "Marketing Genome Report generated successfully!") /\
     j' !! "pdf_path" = Some (VStr pdf) /\
     j' !! "pdf_url" = Some (VStr ("/api/download/report/" ++ id)) /\
     j' !! "email_sent" = Some (VBool delivered) /\
     j' !! "completed_at" = Some (VTime now)) /\
  stages_started (rs_log (fst final)) = seq 1 7 /\
  mails_sent (rs_log (fst final)) = [(GenomeReportMail em b pdf, delivered)] /\
  (forall v, In (EvSet "status" v) (rs_log (fst final)) ->
     v = VStatus PROCESSING \/ v = VStatus COMPLETED).
Proof.
  intros (He & dna & comp & road & cont & H2 & H3 & H4 & H5 & H6) final delivered.
  subst final delivered. run_eval.
  rewrite He; cbn [rs_job rs_log app fst snd].
  rewrite H2; cbn [rs_job rs_log app fst snd].
  rewrite H3; cbn [rs_job rs_log app fst snd].
  rewrite H4; cbn [rs_job rs_log app fst snd].
  rewrite H5; cbn [rs_job rs_log app fst snd].
  rewrite H6; cbn [rs_job rs_log app fst snd].
  split; [reflexivity|]. split.
  - eexists. split; [reflexivity|]. repeat split; lookup_job.
  - split; [reflexivity|]. split; [reflexivity|].
    intros v Hin. cbn [In] in Hin.
    repeat (destruct Hin as [Hin|Hin];
            [first [discriminate Hin | injection Hin as <-; auto]|]).
    contradiction.
Qed.

Lemma send_email_true (E : env) (m : mail) :
  send_email E m = true <-> smtp_send E m = Ok tt.
Proof.
  unfold send_email. destruct (smtp_send E m) as [[]|e]; split; congruence.
Qed.

Lemma send_email_raise (E : env) (m : mail) (e : string) :
  smtp_send E m = Raise e -> send_email E m = false.
Proof. unfold send_email. now intros ->. Qed.

(** The status query on a job whose record has a status and a message. *)
Lemma get_genome_status_found (id : string) (w : world) (job : gmap string value)
    (st msg : value) :
  jobs_lookup id (genome_jobs w) = Some job ->
  job !! "status" = Some st -> job !! "message" = Some msg ->
  exists body,
    get_genome_status id w = HttpOk body /\
    body !! "status" = Some st /\
    body !! "message" = Some msg /\
    body !! "pdf_url" = Some (get_or_none job "pdf_url") /\
    body !! "email_sent" = Some (default (VBool false) (job !! "email_sent")) /\
    dom body = list_to_set [ "job_id"; "status"; "message"; "brand_input"; "pdf_url";
                             "email_sent"; "created_at"; "completed_at" ].
Proof.
  intros Hj Hst Hmsg. unfold get_genome_status. rewrite Hj, Hst, Hmsg.
  eexists. split; [reflexivity|]. repeat split; lookup_job.
Qed.

Lemma stages_started_In (log : list event) (k : nat) :
  In (EvStage k) log -> In k (stages_started log).
Proof.
  induction log as [|ev log IH]; [contradiction|].
  intros [->|Hin]; [left; reflexivity|].
  unfold stages_started in *. cbn [omap list_omap].
  destruct ev; auto. right. auto.
Qed.

(** C5. When a stage raises, the run stops there: the stages started are
    exactly those up to the failing one. The run itself returns, the status
    of the job is [FAILED] and its message records the reason of the
    failure. The failure notification is attempted once, after the reason
    was recorded; when sending it fails, the failure is swallowed and the
    recorded reason stays. *)
Theorem C5_stage_failure_stops_run_and_is_recorded
    (E : env) (now : nat) (id b it em : string) (j : gmap string value)
    (k : nat) (e : string) :
  stage_raises E id b it k e ->
  let final := analyze_brand_genome E now id b it em {| rs_job := Some j; rs_log := [] |} in
  snd final = Ok tt /\
  stages_started (rs_log (fst final)) = seq 1 k /\
  (forall k', k < k' -> ~ In (EvStage k') (rs_log (fst final))) /\
  (exists j', rs_job (fst final) = Some j' /\
     j' !! "status" = Some (VStatus FAILED) /\
     j' !! "message" = Some (VStr ("Error generating genome: " ++ e))) /\
  mails_sent (rs_log (fst final)) = [(ErrorMail em b e, send_error_email E em b e)] /\
  (forall e', smtp_send E (ErrorMail em b e) = Raise e' ->
     send_error_email E em b e = false).
Proof.
  intros H final.
  destruct (run_stage_raises E now id b it em j k e H) as (Hk & Hrun & Hst & Hm).
  fold final in Hrun, Hst, Hm.
  split; [now rewrite Hrun|]. split; [exact Hst|]. split; [|split; [|split]].
  - intros k' Hlt Hin. apply stages_started_In in Hin. rewrite Hst in Hin.
    apply in_seq in Hin. lia.
  - eexists. rewrite Hrun. cbn [fst rs_job]. split; [reflexivity|]. split; lookup_job.
  - exact Hm.
  - intros e'. apply send_email_raise.
Qed.

Lemma C5_stage_failure_stops_run_and_is_recorded_witness :
  let E := services (Ok "ok") (Ok "img") 3 (Raise "connection refused") in
  stage_raises E "job-1" "acme" "brand_name" 3 "service unavailable" /\
  stages_started
    (rs_log (fst (analyze_brand_genome E 5 "job-1" "acme" "brand_name" "user@x.com"
                    {| rs_job := Some (new_job "job-1" "acme" "brand_name" "user@x.com" 4);
                       rs_log := [] |}))) = [1; 2; 3].
Proof.
  intros E.
  assert (H : stage_raises E "job-1" "acme" "brand_name" 3 "service unavailable").
  { split; [reflexivity|]. exists "brand-dna". split; reflexivity. }
  split; [exact H|].
  exact (proj1 (proj2 (C5_stage_failure_stops_run_and_is_recorded
                         E 5 "job-1" "acme" "brand_name" "user@x.com" _ 3 _ H))).
Defined.

(** C4. When the stages up to the report all return, the run ends with the
    status [COMPLETED], the location of the report recorded in [pdf_path]
    and [pdf_url], and the outcome of the delivery recorded in the separate
    flag [email_sent]: the flag is true exactly when the mail went out. The
    only statuses the run writes are [PROCESSING] and [COMPLETED], so a
    failed delivery does not make the job [FAILED], and the status query
    reports the status and the flag side by side. *)
Theorem C4_completed_with_delivery_flag
    (E : env) (now : nat) (id b it em : string) (j : gmap string value) (pdf : string) :
  stages_succeed E id b it pdf ->
  let final := analyze_brand_genome E now id b it em {| rs_job := Some j; rs_log := [] |} in
  let delivered := send_genome_report_email E em b pdf in
  snd final = Ok tt /\
  (exists j', rs_job (fst final) = Some j' /\
     job_status j' = Some COMPLETED /\
     j' !! "pdf_path" = Some (VStr pdf) /\
     j' !! "pdf_url" = Some (VStr ("/api/download/report/" ++ id)) /\
     j' !! "email_sent" = Some (VBool delivered) /\
     (forall w, jobs_lookup id (genome_jobs w) = Some j' ->
        exists body, get_genome_status id w = HttpOk body /\
          body !! "status" = Some (VStatus COMPLETED) /\
          body !! "pdf_url" = Some (VStr ("/api/download/report/" ++ id)) /\
          body !! "email_sent" = Some (VBool delivered))) /\
  (delivered = true <-> smtp_send E (GenomeReportMail em b pdf) = Ok tt) /\
  (forall e, smtp_send E (GenomeReportMail em b pdf) = Raise e -> delivered = false) /\
  mails_sent (rs_log (fst final)) = [(GenomeReportMail em b pdf, delivered)] /\
  (forall v, In (EvSet "status" v) (rs_log (fst final)) ->
     v = VStatus PROCESSING \/ v = VStatus COMPLETED).
Proof.
  intros H final delivered.
  destruct (run_stages_succeed E now id b it em j pdf H)
    as (Hr & (j' & Hj' & Hs & Hmsg & Hp & Hu & Hf & Hc) & _ & Hm & Hw).
  fold final in Hr, Hj', Hm, Hw. fold delivered in Hf, Hm.
  split; [exact Hr|]. split; [|split; [|split; [|split]]].
  - exists j'. split; [exact Hj'|]. split; [unfold job_status; now rewrite Hs|].
    do 3 (split; [assumption|]).
    intros w Hw'.
    destruct (get_genome_status_found id w j' _ _ Hw' Hs Hmsg)
      as (body & Hb & Hbs & _ & Hbu & Hbe & _).
    exists body. split; [exact Hb|]. split; [exact Hbs|].
    unfold get_or_none in Hbu. rewrite Hu in Hbu. rewrite Hf in Hbe. auto.
  - apply send_email_true.
  - intros e. apply send_email_raise.
  - exact Hm.
  - exact Hw.
Qed.

Lemma C4_completed_with_delivery_flag_witness :
  let E := services (Ok "ok") (Ok "img") 0 (Raise "connection refused") in
  stages_succeed E "job-1" "acme" "brand_name" "outputs/genome_job-1.pdf" /\
  snd (analyze_brand_genome E 5 "job-1" "acme" "brand_name" "user@x.com"
         {| rs_job := Some (new_job "job-1" "acme" "brand_name" "user@x.com" 4);
            rs_log := [] |}) = Ok tt.
Proof.
  intros E.
  assert (H : stages_succeed E "job-1" "acme" "brand_name" "outputs/genome_job-1.pdf").
  { split; [reflexivity|].
    exists "brand-dna", "competitor-intel", "growth-roadmap", "content-strategy".
    repeat split; reflexivity. }
  split; [exact H|].
  exact (proj1 (C4_completed_with_delivery_flag
                  E 5 "job-1" "acme" "brand_name" "user@x.com" _ _ H)).
Defined.

Example failed_delivery_still_completed :
  let E := services (Ok "ok") (Ok "img") 0 (Raise "connection refused") in
  let w := exec [ OpAnalyze "job-1" "acme" "brand_name" "user@x.com"; OpRunTask E 0 ]
             initial_world in
  status_of "job-1" w = Some COMPLETED /\
  (jobs_lookup "job-1" (genome_jobs w) ≫= (.!! "email_sent")) = Some (VBool false).
Proof. vm_compute. auto. Qed.

Lemma holds_artifactb_spec (d : gmap string value) (a : artifact) :
  holds_artifact d a <-> holds_artifactb d a = true.
Proof.
  unfold holds_artifact, holds_artifactb. rewrite existsb_exists. split.
  - intros [key H]. exists (key, VStr a). split.
    + apply list_elem_of_In, elem_of_map_to_list. exact H.
    + cbn. apply String.eqb_refl.
  - intros [[key v] [Hin Hv]]. cbn in Hv.
    destruct v; try discriminate. apply String.eqb_eq in Hv as ->.
    exists key. apply elem_of_map_to_list, list_elem_of_In. exact Hin.
Qed.

(** C2, as amended. When stage [k] raises (which only stages 2 to 6 can),
    the status of the job is [FAILED] and the record of the job is the
    record it had before the run with the status and the message replaced:
    the run stores no result of any stage, neither of the stages before [k]
    nor of [k] and the later ones. The status query returns its eight fixed
    fields, with the failed status and the reason, and the [pdf_url] the
    record had before the run. *)
Theorem C2_failed_run_changes_status_and_message_only
    (E : env) (now : nat) (id b it em : string) (j : gmap string value)
    (k : nat) (e : string) :
  stage_raises E id b it k e ->
  let final := analyze_brand_genome E now id b it em {| rs_job := Some j; rs_log := [] |} in
  let reason := VStr ("Error generating genome: " ++ e) in
  2 <= k <= 6 /\
  rs_job (fst final) = Some (<["message" := reason]> (<["status" := VStatus FAILED]> j)) /\
  (forall j', rs_job (fst final) = Some j' ->
     job_status j' = Some FAILED /\
     (forall key, key <> "status" -> key <> "message" -> j' !! key = j !! key) /\
     (forall a, holds_artifact j' a -> VStr a = reason \/ holds_artifact j a) /\
     (forall w, jobs_lookup id (genome_jobs w) = Some j' ->
        exists body, get_genome_status id w = HttpOk body /\
          body !! "status" = Some (VStatus FAILED) /\
          body !! "message" = Some reason /\
          body !! "pdf_url" = Some (get_or_none j "pdf_url") /\
          dom body = list_to_set [ "job_id"; "status"; "message"; "brand_input";
                                   "pdf_url"; "email_sent"; "created_at";
                                   "completed_at" ])).
Proof.
  intros H final reason.
  destruct (run_stage_raises E now id b it em j k e H) as (Hk & Hrun & _ & _).
  fold final in Hrun. split; [exact Hk|].
  assert (Hj : rs_job (fst final)
               = Some (<["message" := reason]> (<["status" := VStatus FAILED]> j)))
    by now rewrite Hrun.
  split; [exact Hj|].
  intros j' Hj'. rewrite Hj in Hj'. injection Hj' as <-.
  split; [unfold job_status; lookup_job|]. split; [|split].
  - intros key H1 H2. now rewrite !lookup_insert_ne by congruence.
  - intros a [key Ha]. rewrite !lookup_insert in Ha.
    repeat case_decide; [left; congruence | discriminate | right; now exists key].
  - intros w Hw.
    destruct (get_genome_status_found id w _ (VStatus FAILED) reason Hw)
      as (body & Hb & Hbs & Hbm & Hbu & _ & Hd); try lookup_job.
    exists body. split; [exact Hb|]. split; [exact Hbs|]. split; [exact Hbm|].
    split; [|exact Hd].
    rewrite Hbu. unfold get_or_none. now rewrite !lookup_insert_ne by discriminate.
Qed.

Lemma C2_failed_run_changes_status_and_message_only_witness :
  let E := services (Ok "ok") (Ok "img") 3 (Ok tt) in
  stage_raises E "job-1" "acme" "brand_name" 3 "service unavailable" /\
  2 <= 3 <= 6.
Proof.
  intros E.
  assert (H : stage_raises E "job-1" "acme" "brand_name" 3 "service unavailable").
  { split; [reflexivity|]. exists "brand-dna". split; reflexivity. }
  split; [exact H|].
  exact (proj1 (C2_failed_run_changes_status_and_message_only
                  E 5 "job-1" "acme" "brand_name" "user@x.com" ∅ 3 _ H)).
Defined.

(** C2 as stated fails: competitor analysis (stage 3) raises after stage 2
    produced the brand DNA; the job is [FAILED], and neither the record of
    the job nor the answer of the status query holds that brand DNA: the
    record has no other keys than the nine it was created with. *)
Lemma C2_counterexample :
  stage_raises no_competitors "job-1" "acme" "brand_name" 3 "service unavailable" /\
  analyze_brand_dna no_competitors (collect_brand_data no_competitors "acme" "brand_name")
  = Ok "brand-dna" /\
  status_of "job-1" failing_world = Some FAILED /\
  (exists job, jobs_lookup "job-1" (genome_jobs failing_world) = Some job /\
     ~ holds_artifact job "brand-dna") /\
  (exists body, get_genome_status "job-1" failing_world = HttpOk body /\
     ~ holds_artifact body "brand-dna") /\
  match jobs_lookup "job-1" (genome_jobs failing_world) with
  | Some job =>
    keys_within job [ "job_id"; "status"; "message"; "brand_input"; "input_type";
                      "email"; "created_at"; "pdf_url"; "email_sent" ]
  | None => false
  end = true.
Proof.
  split.
  { split; [reflexivity|]. exists "brand-dna". split; reflexivity. }
  split; [reflexivity|]. split; [vm_compute; reflexivity|].
  split; [|split; [|vm_compute; reflexivity]].
  - destruct (jobs_lookup "job-1" (genome_jobs failing_world)) as [job|] eqn:Hj.
    + exists job. split; [reflexivity|]. rewrite holds_artifactb_spec.
      assert (H : match jobs_lookup "job-1" (genome_jobs failing_world) with
                  | Some job => holds_artifactb job "brand-dna"
                  | None => true
                  end = false) by (vm_compute; reflexivity).
      rewrite Hj in H. congruence.
    + exfalso.
      assert (H : match jobs_lookup "job-1" (genome_jobs failing_world) with
                  | Some _ => true
                  | None => false
                  end = true) by (vm_compute; reflexivity).
      rewrite Hj in H. discriminate.
  - destruct (get_genome_status "job-1" failing_world) as [body|code detail] eqn:Hb.
    + exists body. split; [reflexivity|]. rewrite holds_artifactb_spec.
      assert (H : match get_genome_status "job-1" failing_world with
                  | HttpOk body => holds_artifactb body "brand-dna"
                  | HttpError _ _ => true
                  end = false) by (vm_compute; reflexivity).
      rewrite Hb in H. congruence.
    + exfalso.
      assert (H : match get_genome_status "job-1" failing_world with
                  | HttpOk _ => true
                  | HttpError _ _ => false
                  end = true) by (vm_compute; reflexivity).
      rewrite Hb in H. discriminate.
Qed.

(** ** The status of a job along an execution *)

Lemma jobs_lookup_set (id id' : string) (job : gmap string value)
    (jobs : list (string * gmap string value)) :
  jobs_lookup id (jobs_set id' job jobs)
  = if String.eqb id' id then Some job else jobs_lookup id jobs.
Proof.
  induction jobs as [|[k j] rest IH]; cbn [jobs_set jobs_lookup].
  - reflexivity.
  - destruct (String.eqb_spec k id') as [->|Hne]; cbn [jobs_lookup].
    + destruct (String.eqb id' id); reflexivity.
    + rewrite IH. destruct (String.eqb_spec k id) as [->|Hne'].
      * destruct (String.eqb_spec id' id); [congruence | reflexivity].
      * reflexivity.
Qed.

Lemma job_status_insert (key : string) (v : value) (j : gmap string value) :
  job_status (<[key := v]> j)
  = if String.eqb key "status"
    then match v with VStatus s => Some s | _ => None end
    else job_status j.
Proof.
  unfold job_status. destruct (String.eqb_spec key "status") as [->|Hne].
  - now rewrite lookup_insert_eq.
  - now rewrite lookup_insert_ne.
Qed.

Lemma status_move_refl (a : option JobStatus) : status_move a a = true.
Proof. destruct a as [[]|]; reflexivity. Qed.

Lemma chain_app {A : Type} (R : A -> A -> bool) (l1 l2 : list A) (a : A) :
  chain R (l1 ++ [a])%list = true -> chain R (a :: l2) = true ->
  chain R (l1 ++ a :: l2)%list = true.
Proof.
  intros H1 H2. induction l1 as [|x l1 IH]; [exact H2|].
  destruct l1 as [|y l1].
  - cbn in *. rewrite andb_true_r in H1. now rewrite H1.
  - cbn [app chain] in *. apply andb_prop in H1 as [Hxy H1].
    rewrite Hxy. cbn. apply IH. exact H1.
Qed.

Lemma chain_constant {A B : Type} (R : A -> A -> bool) (a : A) (l : list B) :
  R a a = true -> chain R (a :: map (fun _ => a) l) = true.
Proof.
  intros Ha. induction l as [|x l IH]; [reflexivity|].
  cbn [map chain] in *. now rewrite Ha.
Qed.

Lemma snapshots_statuses (j : gmap string value) (log : list event) :
  map job_status (snapshots j log) = log_statuses (job_status j) log.
Proof.
  revert j. induction log as [|ev log IH]; intros j; [reflexivity|].
  destruct ev; cbn [snapshots log_statuses map]; auto.
  rewrite IH, job_status_insert. reflexivity.
Qed.

Lemma last_snapshot_status (j : gmap string value) (log : list event) :
  job_status (List.last (snapshots j log) j)
  = List.last (log_statuses (job_status j) log) (job_status j).
Proof.
  rewrite <- snapshots_statuses.
  generalize (snapshots j log). intros l. revert j.
  induction l as [|x l IH]; intros j; [reflexivity|].
  destruct l as [|y l]; [reflexivity|].
  change (List.last (x :: y :: l) j) with (List.last (y :: l) j).
  change (List.last (map job_status (x :: y :: l)) (job_status j))
    with (List.last (map job_status (y :: l)) (job_status j)).
  apply IH.
Qed.

Lemma chain_repeat_last {A : Type} (R : A -> A -> bool) (l : list A) (d : A) :
  (forall x, R x x = true) -> chain R l = true ->
  chain R (l ++ [List.last l d])%list = true.
Proof.
  intros Hrefl. induction l as [|x l IH]; [reflexivity|].
  destruct l as [|y l].
  - intros _. cbn. now rewrite Hrefl.
  - intros H. cbn [chain] in H. apply andb_prop in H as [Hxy H].
    change (List.last (x :: y :: l) d) with (List.last (y :: l) d).
    cbn [app chain]. rewrite Hxy. cbn. apply IH. exact H.
Qed.

(** The statuses a run writes on a [PENDING] job: [PROCESSING] at least
    once, then [COMPLETED] or [FAILED] until the end. The record the run
    ends with is the last of the snapshots. *)
Lemma run_status_chain (E : env) (now : nat) (id b it em : string)
    (j : gmap string value) :
  let final := fst (analyze_brand_genome E now id b it em
                      {| rs_job := Some j; rs_log := [] |}) in
  rs_job final = Some (List.last (snapshots j (rs_log final)) j) /\
  chain status_move (Some PENDING :: log_statuses (Some PENDING) (rs_log final)) = true /\
  (exists s, List.last (log_statuses (Some PENDING) (rs_log final)) (Some PENDING) = Some s
             /\ is_terminal s = true) /\
  In (Some PROCESSING) (log_statuses (Some PENDING) (rs_log final)).
Proof.
  cbv zeta. run_cases E;
    (split; [reflexivity|]; split; [reflexivity|];
     split; [eexists; split; reflexivity | cbn; auto]).
Qed.

Lemma status_of_set (id id' : string) (job : gmap string value) (w w' : world) :
  genome_jobs w' = jobs_set id' job (genome_jobs w) ->
  status_of id w' = if String.eqb id' id then job_status job else status_of id w.
Proof.
  intros H. unfold status_of. rewrite H, jobs_lookup_set.
  destruct (String.eqb id' id); reflexivity.
Qed.

Lemma status_of_same_jobs (id : string) (w w' : world) :
  genome_jobs w' = genome_jobs w -> status_of id w' = status_of id w.
Proof. intros H. unfold status_of. now rewrite H. Qed.

Lemma tasks_pending_same (w w' : world) :
  genome_jobs w' = genome_jobs w -> background_tasks w' = background_tasks w ->
  tasks_pending w -> tasks_pending w'.
Proof.
  intros Hj Ht [Hall Hnd]. unfold tasks_pending. rewrite Ht. split; [|exact Hnd].
  eapply Forall_impl; [exact Hall|]. intros t H. cbn in *.
  now rewrite (status_of_same_jobs _ w w' Hj).
Qed.

Lemma new_job_pending (job_id b it em : string) (now : nat) :
  job_status (new_job job_id b it em now) = Some PENDING.
Proof. unfold job_status, new_job. lookup_job. Qed.

Lemma new_chat_job_pending (job_id h em sid : string) (now : nat) :
  job_status (new_chat_job job_id h em sid now) = Some PENDING.
Proof. unfold job_status, new_chat_job. lookup_job. Qed.

(** Adding a job under a new identifier, with its task. *)
Lemma add_job_step (id job_id : string) (job : gmap string value) (t : task)
    (w w' : world) :
  jobs_lookup job_id (genome_jobs w) = None ->
  job_status job = Some PENDING ->
  task_job_id t = job_id ->
  genome_jobs w' = jobs_set job_id job (genome_jobs w) ->
  background_tasks w' = (background_tasks w ++ [t])%list ->
  tasks_pending w ->
  tasks_pending w' /\ status_move (status_of id w) (status_of id w') = true.
Proof.
  intros Hfresh Hjob Ht Hjobs Htasks [Hall Hnd].
  assert (Hold : forall t0, In t0 (background_tasks w) -> task_job_id t0 <> job_id).
  { intros t0 Hin Heq. rewrite Forall_forall in Hall.
    specialize (Hall t0 (proj2 (list_elem_of_In _ _) Hin)). cbn in Hall.
    unfold status_of in Hall. rewrite Heq, Hfresh in Hall. discriminate. }
  split; [split|].
  - rewrite Htasks. apply Forall_app. split.
    + rewrite Forall_forall in Hall |- *. intros t0 Hin.
      rewrite (status_of_set _ job_id job w w' Hjobs).
      destruct (String.eqb_spec job_id (task_job_id t0)) as [Heq|_].
      * exfalso. apply (Hold t0); [now apply list_elem_of_In | congruence].
      * now apply Hall.
    + constructor; [|constructor].
      rewrite (status_of_set _ job_id job w w' Hjobs), Ht, String.eqb_refl. exact Hjob.
  - rewrite Htasks, map_app. cbn [map]. apply NoDup_app. split; [exact Hnd|]. split.
    + intros x Hx Hx'. apply list_elem_of_In in Hx. apply in_map_iff in Hx as (t0 & <- & Hin).
      apply list_elem_of_In in Hx'. destruct Hx' as [Hx'|[]].
      apply (Hold t0 Hin). congruence.
    + apply NoDup_singleton.
  - rewrite (status_of_set _ job_id job w w' Hjobs).
    destruct (String.eqb_spec job_id id) as [<-|_]; [|apply status_move_refl].
    unfold status_of. rewrite Hfresh, Hjob. reflexivity.
Qed.

Lemma take_task_Some (i : nat) (w w' : world) (t : task) :
  take_task i w = Some (t, w') ->
  background_tasks w = (take i (background_tasks w) ++ t :: drop (S i) (background_tasks w))%list /\
  genome_jobs w' = genome_jobs w /\
  chat_sessions w' = chat_sessions w /\
  background_tasks w' = (take i (background_tasks w) ++ drop (S i) (background_tasks w))%list.
Proof.
  unfold take_task. destruct (background_tasks w !! i) as [t0|] eqn:Hi; [|discriminate].
  intros H. injection H as <- <-. cbn. repeat split.
  symmetry. now apply take_drop_middle.
Qed.

(** After the scheduler took a task out, the remaining tasks are still those
    of [PENDING] jobs, and none of them is for the job of the task taken. *)
Lemma take_task_pending (i : nat) (w w' : world) (t : task) :
  take_task i w = Some (t, w') -> tasks_pending w ->
  tasks_pending w' /\
  status_of (task_job_id t) w' = Some PENDING /\
  Forall (fun t0 => task_job_id t0 <> task_job_id t) (background_tasks w').
Proof.
  intros Htake [Hall Hnd].
  destruct (take_task_Some _ _ _ _ Htake) as (Hsplit & Hjobs & _ & Htasks).
  rewrite Hsplit in Hall, Hnd.
  apply Forall_app in Hall as [Hall1 Hall2].
  apply Forall_cons in Hall2 as [Ht Hall2].
  rewrite map_app in Hnd. cbn [map] in Hnd.
  apply NoDup_app in Hnd as (Hnd1 & Hdisj & Hnd2).
  apply NoDup_cons in Hnd2 as [Hnotin Hnd2].
  split; [split|split].
  - rewrite Htasks. apply Forall_app. split.
    + eapply Forall_impl; [exact Hall1|]. intros t0 H. cbn in *.
      now rewrite (status_of_same_jobs _ w w' Hjobs).
    + eapply Forall_impl; [exact Hall2|]. intros t0 H. cbn in *.
      now rewrite (status_of_same_jobs _ w w' Hjobs).
  - rewrite Htasks, map_app. apply NoDup_app. split; [exact Hnd1|]. split; [|exact Hnd2].
    intros x Hx Hx'. apply (Hdisj x Hx). now right.
  - rewrite (status_of_same_jobs _ w w' Hjobs). exact Ht.
  - rewrite Htasks. apply Forall_app. split.
    + apply Forall_forall. intros t0 Hin Heq.
      apply (Hdisj (task_job_id t0)).
      * apply list_elem_of_In, in_map, list_elem_of_In, Hin.
      * rewrite Heq. now left.
    + apply Forall_forall. intros t0 Hin Heq. apply Hnotin.
      rewrite <- Heq. apply list_elem_of_In, in_map, list_elem_of_In, Hin.
Qed.

Lemma status_of_put_job (id tid : string) (js : gmap string value) (w : world) :
  status_of id (put_job tid (Some js) w)
  = if String.eqb tid id then job_status js else status_of id w.
Proof. apply status_of_set. reflexivity. Qed.

Lemma op_worlds_last (o : op) (w : world) :
  exists init, op_worlds o w = (init ++ [exec_op o w])%list.
Proof.
  destruct o; try (exists []; reflexivity).
  cbn [op_worlds exec_op]. unfold run_task.
  destruct (take_task i w) as [[t w']|]; [|exists []; reflexivity].
  destruct (jobs_lookup (task_job_id t) (genome_jobs w'));
    [eexists; reflexivity | exists []; reflexivity].
Qed.

(** One operation, seen from one job: the scheduled tasks stay those of the
    [PENDING] jobs and the status of the job makes allowed moves only. *)
Lemma op_step (o : op) (w : world) (id : string) :
  tasks_pending w -> op_id_fresh o w = true ->
  tasks_pending (exec_op o w) /\
  chain status_move (status_of id w :: map (status_of id) (op_worlds o w)) = true.
Proof.
  intros Hinv Hfresh. destruct o as [job_id b it em | E i | E sid h | E sid m
                                     | sid em job_id | E sid].
  - (* analyze_brand *)
    cbn [op_worlds exec_op map chain]. rewrite andb_true_r.
    cbn in Hfresh. apply bool_decide_eq_true in Hfresh.
    unfold analyze_brand. destruct (Nat.ltb (String.length b) 3).
    + cbn [fst]. split; [exact Hinv | apply status_move_refl].
    + cbn [fst]. eapply add_job_step; eauto using new_job_pending; reflexivity.
  - (* a pipeline run *)
    cbn [op_worlds exec_op]. unfold run_task.
    destruct (take_task i w) as [[t w']|] eqn:Htake.
    2:{ cbn. rewrite andb_true_r. split; [exact Hinv | apply status_move_refl]. }
    destruct (take_task_pending _ _ _ _ Htake Hinv) as (Hinv' & Hpend & Hother).
    destruct (take_task_Some _ _ _ _ Htake) as (_ & Hjobs & _ & _).
    unfold status_of in Hpend.
    destruct (jobs_lookup (task_job_id t) (genome_jobs w')) as [j|] eqn:Hj;
      [|discriminate].
    cbn in Hpend. unfold run_task_state. rewrite Hj.
    destruct (run_status_chain E (clock w') (task_job_id t) (task_brand_input t)
                (task_input_type t) (task_email t) j) as (Hfinal & Hchain & _ & _).
    set (final := fst (analyze_brand_genome _ _ _ _ _ _ _)) in *.
    rewrite Hfinal. split.
    + (* the other tasks *)
      destruct Hinv' as [Hall Hnd]. split; [|exact Hnd]. cbn [tick put_job background_tasks].
      rewrite Forall_forall in Hall, Hother |- *. intros t0 Hin.
      unfold status_of. cbn [genome_jobs tick put_job]. rewrite jobs_lookup_set.
      destruct (String.eqb_spec (task_job_id t) (task_job_id t0)) as [Heq|_].
      * exfalso. apply (Hother t0 Hin). congruence.
      * apply (Hall t0 Hin).
    + rewrite map_app, map_map. cbn [map].
      rewrite <- (status_of_same_jobs id w w' Hjobs).
      destruct (String.eqb_spec (task_job_id t) id) as [<-|Hne].
      * (* the job of the task *)
        unfold status_of at 1. rewrite Hj. cbn [mbind option_bind]. rewrite Hpend.
        erewrite map_ext; [|intros js; rewrite status_of_put_job, String.eqb_refl;
                             reflexivity].
        unfold status_of. cbn [genome_jobs tick put_job].
        rewrite jobs_lookup_set, String.eqb_refl. cbn [mbind option_bind].
        rewrite last_snapshot_status, snapshots_statuses, Hpend.
        change (Some PENDING :: log_statuses (Some PENDING) (rs_log final)
                ++ [List.last (log_statuses (Some PENDING) (rs_log final)) (Some PENDING)])%list
          with ((Some PENDING :: log_statuses (Some PENDING) (rs_log final))
                ++ [List.last (log_statuses (Some PENDING) (rs_log final)) (Some PENDING)])%list.
        destruct (log_statuses (Some PENDING) (rs_log final)) as [|x l] eqn:Hl.
        { reflexivity. }
        change (List.last (x :: l) (Some PENDING))
          with (List.last (Some PENDING :: x :: l) (Some PENDING)).
        apply chain_repeat_last; [apply status_move_refl | exact Hchain].
      * (* another job *)
        erewrite map_ext.
        2:{ intros js. rewrite status_of_put_job.
            destruct (String.eqb_spec (task_job_id t) id); [contradiction|]. reflexivity. }
        assert (Hlast : status_of id (tick (put_job (task_job_id t)
                           (Some (List.last (snapshots j (rs_log final)) j)) w'))
                        = status_of id w').
        { unfold status_of. cbn [genome_jobs tick put_job]. rewrite jobs_lookup_set.
          destruct (String.eqb_spec (task_job_id t) id); [contradiction|]. reflexivity. }
        rewrite Hlast.
        change (status_of id w' :: map (fun _ => status_of id w') (snapshots j (rs_log final))
                ++ [status_of id w'])%list
          with ((status_of id w' :: map (fun _ => status_of id w') (snapshots j (rs_log final)))
                ++ [status_of id w'])%list.
        apply chain_app.
        -- pose proof (chain_constant status_move (status_of id w')
                         (snapshots j (rs_log final) ++ [j])%list
                         (status_move_refl _)) as Hc.
           rewrite map_app in Hc. exact Hc.
        -- reflexivity.
  - (* initialize_chat *)
    cbn [op_worlds exec_op map chain]. rewrite andb_true_r.
    assert (Hj : genome_jobs (fst (initialize_chat E sid h w)) = genome_jobs w /\
                 background_tasks (fst (initialize_chat E sid h w)) = background_tasks w).
    { unfold initialize_chat. destruct (find_brand_job h (genome_jobs w)); [|auto].
      destruct (openai_new E); auto. }
    destruct Hj as [Hj Ht]. split; [eauto using tasks_pending_same|].
    rewrite (status_of_same_jobs id _ _ Hj). apply status_move_refl.
  - (* send_chat_message *)
    cbn [op_worlds exec_op map chain]. rewrite andb_true_r.
    assert (Hj : genome_jobs (fst (send_chat_message E sid m w)) = genome_jobs w /\
                 background_tasks (fst (send_chat_message E sid m w)) = background_tasks w).
    { unfold send_chat_message. destruct (chat_sessions w !! sid); [|auto].
      destruct (chat E _ _ m); auto. }
    destruct Hj as [Hj Ht]. split; [eauto using tasks_pending_same|].
    rewrite (status_of_same_jobs id _ _ Hj). apply status_move_refl.
  - (* generate_chat_report *)
    cbn [op_worlds exec_op map chain]. rewrite andb_true_r.
    cbn in Hfresh. apply bool_decide_eq_true in Hfresh.
    unfold generate_chat_report. destruct (chat_sessions w !! sid) as [session|].
    + cbn [fst]. eapply add_job_step; eauto using new_chat_job_pending; reflexivity.
    + cbn [fst]. split; [exact Hinv | apply status_move_refl].
  - (* end_chat_session *)
    cbn [op_worlds exec_op map chain]. rewrite andb_true_r.
    assert (Hj : genome_jobs (fst (end_chat_session E sid w)) = genome_jobs w /\
                 background_tasks (fst (end_chat_session E sid w)) = background_tasks w).
    { unfold end_chat_session. destruct (chat_sessions w !! sid); auto. }
    destruct Hj as [Hj Ht]. split; [eauto using tasks_pending_same|].
    rewrite (status_of_same_jobs id _ _ Hj). apply status_move_refl.
Qed.

Lemma execution_chain (ops : list op) (w : world) (id : string) :
  tasks_pending w -> ids_fresh ops w = true ->
  chain status_move (status_of id w :: map (status_of id) (execution ops w)) = true.
Proof.
  revert w. induction ops as [|o rest IH]; intros w Hinv Hfresh; [reflexivity|].
  cbn [ids_fresh] in Hfresh. apply andb_prop in Hfresh as [Ho Hrest].
  destruct (op_step o w id Hinv Ho) as [Hinv' Hchain].
  destruct (op_worlds_last o w) as [init Hinit].
  cbn [execution]. rewrite Hinit in Hchain |- *.
  rewrite map_app in Hchain. cbn [map] in Hchain.
  rewrite map_app, map_app. cbn [map]. rewrite <- app_assoc. cbn [app].
  change (status_of id w :: map (status_of id) init
          ++ status_of id (exec_op o w) :: map (status_of id) (execution rest (exec_op o w)))%list
    with ((status_of id w :: map (status_of id) init)
          ++ status_of id (exec_op o w) :: map (status_of id) (execution rest (exec_op o w)))%list.
  apply chain_app; [exact Hchain | apply IH; assumption].
Qed.

Lemma chain_lookup {A : Type} (R : A -> A -> bool) (l : list A) (i : nat) (a b : A) :
  chain R l = true -> l !! i = Some a -> l !! S i = Some b -> R a b = true.
Proof.
  revert i. induction l as [|x l IH]; intros i Hc Ha Hb; [discriminate|].
  destruct l as [|y l]; [discriminate|].
  cbn [chain] in Hc. apply andb_prop in Hc as [Hxy Hc].
  destruct i as [|i].
  - cbn in Ha, Hb. congruence.
  - apply (IH i Hc Ha Hb).
Qed.

(** Along a path of allowed moves a terminal status stays. *)
Lemma terminal_stays (path : list (option JobStatus)) (i i' : nat) (s : JobStatus) :
  chain status_move path = true ->
  path !! i = Some (Some s) -> is_terminal s = true ->
  i <= i' -> i' < length path -> path !! i' = Some (Some s).
Proof.
  intros Hc Hi Hs Hle. induction Hle as [|i' Hle IH]; intros Hlt; [exact Hi|].
  specialize (IH ltac:(lia)).
  destruct (lookup_lt_is_Some_2 path (S i') Hlt) as [b Hb].
  pose proof (chain_lookup _ _ _ _ _ Hc IH Hb) as Hm.
  rewrite Hb. destruct s, b as [[]|]; cbn in Hs, Hm; congruence.
Qed.

(** Along a path of allowed moves that starts before the job exists, a
    status is reached through the earlier states of the life cycle. *)
Lemma status_reached (path : list (option JobStatus)) (i : nat) (s : JobStatus) :
  chain status_move path = true -> path !! 0 = Some None ->
  path !! i = Some (Some s) ->
  match s with
  | PENDING => True
  | PROCESSING => exists i0, i0 < i /\ path !! i0 = Some (Some PENDING)
  | COMPLETED | FAILED =>
    exists i0 i1, i0 < i1 /\ i1 < i /\ path !! i0 = Some (Some PENDING) /\
                  path !! i1 = Some (Some PROCESSING)
  end.
Proof.
  intros Hc H0. revert s. induction i as [|i IH]; intros s Hi; [congruence|].
  assert (Hlt : i < length path) by (apply lookup_lt_Some in Hi; lia).
  destruct (lookup_lt_is_Some_2 path i Hlt) as [a Ha].
  pose proof (chain_lookup _ _ _ _ _ Hc Ha Hi) as Hm.
  destruct a as [sa|].
  - specialize (IH sa Ha).
    destruct sa, s; cbn in Hm; try discriminate; try exact I.
    + exists i. split; [lia | exact Ha].
    + destruct IH as (i0 & Hlt0 & Hi0). exists i0. split; [lia | exact Hi0].
    + destruct IH as (i0 & Hlt0 & Hi0). exists i0, i. repeat split; [lia | lia | | ]; assumption.
    + destruct IH as (i0 & Hlt0 & Hi0). exists i0, i. repeat split; [lia | lia | | ]; assumption.
    + destruct IH as (i0 & i1 & ? & ? & ? & ?). exists i0, i1. repeat split; [lia | lia | | ]; assumption.
    + destruct IH as (i0 & i1 & ? & ? & ? & ?). exists i0, i1. repeat split; [lia | lia | | ]; assumption.
  - destruct s; cbn in Hm; try discriminate. exact I.
Qed.

Lemma tasks_pending_initial : tasks_pending initial_world.
Proof. split; [constructor | constructor]. Qed.

(** C1. Along every execution of the process in which the identifiers of new
    jobs are new, the status of each job, observed from before the job
    exists and after every write, makes only these moves: it appears as
    [PENDING], goes from [PENDING] to [PROCESSING], and from [PROCESSING] to
    [COMPLETED] or [FAILED]. So a terminal status is only reached through
    [PENDING] and then [PROCESSING], and once reached it never changes. *)
Theorem C1_status_life_cycle (ops : list op) (id : string) :
  ids_fresh ops initial_world = true ->
  let path := map (status_of id) (initial_world :: execution ops initial_world) in
  chain status_move path = true /\
  (forall i s, path !! i = Some (Some s) ->
     match s with
     | PENDING => True
     | PROCESSING => exists i0, i0 < i /\ path !! i0 = Some (Some PENDING)
     | COMPLETED | FAILED =>
       exists i0 i1, i0 < i1 /\ i1 < i /\ path !! i0 = Some (Some PENDING) /\
                     path !! i1 = Some (Some PROCESSING)
     end) /\
  (forall i i' s, path !! i = Some (Some s) -> is_terminal s = true ->
     i <= i' -> i' < length path -> path !! i' = Some (Some s)).
Proof.
  intros Hfresh path.
  assert (Hc : chain status_move path = true)
    by (apply execution_chain; [apply tasks_pending_initial | exact Hfresh]).
  split; [exact Hc|]. split.
  - intros i s. apply status_reached; [exact Hc | reflexivity].
  - intros i i' s. apply terminal_stays. exact Hc.
Qed.

Lemma C1_status_life_cycle_witness :
  let ops := [ OpAnalyze "job-1" "acme" "brand_name" "user@x.com";
               OpRunTask no_competitors 0;
               OpAnalyze "job-2" "acme" "brand_name" "user@x.com";
               OpRunTask good_services 0 ] in
  ids_fresh ops initial_world = true /\
  chain status_move
    (map (status_of "job-2") (initial_world :: execution ops initial_world)) = true.
Proof.
  intros ops.
  assert (H : ids_fresh ops initial_world = true) by (vm_compute; reflexivity).
  split; [exact H|].
  exact (proj1 (C1_status_life_cycle ops "job-2" H)).
Defined.

Example status_path_of_a_failed_job :
  map (status_of "job-1")
    (initial_world ::
     execution [ OpAnalyze "job-1" "acme" "brand_name" "user@x.com";
                 OpRunTask no_competitors 0 ] initial_world)
  = [ None; Some PENDING;
      Some PROCESSING; Some PROCESSING; Some PROCESSING; Some PROCESSING;
      Some PROCESSING; Some FAILED; Some FAILED; Some FAILED ].
Proof. vm_compute. reflexivity. Qed.

(** ** What the registries hold in every reachable state *)

Lemma Forall_jobs_set (P : string * gmap string value -> Prop) (id : string)
    (job : gmap string value) (jobs : list (string * gmap string value)) :
  (forall k, P (k, job)) -> Forall P jobs -> Forall P (jobs_set id job jobs).
Proof.
  intros Hjob Hall. induction Hall as [|[k j] rest Hkj Hrest IH]; cbn [jobs_set].
  - constructor; [apply Hjob | constructor].
  - destruct (String.eqb k id); constructor; auto.
Qed.

Lemma jobs_lookup_In (id : string) (job : gmap string value)
    (jobs : list (string * gmap string value)) :
  jobs_lookup id jobs = Some job -> In (id, job) jobs.
Proof.
  induction jobs as [|[k j] rest IH]; [discriminate|]. cbn [jobs_lookup].
  destruct (String.eqb_spec k id) as [->|Hne].
  - intros H. injection H as ->. now left.
  - intros H. right. auto.
Qed.

Lemma new_job_no_context (job_id b it em : string) (now : nat) :
  no_context_keys (new_job job_id b it em now).
Proof. unfold no_context_keys, new_job. repeat split; lookup_job. Qed.

Lemma new_chat_job_no_context (job_id h em sid : string) (now : nat) :
  no_context_keys (new_chat_job job_id h em sid now).
Proof. unfold no_context_keys, new_chat_job. repeat split; lookup_job. Qed.

(** A run writes the keys [status], [message], [pdf_path], [pdf_url],
    [email_sent] and [completed_at] only. *)
Lemma run_keeps_other_keys (E : env) (now : nat) (id b it em : string)
    (j jfinal : gmap string value) (key : string) :
  key <> "status" -> key <> "message" -> key <> "pdf_path" -> key <> "pdf_url" ->
  key <> "email_sent" -> key <> "completed_at" ->
  rs_job (fst (analyze_brand_genome E now id b it em {| rs_job := Some j; rs_log := [] |}))
  = Some jfinal ->
  jfinal !! key = j !! key.
Proof.
  intros H1 H2 H3 H4 H5 H6.
  run_cases E; intros Hf; injection Hf as <-;
    repeat (rewrite lookup_insert_ne by congruence); reflexivity.
Qed.

Lemma run_without_job (E : env) (now : nat) (id b it em : string) :
  rs_job (fst (analyze_brand_genome E now id b it em {| rs_job := None; rs_log := [] |}))
  = None.
Proof. run_eval. reflexivity. Qed.

Lemma run_no_context (E : env) (now : nat) (id b it em : string)
    (j jfinal : gmap string value) :
  no_context_keys j ->
  rs_job (fst (analyze_brand_genome E now id b it em {| rs_job := Some j; rs_log := [] |}))
  = Some jfinal ->
  no_context_keys jfinal.
Proof.
  intros (Hd & Ha & Hc) Hfinal. unfold no_context_keys.
  rewrite (run_keeps_other_keys E now id b it em j jfinal "brand_dna")
    by (discriminate || exact Hfinal).
  rewrite (run_keeps_other_keys E now id b it em j jfinal "audience")
    by (discriminate || exact Hfinal).
  rewrite (run_keeps_other_keys E now id b it em j jfinal "competitors")
    by (discriminate || exact Hfinal).
  auto.
Qed.

Lemma context_of_job_no_context (job : gmap string value) :
  no_context_keys job -> context_of_job job = empty_context.
Proof.
  intros (Hd & Ha & Hc). unfold context_of_job, empty_context, get_or_empty_dict.
  now rewrite Hd, Ha, Hc.
Qed.

(** The loop of [initialize_chat] stops at the first entry, in insertion
    order, that matches. *)
Lemma find_brand_job_first (h : string) (jobs : list (string * gmap string value))
    (found : option (string * gmap string value)) :
  find_brand_job h jobs = Ok found -> found = find (job_matches h) jobs.
Proof.
  induction jobs as [|[k j] rest IH]; cbn [find_brand_job find].
  - intros H. now injection H as <-.
  - unfold job_matches at 1. cbn [snd].
    destruct (brand_input_lower j) as [bl|e]; [|discriminate].
    destruct (String.eqb bl (lower h) && value_is_status (j !! "status") COMPLETED).
    + intros H. now injection H as <-.
    + exact IH.
Qed.

Lemma world_ok_initial : world_ok initial_world.
Proof.
  split; [constructor|]. intros sid s H. cbn in H. rewrite lookup_empty in H. discriminate.
Qed.

Lemma world_ok_step (o : op) (w : world) : world_ok w -> world_ok (exec_op o w).
Proof.
  intros [Hjobs Hsess].
  destruct o as [job_id b it em | E i | E sid h | E sid m | sid em job_id | E sid];
    cbn [exec_op].
  - unfold analyze_brand. destruct (Nat.ltb (String.length b) 3); [split; assumption|].
    split; [|exact Hsess]. unfold jobs_without_context. cbn [fst genome_jobs].
    apply Forall_jobs_set; [intros k; apply new_job_no_context | exact Hjobs].
  - unfold run_task. destruct (take_task i w) as [[t w']|] eqn:Htake; [|split; assumption].
    destruct (take_task_Some _ _ _ _ Htake) as (_ & Hj & Hs & _).
    split.
    + unfold jobs_without_context. cbn [tick put_job genome_jobs]. rewrite Hj.
      unfold run_task_state. rewrite Hj.
      destruct (jobs_lookup (task_job_id t) (genome_jobs w)) as [j|] eqn:Hlook.
      * destruct (rs_job (fst (analyze_brand_genome _ _ _ _ _ _ _))) as [jfinal|] eqn:Hfinal;
          [|exact Hjobs].
        apply Forall_jobs_set; [|exact Hjobs]. intros k. cbn [snd].
        eapply run_no_context; [|exact Hfinal].
        apply jobs_lookup_In in Hlook. unfold jobs_without_context in Hjobs.
        rewrite Forall_forall in Hjobs.
        apply (Hjobs _ (proj2 (list_elem_of_In _ _) Hlook)).
      * rewrite run_without_job. exact Hjobs.
    + intros sid s. cbn [tick put_job chat_sessions]. rewrite Hs. apply Hsess.
  - unfold initialize_chat.
    destruct (find_brand_job h (genome_jobs w)) as [found|e] eqn:Hfind; [|split; assumption].
    destruct (openai_new E); [|split; assumption].
    split; [exact Hjobs|]. intros sid' s. cbn [fst chat_sessions].
    rewrite lookup_insert. case_decide; [|apply Hsess].
    intros Heq. injection Heq as <-. cbn [cs_assistant new_assistant brand_context].
    destruct found as [[k j]|]; [|left; reflexivity]. right. cbn [option_map default snd].
    apply context_of_job_no_context.
    apply find_brand_job_first in Hfind. symmetry in Hfind.
    apply find_some in Hfind as [Hin _].
    unfold jobs_without_context in Hjobs. rewrite Forall_forall in Hjobs.
    apply (Hjobs _ (proj2 (list_elem_of_In _ _) Hin)).
  - unfold send_chat_message. destruct (chat_sessions w !! sid) as [session|] eqn:Hsid;
      [|split; assumption].
    destruct (chat E (cs_assistant session) (clock w) m) as [a r] eqn:Hchat.
    split; [exact Hjobs|]. intros sid' s. cbn [fst chat_sessions].
    rewrite lookup_insert. case_decide; [|apply Hsess].
    intros Heq. injection Heq as <-. cbn [cs_assistant].
    destruct (chat_history_extends E (cs_assistant session) (clock w) m)
      as (_ & _ & _ & Hctx & _).
    rewrite Hchat in Hctx. cbn [fst] in Hctx. rewrite Hctx. apply (Hsess sid). exact Hsid.
  - unfold generate_chat_report. destruct (chat_sessions w !! sid); [|split; assumption].
    split; [|exact Hsess]. unfold jobs_without_context. cbn [fst genome_jobs].
    apply Forall_jobs_set; [intros k; apply new_chat_job_no_context | exact Hjobs].
  - unfold end_chat_session. destruct (chat_sessions w !! sid); [|split; assumption].
    split; [exact Hjobs|]. intros sid' s. cbn [fst chat_sessions].
    rewrite lookup_delete. case_decide; [discriminate | apply Hsess].
Qed.

Lemma world_ok_exec (ops : list op) (w : world) : world_ok w -> world_ok (exec ops w).
Proof.
  revert w. induction ops as [|o rest IH]; intros w H; [exact H|].
  cbn [exec fold_left]. apply IH, world_ok_step, H.
Qed.

(** Every job of the registry stays readable: its status is a [JobStatus],
    its message and its brand are texts. *)
Lemma new_job_readable (job_id b it em : string) (now : nat) :
  job_readable (new_job job_id b it em now).
Proof. unfold job_readable, new_job. repeat split; eexists; lookup_job. Qed.

Lemma new_chat_job_readable (job_id h em sid : string) (now : nat) :
  job_readable (new_chat_job job_id h em sid now).
Proof. unfold job_readable, new_chat_job. repeat split; eexists; lookup_job. Qed.

Lemma run_readable (E : env) (now : nat) (id b it em : string)
    (j jfinal : gmap string value) :
  job_readable j ->
  rs_job (fst (analyze_brand_genome E now id b it em {| rs_job := Some j; rs_log := [] |}))
  = Some jfinal ->
  job_readable jfinal.
Proof.
  intros (_ & _ & [br Hb]) Hfinal. unfold job_readable.
  rewrite (run_keeps_other_keys E now id b it em j jfinal "brand_input")
    by (discriminate || exact Hfinal).
  split; [|split; [|eauto]]; revert Hfinal;
    run_cases E; intros Hf; injection Hf as <-; eexists; lookup_job.
Qed.

Lemma jobs_readable_step (o : op) (w : world) :
  jobs_readable w -> jobs_readable (exec_op o w).
Proof.
  intros Hjobs.
  destruct o as [job_id b it em | E i | E sid h | E sid m | sid em job_id | E sid];
    cbn [exec_op]; unfold jobs_readable.
  - unfold analyze_brand. destruct (Nat.ltb (String.length b) 3); [exact Hjobs|].
    cbn [fst genome_jobs].
    apply Forall_jobs_set; [intros k; apply new_job_readable | exact Hjobs].
  - unfold run_task. destruct (take_task i w) as [[t w']|] eqn:Htake; [|exact Hjobs].
    destruct (take_task_Some _ _ _ _ Htake) as (_ & Hj & _ & _).
    cbn [tick put_job genome_jobs]. rewrite Hj. unfold run_task_state. rewrite Hj.
    destruct (jobs_lookup (task_job_id t) (genome_jobs w)) as [j|] eqn:Hlook.
    + destruct (rs_job (fst (analyze_brand_genome _ _ _ _ _ _ _))) as [jfinal|] eqn:Hfinal;
        [|exact Hjobs].
      apply Forall_jobs_set; [|exact Hjobs]. intros k. cbn [snd].
      eapply run_readable; [|exact Hfinal].
      apply jobs_lookup_In in Hlook. unfold jobs_readable in Hjobs.
      rewrite Forall_forall in Hjobs.
      apply (Hjobs _ (proj2 (list_elem_of_In _ _) Hlook)).
    + rewrite run_without_job. exact Hjobs.
  - unfold initialize_chat.
    destruct (find_brand_job h (genome_jobs w)); [|exact Hjobs].
    destruct (openai_new E); exact Hjobs.
  - unfold send_chat_message. destruct (chat_sessions w !! sid); [|exact Hjobs].
    destruct (chat E _ _ m). exact Hjobs.
  - unfold generate_chat_report. destruct (chat_sessions w !! sid); [|exact Hjobs].
    cbn [fst genome_jobs].
    apply Forall_jobs_set; [intros k; apply new_chat_job_readable | exact Hjobs].
  - unfold end_chat_session. destruct (chat_sessions w !! sid); exact Hjobs.
Qed.

Lemma jobs_readable_exec (ops : list op) (w : world) :
  jobs_readable w -> jobs_readable (exec ops w).
Proof.
  revert w. induction ops as [|o rest IH]; intros w H; [exact H|].
  cbn [exec fold_left]. apply IH, jobs_readable_step, H.
Qed.

Lemma jobs_readable_lookup (w : world) (id : string) (job : gmap string value) :
  jobs_readable w -> jobs_lookup id (genome_jobs w) = Some job -> job_readable job.
Proof.
  intros Hjobs Hlook. apply jobs_lookup_In in Hlook.
  unfold jobs_readable in Hjobs. rewrite Forall_forall in Hjobs.
  apply (Hjobs _ (proj2 (list_elem_of_In _ _) Hlook)).
Qed.

(** On a registry of readable jobs the loop of [initialize_chat] never
    raises. *)
Lemma find_brand_job_readable (h : string) (jobs : list (string * gmap string value)) :
  Forall (fun kj => job_readable (snd kj)) jobs ->
  find_brand_job h jobs = Ok (find (job_matches h) jobs).
Proof.
  induction 1 as [|[k j] rest (_ & _ & [b Hb]) Hrest IH]; [reflexivity|].
  cbn [find_brand_job find]. unfold job_matches at 1. cbn [snd] in *.
  unfold brand_input_lower. rewrite Hb.
  destruct (String.eqb (lower b) (lower h) && value_is_status (j !! "status") COMPLETED);
    [reflexivity | exact IH].
Qed.

(** ** Chat initialization *)

(** What a successful [initialize_chat] returns and stores. *)
Lemma initialize_chat_ok (E : env) (sid h : string) (w w' : world)
    (r : chat_init_response) :
  initialize_chat E sid h w = (w', HttpOk r) ->
  let found := find (job_matches h) (genome_jobs w) in
  ci_has_context r = bool_decide (found <> None) /\
  chat_sessions w' !! sid
  = Some {| cs_session_id := sid; cs_brand_handle := h;
            cs_assistant :=
              new_assistant h (option_map (fun kj => context_of_job (snd kj)) found)
                (clock w);
            cs_created_at := clock w; cs_last_activity := clock w |} /\
  genome_jobs w' = genome_jobs w.
Proof.
  unfold initialize_chat.
  destruct (find_brand_job h (genome_jobs w)) as [found|e] eqn:Hfind; [|discriminate].
  apply find_brand_job_first in Hfind. subst found.
  destruct (openai_new E); [|discriminate].
  intros H. injection H as <- <-. cbn [ci_has_context chat_sessions genome_jobs].
  rewrite lookup_insert_eq. split; [|split; reflexivity].
  destruct (find (job_matches h) (genome_jobs w)); reflexivity.
Qed.

(** C9. In every reachable state no job record has a [brand_dna],
    [audience] or [competitors] key, so whenever chat initialization reports
    [has_context = true] the context of the new session is the fixed
    dictionary of three empty dictionaries. *)
Theorem C9_seeded_context_is_always_empty
    (ops : list op) (E : env) (sid h : string) (w' : world) (r : chat_init_response) :
  initialize_chat E sid h (exec ops initial_world) = (w', HttpOk r) ->
  ci_has_context r = true ->
  jobs_without_context (exec ops initial_world) /\
  exists session,
    chat_sessions w' !! sid = Some session /\
    brand_context (cs_assistant session) = empty_context /\
    empty_context !! "brand_dna" = Some (VDict []) /\
    empty_context !! "audience" = Some (VDict []) /\
    empty_context !! "competitors" = Some (VDict []) /\
    dom empty_context = list_to_set [ "brand_dna"; "audience"; "competitors" ].
Proof.
  intros Hinit Hctx.
  destruct (world_ok_exec ops initial_world world_ok_initial) as [Hjobs _].
  split; [exact Hjobs|].
  destruct (initialize_chat_ok _ _ _ _ _ _ Hinit) as (Hhas & Hsess & _).
  rewrite Hctx in Hhas. symmetry in Hhas. apply bool_decide_eq_true in Hhas.
  eexists. split; [exact Hsess|]. cbn [cs_assistant new_assistant brand_context].
  destruct (find (job_matches h) (genome_jobs (exec ops initial_world)))
    as [[k j]|] eqn:Hfind; [|contradiction].
  split.
  - cbn [option_map default snd]. apply context_of_job_no_context.
    apply find_some in Hfind as [Hin _].
    unfold jobs_without_context in Hjobs. rewrite Forall_forall in Hjobs.
    apply (Hjobs _ (proj2 (list_elem_of_In _ _) Hin)).
  - unfold empty_context. repeat split; lookup_job.
Qed.

Lemma C9_seeded_context_is_always_empty_witness :
  exists w' r,
    initialize_chat good_services "session-1" "acme" two_completed_world = (w', HttpOk r) /\
    ci_has_context r = true /\
    exists session,
      chat_sessions w' !! "session-1" = Some session /\
      brand_context (cs_assistant session) = empty_context.
Proof.
  destruct (initialize_chat good_services "session-1" "acme" two_completed_world)
    as [w' [r|code detail]] eqn:Hinit.
  - assert (Hctx : ci_has_context r = true).
    { assert (H : match snd (initialize_chat good_services "session-1" "acme"
                               two_completed_world) with
                  | HttpOk r => ci_has_context r
                  | HttpError _ _ => false
                  end = true) by (vm_compute; reflexivity).
      rewrite Hinit in H. exact H. }
    exists w', r. split; [reflexivity|]. split; [exact Hctx|].
    destruct (C9_seeded_context_is_always_empty _ _ _ _ _ _ Hinit Hctx)
      as (_ & session & Hs & Hb & _).
    exists session. split; assumption.
  - exfalso.
    assert (H : match snd (initialize_chat good_services "session-1" "acme"
                             two_completed_world) with
                | HttpOk _ => true
                | HttpError _ _ => false
                end = true) by (vm_compute; reflexivity).
    rewrite Hinit in H. discriminate.
Defined.

Lemma find_first_split {A : Type} (f : A -> bool) (l : list A) (x : A) :
  find f l = Some x ->
  exists before after,
    l = (before ++ x :: after)%list /\ f x = true /\
    forall y, In y before -> f y = false.
Proof.
  induction l as [|a l IH]; [discriminate|]. cbn [find].
  destruct (f a) eqn:Ha.
  - intros H. injection H as <-. exists [], l. repeat split; [exact Ha | contradiction].
  - intros H. destruct (IH H) as (before & after & -> & Hx & Hb).
    exists (a :: before), after. repeat split; [exact Hx|].
    intros y [<-|Hin]; [exact Ha | now apply Hb].
Qed.

(** The test of the loop: the brand of the job, a text (the empty text when
    the key is absent), equals the handle once both are lower-cased, and the
    status of the job is [COMPLETED]. *)
Lemma job_matches_spec (h : string) (kj : string * gmap string value) :
  job_matches h kj = true <->
  (exists text,
     (snd kj !! "brand_input" = Some (VStr text) \/
      (snd kj !! "brand_input" = None /\ text = "")) /\
     lower text = lower h) /\
  value_is_status (snd kj !! "status") COMPLETED = true.
Proof.
  unfold job_matches, brand_input_lower.
  destruct (snd kj !! "brand_input") as [v|] eqn:Hb.
  - destruct v; try (split; [discriminate | intros [(text & [H|[H _]] & _) _]; discriminate]).
    rewrite andb_true_iff, String.eqb_eq. split.
    + intros [H1 H2]. split; [|exact H2]. exists s. split; [now left | exact H1].
    + intros [(text & [H|[H _]] & Hl) H2]; [|discriminate].
      injection H as <-. split; assumption.
  - rewrite andb_true_iff, String.eqb_eq. split.
    + intros [H1 H2]. split; [|exact H2]. exists "". split; [now right | exact H1].
    + intros [(text & [H|[_ ->]] & Hl) H2]; [discriminate|]. split; assumption.
Qed.

(** The loop of [initialize_chat] stops at the first job, in the insertion
    order of the registry, that matches the handle; the context of the new
    session is built from that job, and it is empty when no job matches. *)
Lemma initialize_chat_first_match
    (E : env) (sid h : string) (w w' : world) (r : chat_init_response) :
  initialize_chat E sid h w = (w', HttpOk r) ->
  let found := find (job_matches h) (genome_jobs w) in
  (ci_has_context r = true <->
   exists kj, In kj (genome_jobs w) /\ job_matches h kj = true) /\
  (exists session,
     chat_sessions w' !! sid = Some session /\
     cs_brand_handle session = h /\
     conversation_history (cs_assistant session) = [] /\
     brand_context (cs_assistant session)
     = match found with
       | Some kj => context_of_job (snd kj)
       | None => ∅
       end) /\
  (forall kj, found = Some kj ->
     exists before after,
       genome_jobs w = (before ++ kj :: after)%list /\
       job_matches h kj = true /\
       forall kj', In kj' before -> job_matches h kj' = false) /\
  (found = None -> ci_has_context r = false).
Proof.
  intros Hinit found.
  destruct (initialize_chat_ok _ _ _ _ _ _ Hinit) as (Hhas & Hsess & _).
  fold found in Hhas, Hsess. split; [|split; [|split]].
  - rewrite Hhas, bool_decide_eq_true. split.
    + destruct found as [kj|] eqn:Hf; [|congruence]. intros _.
      exists kj. now apply find_some in Hf.
    + intros (kj & Hin & Hm) Hnone.
      pose proof (find_none _ _ Hnone kj Hin) as Hn. congruence.
  - eexists. split; [exact Hsess|]. cbn. split; [reflexivity|]. split; [reflexivity|].
    destruct found; reflexivity.
  - intros kj Hf. apply find_first_split. exact Hf.
  - intros Hnone. rewrite Hhas, Hnone. reflexivity.
Qed.

(** [most_recently_completed] finds a job exactly when the loop does. *)
Lemma most_recently_completed_None (h : string)
    (jobs : list (string * gmap string value)) :
  most_recently_completed h jobs = None <-> find (job_matches h) jobs = None.
Proof.
  induction jobs as [|a rest IH]; [reflexivity|].
  cbn [most_recently_completed find]. destruct (job_matches h a); [|exact IH].
  destruct (most_recently_completed h rest) as [kj'|].
  - destruct (Nat.ltb (completed_at (snd a)) (completed_at (snd kj')));
      split; discriminate.
  - split; discriminate.
Qed.

(** The job it finds is in the registry, matches the handle, and no matching
    job completed after it. *)
Lemma most_recently_completed_spec (h : string)
    (jobs : list (string * gmap string value)) (kj : string * gmap string value) :
  most_recently_completed h jobs = Some kj ->
  In kj jobs /\ job_matches h kj = true /\
  forall kj', In kj' jobs -> job_matches h kj' = true ->
    completed_at (snd kj') <= completed_at (snd kj).
Proof.
  revert kj. induction jobs as [|a rest IH]; [discriminate|].
  intros kj. cbn [most_recently_completed].
  destruct (job_matches h a) eqn:Ha.
  - destruct (most_recently_completed h rest) as [kj'|] eqn:Hrest.
    + destruct (IH kj' eq_refl) as (Hin & Hm & Hmax).
      destruct (Nat.ltb_spec (completed_at (snd a)) (completed_at (snd kj')))
        as [Hlt|Hge]; intros H; injection H as <-.
      * split; [now right|]. split; [exact Hm|].
        intros x [<-|Hx] Hmx; [lia | now apply Hmax].
      * split; [now left|]. split; [exact Ha|].
        intros x [<-|Hx] Hmx; [lia | specialize (Hmax x Hx Hmx); lia].
    + intros H. injection H as <-. split; [now left|]. split; [exact Ha|].
      intros x [<-|Hx] Hmx; [lia|]. exfalso.
      apply most_recently_completed_None in Hrest.
      pose proof (find_none _ _ Hrest x Hx) as Hno. congruence.
  - intros H. destruct (IH kj H) as (Hin & Hm & Hmax).
    split; [now right|]. split; [exact Hm|].
    intros x [<-|Hx] Hmx; [congruence | now apply Hmax].
Qed.

(** On a readable job the test of the loop says: the brand of the job equals
    the handle once both are lower-cased, and the job is [COMPLETED]. *)
Lemma job_matches_readable (h : string) (kj : string * gmap string value) :
  job_readable (snd kj) ->
  job_matches h kj = true <->
  exists b, snd kj !! "brand_input" = Some (VStr b) /\ lower b = lower h /\
            job_status (snd kj) = Some COMPLETED.
Proof.
  intros ([st Hst] & _ & [b Hb]).
  unfold job_matches, brand_input_lower, job_status. rewrite Hb, Hst.
  cbn [value_is_status]. rewrite andb_true_iff, String.eqb_eq. split.
  - intros [Hl Hs]. exists b. split; [reflexivity|]. split; [exact Hl|].
    destruct st; try discriminate. reflexivity.
  - intros (b' & Hb' & Hl & Hs). injection Hb' as <-. injection Hs as ->.
    split; [exact Hl | reflexivity].
Qed.

(** C6. In every reachable state a chat initialization creates a session
    exactly when the OpenAI client can be built. The brand context of the new
    session is the context seeded from the most recently completed job whose
    input brand equals the requested handle under case-insensitive
    comparison (and from any matching job that no other matching job
    completed after), and it is absent when there is no such job. The
    returned [has_context] is true exactly when a [COMPLETED] job with that
    brand exists, and false, with an absent context, otherwise. *)
Theorem C6_context_from_most_recently_completed_job
    (ops : list op) (E : env) (sid h : string) :
  let w := exec ops initial_world in
  let recent := most_recently_completed h (genome_jobs w) in
  let completed_job_exists :=
    exists id job b,
      In (id, job) (genome_jobs w) /\ job !! "brand_input" = Some (VStr b) /\
      lower b = lower h /\ job_status job = Some COMPLETED in
  (forall kj, recent = Some kj ->
     In kj (genome_jobs w) /\
     (exists b, snd kj !! "brand_input" = Some (VStr b) /\ lower b = lower h) /\
     job_status (snd kj) = Some COMPLETED /\
     forall kj', In kj' (genome_jobs w) -> job_matches h kj' = true ->
       completed_at (snd kj') <= completed_at (snd kj)) /\
  (recent <> None <-> completed_job_exists) /\
  (forall e, openai_new E = Raise e ->
     initialize_chat E sid h w = (w, HttpError 500 ("Failed to initialize chat: " ++ e))) /\
  (openai_new E = Ok tt ->
   exists w' r session,
     initialize_chat E sid h w = (w', HttpOk r) /\
     chat_sessions w' !! sid = Some session /\
     cs_brand_handle session = h /\
     brand_context (cs_assistant session)
     = match recent with
       | Some kj => context_of_job (snd kj)
       | None => ∅
       end /\
     (forall kj, In kj (genome_jobs w) -> job_matches h kj = true ->
        (forall kj', In kj' (genome_jobs w) -> job_matches h kj' = true ->
           completed_at (snd kj') <= completed_at (snd kj)) ->
        brand_context (cs_assistant session) = context_of_job (snd kj)) /\
     (ci_has_context r = true <-> completed_job_exists) /\
     (ci_has_context r = false -> brand_context (cs_assistant session) = ∅)).
Proof.
  intros w recent completed_job_exists.
  destruct (world_ok_exec ops initial_world world_ok_initial) as [Hjobs _].
  fold w in Hjobs.
  assert (Hread : jobs_readable w) by (apply jobs_readable_exec; constructor).
  assert (Hr : forall kj, In kj (genome_jobs w) -> job_readable (snd kj)).
  { intros kj Hin. unfold jobs_readable in Hread. rewrite Forall_forall in Hread.
    apply (Hread _ (proj2 (list_elem_of_In _ _) Hin)). }
  assert (Hempty : forall kj, In kj (genome_jobs w) ->
            context_of_job (snd kj) = empty_context).
  { intros kj Hin. apply context_of_job_no_context.
    unfold jobs_without_context in Hjobs. rewrite Forall_forall in Hjobs.
    apply (Hjobs _ (proj2 (list_elem_of_In _ _) Hin)). }
  assert (Hexists : find (job_matches h) (genome_jobs w) <> None <-> completed_job_exists).
  { split.
    - destruct (find (job_matches h) (genome_jobs w)) as [[id job]|] eqn:Hf; [|congruence].
      intros _. apply find_some in Hf as [Hin Hm].
      apply (job_matches_readable h _ (Hr _ Hin)) in Hm as (b & Hb & Hl & Hs).
      exists id, job, b. auto.
    - intros (id & job & b & Hin & Hb & Hl & Hs) Hnone.
      pose proof (find_none _ _ Hnone _ Hin) as Hno.
      assert (Hm : job_matches h (id, job) = true).
      { apply (job_matches_readable h _ (Hr _ Hin)). exists b. auto. }
      congruence. }
  assert (Hrecent : recent <> None <-> find (job_matches h) (genome_jobs w) <> None).
  { unfold recent. now rewrite most_recently_completed_None. }
  split; [|split; [|split]].
  - intros kj Hkj. apply most_recently_completed_spec in Hkj as (Hin & Hm & Hmax).
    split; [exact Hin|].
    apply (job_matches_readable h _ (Hr _ Hin)) in Hm as (b & Hb & Hl & Hs).
    split; [exists b; auto|]. split; [exact Hs | exact Hmax].
  - now rewrite Hrecent.
  - intros e He. unfold initialize_chat.
    rewrite (find_brand_job_readable h _ Hread), He. reflexivity.
  - intros Hnew.
    destruct (initialize_chat E sid h w) as [w' [r|code detail]] eqn:Hinit.
    2:{ exfalso. unfold initialize_chat in Hinit.
        rewrite (find_brand_job_readable h _ Hread), Hnew in Hinit. discriminate. }
    destruct (initialize_chat_ok _ _ _ _ _ _ Hinit) as (Hhas & Hsess & _).
    eexists w', r, _. split; [reflexivity|]. split; [exact Hsess|].
    cbn [cs_brand_handle cs_assistant new_assistant brand_context].
    split; [reflexivity|].
    assert (Hctx : default ∅ (option_map (fun kj => context_of_job (snd kj))
                                (find (job_matches h) (genome_jobs w)))
                   = match recent with
                     | Some kj => context_of_job (snd kj)
                     | None => ∅
                     end).
    { destruct recent as [kj|] eqn:Hrec.
      - destruct (find (job_matches h) (genome_jobs w)) as [kj0|] eqn:Hf.
        + cbn [option_map default]. apply find_some in Hf as [Hin0 _].
          apply most_recently_completed_spec in Hrec as (Hin & _).
          now rewrite (Hempty _ Hin0), (Hempty _ Hin).
        + exfalso. apply (proj1 Hrecent); congruence.
      - destruct (find (job_matches h) (genome_jobs w)) as [kj0|] eqn:Hf; [|reflexivity].
        exfalso. apply Hrecent; congruence. }
    split; [exact Hctx|]. split; [|split].
    + intros kj Hin Hm _.
      destruct (find (job_matches h) (genome_jobs w)) as [kj0|] eqn:Hf.
      * cbn [option_map default]. apply find_some in Hf as [Hin0 _].
        now rewrite (Hempty _ Hin0), (Hempty _ Hin).
      * pose proof (find_none _ _ Hf _ Hin). congruence.
    + rewrite Hhas, bool_decide_eq_true. exact Hexists.
    + rewrite Hhas, bool_decide_eq_false. intros Hno.
      destruct (find (job_matches h) (genome_jobs w)); [exfalso; apply Hno; discriminate|].
      reflexivity.
Qed.

Lemma C6_context_from_most_recently_completed_job_witness :
  openai_new good_services = Ok tt /\
  exists w' r session,
    initialize_chat good_services "session-1" "acme" two_completed_world = (w', HttpOk r) /\
    chat_sessions w' !! "session-1" = Some session /\
    ci_has_context r = true /\
    option_map fst (most_recently_completed "acme" (genome_jobs two_completed_world))
    = Some "job-2".
Proof.
  assert (H : openai_new good_services = Ok tt) by reflexivity.
  split; [exact H|].
  destruct (C6_context_from_most_recently_completed_job
              [ OpAnalyze "job-1" "Acme" "brand_name" "user@x.com";
                OpRunTask good_services 0;
                OpAnalyze "job-2" "ACME" "brand_name" "user@x.com";
                OpRunTask good_services 0 ]
              good_services "session-1" "acme")
    as (_ & Hex & _ & Hinit).
  destruct (Hinit H) as (w' & r & session & Hcall & Hsess & _ & _ & _ & Hhas & _).
  assert (Hrecent : option_map fst (most_recently_completed "acme"
                                      (genome_jobs two_completed_world))
                    = Some "job-2") by (vm_compute; reflexivity).
  exists w', r, session. split; [exact Hcall|]. split; [exact Hsess|].
  split; [|exact Hrecent].
  apply Hhas, Hex. intros Hnone. unfold two_completed_world in Hrecent.
  rewrite Hnone in Hrecent. discriminate Hrecent.
Defined.

(** Two jobs for the same brand completed one after the other: the loop of
    [initialize_chat] stops at the one submitted first, which is not the one
    completed last. Both give the same context, since neither has one of the
    keys the context is read from. *)
Example loop_stops_at_the_first_completed_job :
  match find_brand_job "acme" (genome_jobs two_completed_world) with
  | Ok (Some kj) => Some (fst kj, completed_at (snd kj))
  | _ => None
  end = Some ("job-1", 1) /\
  option_map (fun kj => (fst kj, completed_at (snd kj)))
    (most_recently_completed "acme" (genome_jobs two_completed_world))
  = Some ("job-2", 3).
Proof. vm_compute. auto. Qed.

(** ** Sending a message *)

(** With the contexts that sessions have in reachable states the system
    prompt can always be built. *)
Lemma build_system_prompt_ok (self : PixaroBrandAssistant) :
  brand_context self = ∅ \/ brand_context self = empty_context ->
  exists prompt, _build_system_prompt self = Ok prompt.
Proof.
  unfold _build_system_prompt. intros [H|H]; rewrite H.
  - rewrite bool_decide_eq_true_2 by reflexivity. eauto.
  - destruct (bool_decide (empty_context = ∅)); [eauto|].
    unfold context_dict, get_or_empty_dict, empty_context.
    repeat (rewrite lookup_insert_eq || (rewrite lookup_insert_ne by discriminate)).
    cbn. eauto.
Qed.





Example failed_generation_reply :
  match snd (send_chat_message no_completion "session-1" "hello" one_session_world) with
  | HttpOk reply => Some (response reply, reply_action_type reply)
  | HttpError _ _ => None
  end
  = Some ("I encountered an error: Request timed out.. Let me try to help you anyway. What would you like to know about acme?",
          error_action).
Proof. vm_compute. reflexivity. Qed.

(** * Further properties of the code *)

(** ** Submitting a job and reading its status *)

Lemma jobs_lookup_set_eq (id : string) (job : gmap string value)
    (jobs : list (string * gmap string value)) :
  jobs_lookup id (jobs_set id job jobs) = Some job.
Proof. now rewrite jobs_lookup_set, String.eqb_refl. Qed.

Lemma jobs_lookup_set_ne (id id' : string) (job : gmap string value)
    (jobs : list (string * gmap string value)) :
  id' <> id -> jobs_lookup id (jobs_set id' job jobs) = jobs_lookup id jobs.
Proof.
  intros Hne. rewrite jobs_lookup_set.
  destruct (String.eqb_spec id' id); [contradiction | reflexivity].
Qed.

(** X1. A submission with a brand of fewer than three characters is refused
    with status 400 and changes nothing; an accepted submission answers with
    the job identifier, and a status query for it right afterwards reports a
    pending job for the submitted brand, without report address, completion
    time or delivery. The answers for the other identifiers stay the same. *)
Theorem X1_submit_then_status (job_id b it em : string) (w : world) :
  (String.length b < 3 ->
   exists detail, analyze_brand job_id b it em w = (w, HttpError 400 detail)) /\
  (3 <= String.length b ->
   let w' := fst (analyze_brand job_id b it em w) in
   snd (analyze_brand job_id b it em w) = HttpOk job_id /\
   (exists body,
      get_genome_status job_id w' = HttpOk body /\
      body !! "job_id" = Some (VStr job_id) /\
      body !! "status" = Some (VStatus PENDING) /\
      body !! "message" = Some (VStr "Analysis starting...") /\
      body !! "brand_input" = Some (VStr b) /\
      body !! "pdf_url" = Some VNone /\
      body !! "email_sent" = Some (VBool false) /\
      body !! "created_at" = Some (VTime (clock w)) /\
      body !! "completed_at" = Some VNone) /\
   (forall id', id' <> job_id -> get_genome_status id' w' = get_genome_status id' w) /\
   background_tasks w'
   = (background_tasks w
      ++ [{| task_job_id := job_id; task_brand_input := b;
             task_input_type := it; task_email := em |}])%list /\
   chat_sessions w' = chat_sessions w).
Proof.
  unfold analyze_brand. split.
  - intros Hlt. apply Nat.ltb_lt in Hlt. rewrite Hlt. eauto.
  - intros Hge. apply Nat.ltb_ge in Hge. rewrite Hge. cbn [fst snd].
    split; [reflexivity|]. split; [|split; [|split; reflexivity]].
    + unfold get_genome_status. cbn [genome_jobs]. rewrite jobs_lookup_set_eq.
      unfold new_job at 1 2.
      repeat (rewrite lookup_insert_eq || (rewrite lookup_insert_ne by discriminate)).
      eexists. split; [reflexivity|]. unfold get_or_none, new_job.
      repeat split;
        repeat (rewrite lookup_insert_eq || (rewrite lookup_insert_ne by discriminate)
                || rewrite lookup_empty);
        reflexivity.
    + intros id' Hne. unfold get_genome_status. cbn [genome_jobs].
      now rewrite jobs_lookup_set_ne by congruence.
Qed.

Lemma X1_submit_then_status_witness :
  3 <= String.length "acme" /\
  snd (analyze_brand "job-1" "acme" "auto" "user@x.com" initial_world) = HttpOk "job-1".
Proof.
  assert (H : 3 <= String.length "acme") by (cbn; lia).
  split; [exact H|].
  exact (proj1 (proj2 (X1_submit_then_status "job-1" "acme" "auto" "user@x.com"
                         initial_world) H)).
Defined.

(** ** What every run does *)

(** X2. Whatever the services answer, a run on a registered job sends
    exactly one mail, to the address given at submission: the report when
    the job ends [COMPLETED], the error notice when it ends [FAILED]. *)
Theorem X2_one_mail_per_run (E : env) (now : nat) (id b it em : string)
    (j : gmap string value) :
  let final := fst (analyze_brand_genome E now id b it em
                      {| rs_job := Some j; rs_log := [] |}) in
  exists m sent jfinal,
    mails_sent (rs_log final) = [(m, sent)] /\
    mail_to m = em /\
    sent = send_email E m /\
    rs_job final = Some jfinal /\
    job_status jfinal = Some (if is_report_mail m then COMPLETED else FAILED).
Proof.
  cbv zeta. run_cases E;
    (eexists _, _, _; split; [reflexivity|]; split; [reflexivity|];
     split; [reflexivity|]; split; [reflexivity|];
     cbn [is_report_mail]; unfold job_status; lookup_job).
Qed.

(** X3. A run for an identifier that is not in the registry raises the
    [KeyError] of that identifier out of the function: nothing is written, no
    stage is started and no mail is sent. *)
Theorem X3_run_without_job_raises (E : env) (now : nat) (id b it em : string) :
  analyze_brand_genome E now id b it em {| rs_job := None; rs_log := [] |}
  = ({| rs_job := None; rs_log := [] |}, Raise ("'" ++ id ++ "'")).
Proof. run_eval. reflexivity. Qed.

(** ** The registry of jobs in every reachable state *)

(** X4. In every reachable state the status query answers 404 exactly for
    the identifiers that are not in the registry; for a registered job it
    always returns the body with its eight fields, never an error. *)
Theorem X4_status_query_is_well_formed (ops : list op) (id : string) :
  let w := exec ops initial_world in
  (jobs_lookup id (genome_jobs w) = None <->
   get_genome_status id w = HttpError 404 "Job not found") /\
  (forall job, jobs_lookup id (genome_jobs w) = Some job ->
     exists body st msg,
       get_genome_status id w = HttpOk body /\
       body !! "status" = Some (VStatus st) /\ job_status job = Some st /\
       body !! "message" = Some (VStr msg) /\
       dom body = list_to_set [ "job_id"; "status"; "message"; "brand_input";
                                "pdf_url"; "email_sent"; "created_at";
                                "completed_at" ]).
Proof.
  intros w.
  assert (Hjobs : jobs_readable w)
    by (apply jobs_readable_exec; constructor).
  assert (Hknown : forall job, jobs_lookup id (genome_jobs w) = Some job ->
            exists body st msg,
              get_genome_status id w = HttpOk body /\
              body !! "status" = Some (VStatus st) /\ job_status job = Some st /\
              body !! "message" = Some (VStr msg) /\
              dom body = list_to_set [ "job_id"; "status"; "message"; "brand_input";
                                       "pdf_url"; "email_sent"; "created_at";
                                       "completed_at" ]).
  { intros job Hlook.
    destruct (jobs_readable_lookup w id job Hjobs Hlook) as ([st Hst] & [msg Hmsg] & _).
    destruct (get_genome_status_found id w job _ _ Hlook Hst Hmsg)
      as (body & Hb & Hbs & Hbm & _ & _ & Hd).
    exists body, st, msg. unfold job_status. rewrite Hst. auto. }
  split; [|exact Hknown]. split.
  - intros Hnone. unfold get_genome_status. now rewrite Hnone.
  - intros H404. destruct (jobs_lookup id (genome_jobs w)) as [job|] eqn:Hlook;
      [|reflexivity].
    destruct (Hknown job eq_refl) as (body & _ & _ & Hb & _). congruence.
Qed.

(** ** Opening a chat in a reachable state *)

(** X5. In every reachable state chat initialization fails only when the
    OpenAI client cannot be built, and then nothing changes; otherwise it
    answers with the session identifier and the handle it was given. When a
    [COMPLETED] job for the same brand, in any letter case, is in the
    registry, the answer reports [has_context = true]. *)
Theorem X5_chat_init_in_reachable_state (ops : list op) (E : env) (sid h : string) :
  let w := exec ops initial_world in
  (forall e, openai_new E = Raise e ->
     initialize_chat E sid h w = (w, HttpError 500 ("Failed to initialize chat: " ++ e))) /\
  (openai_new E = Ok tt ->
   exists w' r,
     initialize_chat E sid h w = (w', HttpOk r) /\
     ci_session_id r = sid /\ ci_brand_handle r = h /\
     (forall id job b,
        jobs_lookup id (genome_jobs w) = Some job ->
        job_status job = Some COMPLETED ->
        job !! "brand_input" = Some (VStr b) ->
        lower b = lower h ->
        ci_has_context r = true)).
Proof.
  intros w.
  assert (Hjobs : jobs_readable w) by (apply jobs_readable_exec; constructor).
  unfold initialize_chat. rewrite (find_brand_job_readable h _ Hjobs). split.
  - intros e ->. reflexivity.
  - intros ->. eexists _, _. split; [reflexivity|]. cbn.
    split; [reflexivity|]. split; [reflexivity|].
    intros id job b Hlook Hst Hb Hlow. apply bool_decide_eq_true.
    destruct (find (job_matches h) (genome_jobs w)) as [kj|] eqn:Hfind; [discriminate|].
    exfalso. apply jobs_lookup_In in Hlook.
    pose proof (find_none _ _ Hfind _ Hlook) as Hno.
    unfold job_matches, brand_input_lower in Hno. cbn [snd] in Hno.
    rewrite Hb, Hlow, String.eqb_refl in Hno. unfold job_status in Hst.
    destruct (job !! "status") as [[]|]; try discriminate.
    injection Hst as ->. discriminate.
Qed.

Lemma X5_chat_init_in_reachable_state_witness :
  openai_new good_services = Ok tt /\
  exists w' r,
    initialize_chat good_services "session-9" "ACME" two_completed_world = (w', HttpOk r) /\
    ci_session_id r = "session-9".
Proof.
  assert (H : openai_new good_services = Ok tt) by reflexivity.
  split; [exact H|].
  destruct (proj2 (X5_chat_init_in_reachable_state
                     [ OpAnalyze "job-1" "Acme" "brand_name" "user@x.com";
                       OpRunTask good_services 0;
                       OpAnalyze "job-2" "ACME" "brand_name" "user@x.com";
                       OpRunTask good_services 0 ]
                     good_services "session-9" "ACME") H)
    as (w' & r & Hinit & Hsid & _).
  exists w', r. split; [exact Hinit | exact Hsid].
Defined.

(** ** Completed jobs and their reports *)

Lemma Forall_jobs_set_key (P : string * gmap string value -> Prop) (id : string)
    (job : gmap string value) (jobs : list (string * gmap string value)) :
  P (id, job) -> Forall P jobs -> Forall P (jobs_set id job jobs).
Proof.
  intros Hjob Hall. induction Hall as [|[k j] rest Hkj Hrest IH]; cbn [jobs_set].
  - constructor; [exact Hjob | constructor].
  - destruct (String.eqb_spec k id) as [->|Hne]; constructor; auto.
Qed.

Lemma new_job_at_rest (job_id b it em : string) (now : nat) :
  job_at_rest job_id (new_job job_id b it em now).
Proof.
  unfold job_at_rest. rewrite new_job_pending. unfold new_job.
  repeat split; lookup_job.
Qed.

Lemma new_chat_job_at_rest (job_id h em sid : string) (now : nat) :
  job_at_rest job_id (new_chat_job job_id h em sid now).
Proof.
  unfold job_at_rest. rewrite new_chat_job_pending. unfold new_chat_job.
  repeat split; lookup_job.
Qed.

(** A run on a [PENDING] job leaves it at rest, [COMPLETED] or [FAILED]. *)
Lemma run_at_rest (E : env) (now : nat) (id b it em : string)
    (j jfinal : gmap string value) :
  job_status j = Some PENDING -> job_at_rest id j ->
  rs_job (fst (analyze_brand_genome E now id b it em {| rs_job := Some j; rs_log := [] |}))
  = Some jfinal ->
  job_at_rest id jfinal /\
  (job_status jfinal = Some COMPLETED \/ job_status jfinal = Some FAILED).
Proof.
  intros Hp Hrest. unfold job_at_rest in Hrest. rewrite Hp in Hrest.
  destruct Hrest as (H1 & H2 & H3 & H4).
  run_cases E; intros Hf; injection Hf as <-;
    unfold job_at_rest, job_status;
    (rewrite lookup_insert_ne by discriminate);
    repeat (rewrite lookup_insert_eq || (rewrite lookup_insert_ne by discriminate));
    (split; [|auto]);
    repeat split;
    repeat (rewrite lookup_insert_eq || (rewrite lookup_insert_ne by discriminate));
    eauto.
Qed.

Lemma jobs_at_rest_step (o : op) (w : world) :
  tasks_pending w -> jobs_at_rest w -> jobs_at_rest (exec_op o w).
Proof.
  intros Hinv Hjobs.
  destruct o as [job_id b it em | E i | E sid h | E sid m | sid em job_id | E sid];
    cbn [exec_op]; unfold jobs_at_rest.
  - unfold analyze_brand. destruct (Nat.ltb (String.length b) 3); [exact Hjobs|].
    cbn [fst genome_jobs].
    apply Forall_jobs_set_key; [apply new_job_at_rest | exact Hjobs].
  - unfold run_task. destruct (take_task i w) as [[t w']|] eqn:Htake; [|exact Hjobs].
    destruct (take_task_pending _ _ _ _ Htake Hinv) as (_ & Hpend & _).
    destruct (take_task_Some _ _ _ _ Htake) as (_ & Hj & _ & _).
    cbn [tick put_job genome_jobs]. unfold run_task_state.
    unfold status_of in Hpend.
    destruct (jobs_lookup (task_job_id t) (genome_jobs w')) as [j|] eqn:Hlook;
      [|discriminate].
    cbn in Hpend. rewrite Hj in Hlook |- *.
    destruct (rs_job (fst (analyze_brand_genome _ _ _ _ _ _ _))) as [jfinal|] eqn:Hfinal;
      [|exact Hjobs].
    apply Forall_jobs_set_key; [|exact Hjobs]. cbn [fst snd].
    eapply run_at_rest; [exact Hpend | | exact Hfinal].
    apply jobs_lookup_In in Hlook. unfold jobs_at_rest in Hjobs.
    rewrite Forall_forall in Hjobs.
    apply (Hjobs _ (proj2 (list_elem_of_In _ _) Hlook)).
  - unfold initialize_chat.
    destruct (find_brand_job h (genome_jobs w)); [|exact Hjobs].
    destruct (openai_new E); exact Hjobs.
  - unfold send_chat_message. destruct (chat_sessions w !! sid); [|exact Hjobs].
    destruct (chat E _ _ m). exact Hjobs.
  - unfold generate_chat_report. destruct (chat_sessions w !! sid); [|exact Hjobs].
    cbn [fst genome_jobs].
    apply Forall_jobs_set_key; [apply new_chat_job_at_rest | exact Hjobs].
  - unfold end_chat_session. destruct (chat_sessions w !! sid); exact Hjobs.
Qed.

Lemma jobs_at_rest_exec (ops : list op) (w : world) :
  tasks_pending w -> jobs_at_rest w -> ids_fresh ops w = true ->
  jobs_at_rest (exec ops w).
Proof.
  revert w. induction ops as [|o rest IH]; intros w Hinv Hjobs Hfresh; [exact Hjobs|].
  cbn [ids_fresh] in Hfresh. apply andb_prop in Hfresh as [Ho Hrest].
  cbn [exec fold_left]. apply IH; [|apply jobs_at_rest_step; assumption | exact Hrest].
  apply (op_step o w "" Hinv Ho).
Qed.

Lemma jobs_at_rest_lookup (w : world) (id : string) (job : gmap string value) :
  jobs_at_rest w -> jobs_lookup id (genome_jobs w) = Some job -> job_at_rest id job.
Proof.
  intros Hjobs Hlook. apply jobs_lookup_In in Hlook.
  unfold jobs_at_rest in Hjobs. rewrite Forall_forall in Hjobs.
  apply (Hjobs _ (proj2 (list_elem_of_In _ _) Hlook)).
Qed.

(** X6. In every state reached with new identifiers for new jobs, a job is
    [PENDING], [COMPLETED] or [FAILED] between two operations, and it is
    [COMPLETED] exactly when its record has the path of a report, and
    exactly when it has a completion time; a [COMPLETED] job has the
    download address of its own identifier, and only a [COMPLETED] job can
    have its delivery flag set. *)
Theorem X6_completed_iff_report_recorded (ops : list op) (id : string)
    (job : gmap string value) :
  ids_fresh ops initial_world = true ->
  jobs_lookup id (genome_jobs (exec ops initial_world)) = Some job ->
  (job_status job = Some PENDING \/ job_status job = Some COMPLETED \/
   job_status job = Some FAILED) /\
  (job_status job = Some COMPLETED <-> exists path, job !! "pdf_path" = Some (VStr path)) /\
  (job_status job = Some COMPLETED <-> exists t, job !! "completed_at" = Some (VTime t)) /\
  (job_status job = Some COMPLETED ->
   job !! "pdf_url" = Some (VStr ("/api/download/report/" ++ id))) /\
  (job_status job <> Some COMPLETED -> job !! "pdf_url" = Some VNone) /\
  (job !! "email_sent" = Some (VBool true) -> job_status job = Some COMPLETED).
Proof.
  intros Hfresh Hlook.
  assert (Hjobs : jobs_at_rest (exec ops initial_world))
    by (apply jobs_at_rest_exec; [apply tasks_pending_initial | constructor | exact Hfresh]).
  pose proof (jobs_at_rest_lookup _ _ _ Hjobs Hlook) as Hrest.
  unfold job_at_rest in Hrest.
  destruct (job_status job) as [[]|]; try contradiction.
  - destruct Hrest as (H1 & H2 & H3 & H4). split; [auto|].
    repeat split; try discriminate; try congruence.
    + intros [path Hp]. congruence.
    + intros [t Ht]. congruence.
  - destruct Hrest as (H1 & H2 & H3 & H4). split; [auto|].
    repeat split; auto; congruence.
  - destruct Hrest as (H1 & H2 & H3 & H4). split; [auto|].
    repeat split; try discriminate; try congruence.
    + intros [path Hp]. congruence.
    + intros [t Ht]. congruence.
Qed.

Lemma X6_completed_iff_report_recorded_witness :
  exists job,
    jobs_lookup "job-2" (genome_jobs two_completed_world) = Some job /\
    (job_status job = Some COMPLETED <-> exists path, job !! "pdf_path" = Some (VStr path)).
Proof.
  assert (Hfresh : ids_fresh [ OpAnalyze "job-1" "Acme" "brand_name" "user@x.com";
                               OpRunTask good_services 0;
                               OpAnalyze "job-2" "ACME" "brand_name" "user@x.com";
                               OpRunTask good_services 0 ] initial_world = true)
    by (vm_compute; reflexivity).
  destruct (jobs_lookup "job-2" (genome_jobs two_completed_world)) as [job|] eqn:Hlook.
  - exists job. split; [reflexivity|].
    exact (proj1 (proj2 (X6_completed_iff_report_recorded _ "job-2" job Hfresh Hlook))).
  - exfalso.
    assert (H : match jobs_lookup "job-2" (genome_jobs two_completed_world) with
                | Some _ => true
                | None => false
                end = true) by (vm_compute; reflexivity).
    rewrite Hlook in H. discriminate.
Defined.

(** X7. In every state reached with new identifiers for new jobs, the
    download endpoint answers 404 "Job not found" for an unknown identifier
    and 404 "Report not found" for a job that is not [COMPLETED]; when it
    returns a file, the job is [COMPLETED], the file is the recorded report,
    it exists, and its name is built from the job identifier. *)
Theorem X7_download_only_for_completed_jobs
    (ops : list op) (path_exists : value -> result bool) (id : string) :
  ids_fresh ops initial_world = true ->
  let w := exec ops initial_world in
  (jobs_lookup id (genome_jobs w) = None ->
   download_report path_exists id w = HttpError 404 "Job not found") /\
  (forall st, status_of id w = Some st -> st <> COMPLETED ->
     download_report path_exists id w = HttpError 404 "Report not found") /\
  (forall p name, download_report path_exists id w = HttpOk (p, name) ->
     status_of id w = Some COMPLETED /\
     name = "marketing_genome_" ++ id ++ ".pdf" /\
     path_exists p = Ok true /\
     exists job path, jobs_lookup id (genome_jobs w) = Some job /\
                      job !! "pdf_path" = Some (VStr path) /\ p = VStr path /\ path <> "").
Proof.
  intros Hfresh w.
  assert (Hjobs : jobs_at_rest w)
    by (apply jobs_at_rest_exec; [apply tasks_pending_initial | constructor | exact Hfresh]).
  unfold download_report, status_of.
  destruct (jobs_lookup id (genome_jobs w)) as [job|] eqn:Hlook.
  2:{ split; [reflexivity|]. split; [discriminate|]. intros p name H. discriminate. }
  pose proof (jobs_at_rest_lookup _ _ _ Hjobs Hlook) as Hrest.
  unfold job_at_rest in Hrest.
  split; [discriminate|]. cbn [mbind option_bind]. unfold get_or_none.
  destruct (job_status job) as [[]|]; try contradiction.
  - destruct Hrest as (H1 & _). rewrite H1. cbn. split; [reflexivity|]. intros p name H. discriminate H.
  - destruct Hrest as ([path H1] & _). rewrite H1. cbn [default from_option Datatypes.id truthy]. split.
    + intros st Hs Hne. congruence.
    + intros p name.
      destruct (String.eqb_spec path "") as [Hempty|Hempty]; cbn [negb];
        [intros H; discriminate H|].
      destruct (path_exists (VStr path)) as [[]|e] eqn:Hex;
        try (intros H; discriminate H).
      intros H. injection H as <- <-. repeat split; auto.
      exists job, path. repeat split; auto.
  - destruct Hrest as (H1 & _). rewrite H1. cbn. split; [reflexivity|]. intros p name H. discriminate H.
Qed.

Lemma X7_download_only_for_completed_jobs_witness :
  ids_fresh [ OpAnalyze "job-1" "acme" "brand_name" "user@x.com";
              OpRunTask no_competitors 0 ] initial_world = true /\
  download_report (fun _ => Ok true) "job-1" failing_world
  = HttpError 404 "Report not found".
Proof.
  assert (Hfresh : ids_fresh [ OpAnalyze "job-1" "acme" "brand_name" "user@x.com";
                               OpRunTask no_competitors 0 ] initial_world = true)
    by (vm_compute; reflexivity).
  split; [exact Hfresh|].
  apply (proj1 (proj2 (X7_download_only_for_completed_jobs _ (fun _ => Ok true) "job-1"
                         Hfresh)) FAILED); [vm_compute; reflexivity | discriminate].
Defined.

(** ** From submission to the report *)

Lemma lookup_app_end {A : Type} (l : list A) (x : A) :
  (l ++ [x])%list !! length l = Some x.
Proof. induction l; [reflexivity | assumption]. Qed.

Lemma take_drop_end {A : Type} (l : list A) (x : A) :
  (take (length l) (l ++ [x]) ++ drop (S (length l)) (l ++ [x]))%list = l.
Proof. induction l as [|a l IH]; [reflexivity|]. cbn. now rewrite IH. Qed.

(** X8. Submitting an accepted brand and then running its task while the
    stages up to the report all return leaves the job [COMPLETED]: the
    status query reports the download address of the job and the outcome of
    the delivery, the report can be downloaded when its file exists, and the
    queue of tasks is as it was before the submission. *)
Theorem X8_submit_run_download
    (E : env) (id b it em pdf : string) (w : world) :
  3 <= String.length b -> stages_succeed E id b it pdf ->
  let w1 := fst (analyze_brand id b it em w) in
  let w2 := run_task E (length (background_tasks w)) w1 in
  background_tasks w2 = background_tasks w /\
  status_of id w2 = Some COMPLETED /\
  (exists body,
     get_genome_status id w2 = HttpOk body /\
     body !! "status" = Some (VStatus COMPLETED) /\
     body !! "pdf_url" = Some (VStr ("/api/download/report/" ++ id)) /\
     body !! "email_sent" = Some (VBool (send_genome_report_email E em b pdf))) /\
  (forall path_exists, pdf <> "" -> path_exists (VStr pdf) = Ok true ->
     download_report path_exists id w2
     = HttpOk (VStr pdf, "marketing_genome_" ++ id ++ ".pdf")).
Proof.
  intros Hlen Hstages w1 w2. subst w1 w2.
  unfold analyze_brand. apply Nat.ltb_ge in Hlen. rewrite Hlen. cbn [fst].
  unfold run_task, take_task. cbn [background_tasks genome_jobs chat_sessions clock].
  rewrite lookup_app_end, take_drop_end.
  unfold run_task_state. cbn [task_job_id task_brand_input task_input_type task_email
                              genome_jobs clock].
  rewrite jobs_lookup_set_eq.
  destruct (run_stages_succeed E (S (clock w)) id b it em
              (new_job id b it em (clock w)) pdf Hstages)
    as (_ & (j' & Hj' & Hs & Hm & Hp & Hu & Hf & _) & _).
  rewrite Hj'. cbn [tick put_job background_tasks genome_jobs].
  split; [reflexivity|].
  match goal with |- status_of id ?x = _ /\ _ => set (w2 := x) end.
  assert (Hlook : jobs_lookup id (genome_jobs w2) = Some j')
    by (subst w2; cbn [genome_jobs tick put_job]; apply jobs_lookup_set_eq).
  clearbody w2.
  split; [unfold status_of; rewrite Hlook; cbn; unfold job_status; now rewrite Hs|].
  split.
  - unfold get_genome_status. rewrite Hlook, Hs, Hm.
    eexists. split; [reflexivity|]. unfold get_or_none. rewrite Hu, Hf.
    repeat split; lookup_job.
  - intros path_exists Hne Hex. unfold download_report.
    rewrite Hlook. unfold get_or_none. rewrite Hp.
    cbn [default from_option Datatypes.id truthy].
    destruct (String.eqb_spec pdf ""); [contradiction|]. cbn. now rewrite Hex.
Qed.

Lemma X8_submit_run_download_witness :
  3 <= String.length "acme" /\
  stages_succeed good_services "job-1" "acme" "brand_name" "outputs/genome_job-1.pdf" /\
  status_of "job-1"
    (run_task good_services 0
       (fst (analyze_brand "job-1" "acme" "brand_name" "user@x.com" initial_world)))
  = Some COMPLETED.
Proof.
  assert (Hlen : 3 <= String.length "acme") by (cbn; lia).
  assert (H : stages_succeed good_services "job-1" "acme" "brand_name"
                "outputs/genome_job-1.pdf").
  { split; [reflexivity|].
    exists "brand-dna", "competitor-intel", "growth-roadmap", "content-strategy".
    repeat split; reflexivity. }
  split; [exact Hlen|]. split; [exact H|].
  exact (proj1 (proj2 (X8_submit_run_download good_services "job-1" "acme" "brand_name"
                         "user@x.com" _ initial_world Hlen H))).
Defined.

(** ** Listing the jobs *)

Lemma jobs_set_keys (id : string) (job : gmap string value)
    (jobs : list (string * gmap string value)) :
  exists new, map fst (jobs_set id job jobs) = (map fst jobs ++ new)%list.
Proof.
  induction jobs as [|[k j] rest [new IH]]; cbn [jobs_set map fst].
  - exists [id]. reflexivity.
  - destruct (String.eqb k id); cbn [map fst].
    + exists []. now rewrite app_nil_r.
    + exists new. now rewrite IH.
Qed.

Lemma exec_op_keys (o : op) (w : world) :
  exists new,
    map fst (genome_jobs (exec_op o w)) = (map fst (genome_jobs w) ++ new)%list.
Proof.
  assert (Hsame : forall w', genome_jobs w' = genome_jobs w ->
            exists new, map fst (genome_jobs w') = (map fst (genome_jobs w) ++ new)%list).
  { intros w' ->. exists []. now rewrite app_nil_r. }
  destruct o as [job_id b it em | E i | E sid h | E sid m | sid em job_id | E sid];
    cbn [exec_op].
  - unfold analyze_brand. destruct (Nat.ltb (String.length b) 3); [now apply Hsame|].
    apply jobs_set_keys.
  - unfold run_task. destruct (take_task i w) as [[t w']|] eqn:Htake; [|now apply Hsame].
    destruct (take_task_Some _ _ _ _ Htake) as (_ & Hj & _ & _).
    cbn [tick put_job genome_jobs]. rewrite Hj.
    destruct (rs_job _); [apply jobs_set_keys | now apply Hsame].
  - apply Hsame. unfold initialize_chat.
    destruct (find_brand_job h (genome_jobs w)); [|reflexivity].
    destruct (openai_new E); reflexivity.
  - apply Hsame. unfold send_chat_message.
    destruct (chat_sessions w !! sid); [|reflexivity]. now destruct (chat E _ _ m).
  - unfold generate_chat_report. destruct (chat_sessions w !! sid); [|now apply Hsame].
    apply jobs_set_keys.
  - apply Hsame. unfold end_chat_session. now destruct (chat_sessions w !! sid).
Qed.

Lemma exec_keys (ops : list op) (w : world) :
  exists new,
    map fst (genome_jobs (exec ops w)) = (map fst (genome_jobs w) ++ new)%list.
Proof.
  revert w. induction ops as [|o rest IH]; intros w.
  - exists []. now rewrite app_nil_r.
  - cbn [exec fold_left]. destruct (IH (exec_op o w)) as [new2 H2].
    destruct (exec_op_keys o w) as [new1 H1].
    exists (new1 ++ new2)%list. unfold exec in H2. rewrite H2, H1. now rewrite app_assoc.
Qed.

Lemma job_summaries_readable (jobs : list (string * gmap string value)) :
  Forall (fun kj => job_readable (snd kj)) jobs ->
  exists l, job_summaries jobs = Some l /\ map js_job_id l = map fst jobs.
Proof.
  induction 1 as [|[k j] rest ([st Hst] & _) Hrest (l & IH & Hl)].
  - exists []. split; reflexivity.
  - cbn [job_summaries]. cbn [snd] in Hst. rewrite Hst, IH.
    eexists. split; [reflexivity|]. cbn. now rewrite Hl.
Qed.

Lemma exec_app (ops1 ops2 : list op) (w : world) :
  exec (ops1 ++ ops2) w = exec ops2 (exec ops1 w).
Proof. unfold exec. apply fold_left_app. Qed.

(** X9. Jobs are never removed from the registry nor reordered: in every
    reachable state the list endpoint returns one entry per job, in the
    order of submission, with their number as total, and whatever happens
    next the later list starts with the identifiers of the earlier one. *)
Theorem X9_jobs_are_listed_in_submission_order (ops later : list op) :
  let w := exec ops initial_world in
  let w' := exec (ops ++ later) initial_world in
  exists l l',
    list_genome_jobs w = HttpOk (length l, l) /\
    list_genome_jobs w' = HttpOk (length l', l') /\
    map js_job_id l = map fst (genome_jobs w) /\
    map js_job_id l `prefix_of` map js_job_id l' /\
    length l <= length l'.
Proof.
  intros w w'. subst w'. rewrite exec_app. fold w.
  assert (Hw : jobs_readable w) by (apply jobs_readable_exec; constructor).
  assert (Hw' : jobs_readable (exec later w)) by (apply jobs_readable_exec; exact Hw).
  destruct (job_summaries_readable _ Hw) as (l & Hl & Hkeys).
  destruct (job_summaries_readable _ Hw') as (l' & Hl' & Hkeys').
  destruct (exec_keys later w) as [new Hnew].
  assert (Hlen : forall (w0 : world) (l0 : list job_summary),
            map js_job_id l0 = map fst (genome_jobs w0) ->
            length (genome_jobs w0) = length l0).
  { intros w0 l0 H. apply (f_equal (@length _)) in H. now rewrite !length_map in H. }
  exists l, l'. unfold list_genome_jobs. rewrite Hl, Hl'.
  rewrite (Hlen _ _ Hkeys), (Hlen _ _ Hkeys').
  split; [reflexivity|]. split; [reflexivity|]. split; [exact Hkeys|].
  assert (Hpre : map js_job_id l `prefix_of` map js_job_id l').
  { exists new. now rewrite Hkeys', Hkeys, Hnew. }
  split; [exact Hpre|].
  apply prefix_length in Hpre. now rewrite !length_map in Hpre.
Qed.

(** ** More about the turns of a chat *)

Lemma detect_never_error (m : string) : _detect_action_type m <> error_action.
Proof.
  unfold _detect_action_type.
  repeat (match goal with
          | |- context [any_in ?l (lower m)] => destruct (any_in l (lower m))
          end; try discriminate).
Qed.

(** What one call of [chat] appends: the user entry, and the assistant entry
    when the call succeeded. *)
Lemma chat_appends (E : env) (self : PixaroBrandAssistant) (now : nat) (m : string) :
  exists tail,
    conversation_history (fst (chat E self now m))
    = (conversation_history self ++ user_entry now m :: tail)%list /\
    length tail = (if successful (snd (chat E self now m)) then 1 else 0) /\
    Forall (fun entry => msg_role entry = assistant) tail.
Proof.
  unfold chat, user_entry.
  set (self1 := append_message self _).
  destruct (match _detect_action_type m with
            | generate_image_action => _
            | _ => None
            end) as [[url prompt]|] eqn:Himg.
  - destruct (_detect_action_type m) eqn:Hd; try discriminate Himg.
    eexists. cbn. rewrite <- app_assoc. cbn.
    split; [reflexivity|]. split; [reflexivity|]. repeat constructor.
  - destruct (_build_system_prompt self1) as [p|e].
    + destruct (completions_create E p (history_for_openai self1)) as [text|e].
      * pose proof (detect_never_error m) as Hne.
        eexists. cbn. rewrite <- app_assoc. cbn.
        split; [reflexivity|].
        destruct (_detect_action_type m); try contradiction;
          (split; [reflexivity | repeat constructor]).
      * exists []. cbn. auto.
    + exists []. cbn. auto.
Qed.

(** X10. Whatever the services answer, the history of a session only grows:
    the earlier history stays at the front, and after any calls its length
    has grown by one entry per call plus one entry per successful call. *)
Theorem X10_history_only_grows (turns : list turn) (self : PixaroBrandAssistant) :
  conversation_history self `prefix_of` conversation_history (fst (chat_turns turns self)) /\
  length (conversation_history (fst (chat_turns turns self)))
  = length (conversation_history self) + length turns
    + length (filter (fun r => successful r = true) (snd (chat_turns turns self))).
Proof.
  revert self. induction turns as [|t rest IH]; intros self.
  - cbn. split; [reflexivity | lia].
  - rewrite chat_turns_cons. cbn [fst snd].
    destruct (chat_appends (turn_env t) self (turn_now t) (turn_message t))
      as (tail & Hh & Hlen & _).
    destruct (IH (fst (chat (turn_env t) self (turn_now t) (turn_message t))))
      as [Hpre Hl].
    split.
    + etransitivity; [|exact Hpre]. rewrite Hh. now apply prefix_app_r.
    + rewrite Hl, Hh, length_app. cbn [length]. rewrite Hlen.
      rewrite filter_cons.
      destruct (successful (snd (chat (turn_env t) self (turn_now t) (turn_message t))));
        [rewrite decide_True by reflexivity | rewrite decide_False by discriminate];
        cbn [length]; lia.
Qed.

(** X11. With the context a session has in a reachable state, [chat] always
    returns a reply; its category is ["error"] exactly when the generation
    call failed, and otherwise it is the category of the classifier, which
    is never ["error"]. *)
Theorem X11_error_category_iff_generation_failed
    (E : env) (self : PixaroBrandAssistant) (now : nat) (m : string) :
  brand_context self = ∅ \/ brand_context self = empty_context ->
  exists reply,
    snd (chat E self now m) = Ok reply /\
    (reply_action_type reply = error_action <->
     exists e, generation_fails E self now m e) /\
    (reply_action_type reply <> error_action ->
     reply_action_type reply = _detect_action_type m) /\
    _detect_action_type m <> error_action.
Proof.
  intros Hctx.
  destruct (build_system_prompt_ok (append_message self (user_entry now m)) Hctx)
    as [prompt Hp].
  pose proof (detect_never_error m) as Hne.
  unfold generation_fails, completion_outcome, chat, generate_image.
  fold (user_entry now m).
  set (self1 := append_message self (user_entry now m)) in *.
  rewrite Hp.
  destruct (_detect_action_type m) eqn:Hd; try contradiction;
    try (destruct (completions_create E prompt (history_for_openai self1)) as [text|e];
         eexists; (split; [reflexivity|]); cbn [reply_action_type];
         (split; [split; [discriminate || eauto | intros [e' H]; congruence || reflexivity]|]);
         (split; [reflexivity || contradiction | discriminate])).
  destruct (images_generate E (brand_context self1) m) as [url|e0].
  - eexists. split; [reflexivity|]. cbn [reply_action_type].
    split; [split; [discriminate | intros [e' H]; discriminate]|].
    split; [reflexivity | discriminate].
  - destruct (completions_create E prompt (history_for_openai self1)) as [text|e];
      eexists; (split; [reflexivity|]); cbn [reply_action_type];
      (split; [split; [discriminate || eauto | intros [e' H]; congruence || reflexivity]|]);
      (split; [reflexivity || contradiction | discriminate]).
Qed.

Lemma X11_error_category_iff_generation_failed_witness :
  let self := new_assistant "acme" None 0 in
  (brand_context self = ∅ \/ brand_context self = empty_context) /\
  exists reply, snd (chat no_completion self 1 "hello") = Ok reply /\
                reply_action_type reply = error_action.
Proof.
  intros self.
  assert (H : brand_context self = ∅ \/ brand_context self = empty_context)
    by (left; reflexivity).
  split; [exact H|].
  destruct (X11_error_category_iff_generation_failed no_completion self 1 "hello" H)
    as (reply & Hr & Hiff & _).
  exists reply. split; [exact Hr|]. apply Hiff.
  exists "Request timed out.". vm_compute. reflexivity.
Defined.

(** X12. A message classified as an image request whose image call succeeds
    is answered without any completion call: the reply and the assistant
    entry of the history carry the address of the image. A reply carries an
    image address only in that case; in particular, when the image call
    fails the turn is answered like any other message. *)
Theorem X12_image_turn (E : env) (self : PixaroBrandAssistant) (now : nat) (m : string) :
  (forall url,
     _detect_action_type m = generate_image_action ->
     images_generate E (brand_context self) m = Ok url ->
     chat E self now m
     = (append_message (append_message self (user_entry now m))
          {| msg_role := assistant; msg_content := image_reply_text m;
             msg_timestamp := now; msg_image_url := Some url |},
        Ok {| response := image_reply_text m;
              reply_action_type := generate_image_action; needs_report := false;
              image_url := Some url; reply_timestamp := now |}) /\
     completion_outcome E self now m = None) /\
  (forall reply url,
     snd (chat E self now m) = Ok reply -> image_url reply = Some url ->
     _detect_action_type m = generate_image_action /\
     images_generate E (brand_context self) m = Ok url) /\
  (forall e,
     images_generate E (brand_context self) m = Raise e ->
     forall reply, snd (chat E self now m) = Ok reply -> image_url reply = None).
Proof.
  unfold chat, completion_outcome, generate_image. fold (user_entry now m).
  set (self1 := append_message self (user_entry now m)).
  change (brand_context self1) with (brand_context self).
  split; [|split].
  - intros url Hd Hi. rewrite Hd, Hi. split; reflexivity.
  - intros reply url.
    destruct (_detect_action_type m);
      try (destruct (_build_system_prompt self1) as [p|e]; [|discriminate];
           destruct (completions_create E p (history_for_openai self1));
           intros H; injection H as <-; discriminate).
    destruct (images_generate E (brand_context self) m) as [url'|e].
    + intros H. injection H as <-. cbn. intros H. injection H as <-. auto.
    + destruct (_build_system_prompt self1) as [p|e']; [|discriminate].
      destruct (completions_create E p (history_for_openai self1));
        intros H; injection H as <-; discriminate.
  - intros e Hi reply. rewrite Hi.
    destruct (_detect_action_type m);
      (destruct (_build_system_prompt self1) as [p|e']; [|discriminate];
       destruct (completions_create E p (history_for_openai self1));
       intros H; injection H as <-; reflexivity).
Qed.

Lemma X12_image_turn_witness :
  _detect_action_type "Generate an image of a cat" = generate_image_action /\
  images_generate good_services (brand_context (new_assistant "acme" None 0))
    "Generate an image of a cat" = Ok "https://images.example/1.png" /\
  completion_outcome good_services (new_assistant "acme" None 0) 1
    "Generate an image of a cat" = None.
Proof.
  assert (Hd : _detect_action_type "Generate an image of a cat" = generate_image_action)
    by reflexivity.
  assert (Hi : images_generate good_services (brand_context (new_assistant "acme" None 0))
                 "Generate an image of a cat" = Ok "https://images.example/1.png")
    by reflexivity.
  split; [exact Hd|]. split; [exact Hi|].
  exact (proj2 (proj1 (X12_image_turn good_services (new_assistant "acme" None 0) 1
                         "Generate an image of a cat") _ Hd Hi)).
Defined.

(** ** The report flag of a reply *)

Lemma string_app_assoc (a b c : string) : (a ++ b) ++ c = a ++ (b ++ c).
Proof.
  induction a as [|x a IH]; [reflexivity|].
  change (String x ((a ++ b) ++ c) = String x (a ++ (b ++ c))). now rewrite IH.
Qed.

Lemma contains_trans (q p s : string) :
  contains q p = true -> contains p s = true -> contains q s = true.
Proof.
  rewrite !contains_spec. intros (a & b & ->) (c & d & ->).
  exists (c ++ a), (b ++ d). now rewrite !string_app_assoc.
Qed.

(** X13. When a message is answered by a completion, the reply asks for a
    report exactly when the lower-cased text contains "report" together
    with "generate" or "send". So the phrases "generate report" and "send
    report", which classify the message as a report request, always set the
    flag, and the error reply and the image reply never set it. *)
Theorem X13_needs_report_flag (E : env) (self : PixaroBrandAssistant) (now : nat)
    (m text : string) :
  completion_outcome E self now m = Some (Ok text) ->
  exists reply,
    snd (chat E self now m) = Ok reply /\
    (needs_report reply = true <->
     contains "report" (lower m) = true /\
     (contains "generate" (lower m) = true \/ contains "send" (lower m) = true)) /\
    (contains "generate report" (lower m) = true \/
     contains "send report" (lower m) = true ->
     needs_report reply = true /\
     (any_in image_phrases (lower m) = false -> reply_action_type reply = generate_report)).
Proof.
  unfold completion_outcome, chat, generate_image. fold (user_entry now m).
  set (self1 := append_message self (user_entry now m)).
  set (flag := contains "report" (lower m) &&
               (contains "generate" (lower m) || contains "send" (lower m))).
  assert (Hflag : flag = true <->
            contains "report" (lower m) = true /\
            (contains "generate" (lower m) = true \/ contains "send" (lower m) = true)).
  { unfold flag. now rewrite andb_true_iff, orb_true_iff. }
  assert (Hphrase : contains "generate report" (lower m) = true \/
                    contains "send report" (lower m) = true -> flag = true).
  { intros H. apply Hflag. destruct H as [H|H]; split;
      try (eapply contains_trans; [|exact H]; reflexivity);
      [left | right]; (eapply contains_trans; [|exact H]; reflexivity). }
  assert (Hreport : contains "generate report" (lower m) = true \/
                    contains "send report" (lower m) = true ->
                    any_in image_phrases (lower m) = false ->
                    _detect_action_type m = generate_report).
  { intros H Himg. unfold _detect_action_type. rewrite Himg.
    replace (any_in report_phrases (lower m)) with true; [reflexivity|].
    symmetry. destruct H as [H|H];
      (eapply any_in_intro; [|exact H]); cbn; auto. }
  assert (Hmain : forall a,
    match _build_system_prompt self1 with
    | Ok prompt => Some (completions_create E prompt (history_for_openai self1))
    | Raise _ => None
    end = Some (Ok text) ->
    a = _detect_action_type m ->
    exists reply,
      snd (match _build_system_prompt self1 with
           | Ok prompt =>
             match completions_create E prompt (history_for_openai self1) with
             | Ok assistant_response =>
               (append_message self1
                  {| msg_role := assistant; msg_content := assistant_response;
                     msg_timestamp := now; msg_image_url := None |},
                Ok {| response := assistant_response; reply_action_type := a;
                      needs_report := flag; image_url := None; reply_timestamp := now |})
             | Raise e =>
               (self1,
                Ok {| response := error_reply_text e (brand_handle self1);
                      reply_action_type := error_action; needs_report := false;
                      image_url := None; reply_timestamp := now |})
             end
           | Raise e => (self1, Raise e)
           end) = Ok reply /\
      (needs_report reply = true <->
       contains "report" (lower m) = true /\
       (contains "generate" (lower m) = true \/ contains "send" (lower m) = true)) /\
      (contains "generate report" (lower m) = true \/
       contains "send report" (lower m) = true ->
       needs_report reply = true /\
       (any_in image_phrases (lower m) = false -> reply_action_type reply = generate_report))).
  { intros a H Ha. destruct (_build_system_prompt self1) as [p|e]; [|discriminate].
    injection H as ->. eexists. split; [reflexivity|]. cbn [needs_report reply_action_type].
    split; [exact Hflag|]. intros Hp. split; [now apply Hphrase|].
    intros Himg. rewrite Ha. now apply Hreport. }
  destruct (_detect_action_type m) eqn:Hd; try (intros H; now apply Hmain).
  destruct (images_generate E (brand_context self1) m) as [url|e]; [discriminate|].
  intros H. now apply Hmain.
Qed.

Lemma X13_needs_report_flag_witness :
  completion_outcome good_services (new_assistant "acme" None 0) 1 "Please SEND REPORT now"
  = Some (Ok "Here is a plan.") /\
  exists reply,
    snd (chat good_services (new_assistant "acme" None 0) 1 "Please SEND REPORT now")
    = Ok reply /\ needs_report reply = true.
Proof.
  assert (H : completion_outcome good_services (new_assistant "acme" None 0) 1
                "Please SEND REPORT now" = Some (Ok "Here is a plan."))
    by (vm_compute; reflexivity).
  split; [exact H|].
  destruct (X13_needs_report_flag _ _ _ _ _ H) as (reply & Hr & _ & Hp).
  exists reply. split; [exact Hr|]. apply Hp. right. reflexivity.
Defined.

Example email_report_is_a_report_request_without_flag :
  _detect_action_type "email report please" = generate_report /\
  match snd (chat good_services (new_assistant "acme" None 0) 1 "email report please") with
  | Ok reply => Some (reply_action_type reply, needs_report reply)
  | Raise _ => None
  end = Some (generate_report, false).
Proof. vm_compute. auto. Qed.

(** ** Ending a session *)

(** X14. Ending an unknown session answers 404 and changes nothing. Ending
    a known session removes it whether or not the export of its conversation
    worked (the answer carries the export path only when it did), leaves
    the other sessions and the jobs alone, and from then on every chat
    endpoint answers 404 for that identifier. *)
Theorem X14_ended_session_is_gone (E : env) (sid : string) (w : world) :
  (chat_sessions w !! sid = None ->
   end_chat_session E sid w = (w, HttpError 404 "Session not found")) /\
  (forall session, chat_sessions w !! sid = Some session ->
     let w' := fst (end_chat_session E sid w) in
     snd (end_chat_session E sid w)
     = HttpOk (match export_conversation E (cs_assistant session) with
               | Ok path => Some path
               | Raise _ => None
               end) /\
     chat_sessions w' !! sid = None /\
     (forall sid', sid' <> sid -> chat_sessions w' !! sid' = chat_sessions w !! sid') /\
     genome_jobs w' = genome_jobs w /\
     background_tasks w' = background_tasks w /\
     (forall E' m,
        send_chat_message E' sid m w'
        = (w', HttpError 404 "Session not found. Please initialize chat first.")) /\
     get_chat_history sid w' = HttpError 404 "Session not found" /\
     (forall em id,
        generate_chat_report sid em id w' = (w', HttpError 404 "Session not found")) /\
     (forall E', end_chat_session E' sid w' = (w', HttpError 404 "Session not found"))).
Proof.
  split.
  - intros H. unfold end_chat_session. now rewrite H.
  - intros session H w'. subst w'. unfold end_chat_session at 1 2. rewrite H.
    cbn [fst snd]. split; [reflexivity|].
    set (w' := {| genome_jobs := genome_jobs w;
                  chat_sessions := delete sid (chat_sessions w);
                  background_tasks := background_tasks w; clock := S (clock w) |}).
    assert (Hgone : chat_sessions w' !! sid = None) by apply lookup_delete_eq.
    replace (fst (end_chat_session E sid w)) with w'
      by (unfold end_chat_session; now rewrite H).
    split; [exact Hgone|]. split; [|split; [reflexivity|split; [reflexivity|]]].
    + intros sid' Hne. cbn. now rewrite lookup_delete_ne by congruence.
    + split; [|split; [|split]].
      * intros E' m. unfold send_chat_message. now rewrite Hgone.
      * unfold get_chat_history. now rewrite Hgone.
      * intros em id. unfold generate_chat_report. now rewrite Hgone.
      * intros E'. unfold end_chat_session. now rewrite Hgone.
Qed.

Lemma X14_ended_session_is_gone_witness :
  exists session,
    chat_sessions one_session_world !! "session-1" = Some session /\
    get_chat_history "session-1" (fst (end_chat_session good_services "session-1"
                                         one_session_world))
    = HttpError 404 "Session not found".
Proof.
  destruct (chat_sessions one_session_world !! "session-1") as [session|] eqn:Hs.
  - exists session. split; [reflexivity|].
    exact (proj1 (proj2 (proj2 (proj2 (proj2 (proj2 (proj2
             (proj2 (X14_ended_session_is_gone good_services "session-1"
                       one_session_world) session Hs)))))))).
  - exfalso.
    assert (H : match chat_sessions one_session_world !! "session-1" with
                | Some _ => true
                | None => false
                end = true) by (vm_compute; reflexivity).
    rewrite Hs in H. discriminate.
Defined.

(** ** Reading the history of a session *)

(** X15. After a message was sent to a known session, the history endpoint
    returns the conversation the assistant holds: the earlier conversation
    followed by the user entry of the message (and by what the turn added
    after it), with the creation time unchanged and the last activity set
    to the time of the message, also when the turn ended in an error. *)
Theorem X15_history_after_message (E : env) (sid m : string) (w : world)
    (session : chat_session) :
  chat_sessions w !! sid = Some session ->
  get_chat_history sid w
  = HttpOk {| ch_session_id := sid; ch_brand_handle := cs_brand_handle session;
              ch_conversation := conversation_history (cs_assistant session);
              ch_created_at := cs_created_at session;
              ch_last_activity := cs_last_activity session |} /\
  exists tail,
    get_chat_history sid (fst (send_chat_message E sid m w))
    = HttpOk {| ch_session_id := sid; ch_brand_handle := cs_brand_handle session;
                ch_conversation :=
                  (conversation_history (cs_assistant session)
                   ++ user_entry (clock w) m :: tail)%list;
                ch_created_at := cs_created_at session;
                ch_last_activity := clock w |} /\
    length tail = (if successful (snd (chat E (cs_assistant session) (clock w) m))
                   then 1 else 0) /\
    Forall (fun entry => msg_role entry = assistant) tail.
Proof.
  intros Hs. split; [unfold get_chat_history; now rewrite Hs|].
  destruct (chat_appends E (cs_assistant session) (clock w) m) as (tail & Hh & Hlen & Hall).
  exists tail. split; [|split; assumption].
  unfold send_chat_message. rewrite Hs.
  destruct (chat E (cs_assistant session) (clock w) m) as [a r] eqn:Hchat.
  cbn [fst] in *. unfold get_chat_history. cbn [chat_sessions].
  rewrite lookup_insert_eq. cbn. unfold get_conversation_history. now rewrite Hh.
Qed.

Lemma X15_history_after_message_witness :
  exists session,
    chat_sessions one_session_world !! "session-1" = Some session /\
    get_chat_history "session-1" one_session_world
    = HttpOk {| ch_session_id := "session-1"; ch_brand_handle := cs_brand_handle session;
                ch_conversation := conversation_history (cs_assistant session);
                ch_created_at := cs_created_at session;
                ch_last_activity := cs_last_activity session |}.
Proof.
  destruct (chat_sessions one_session_world !! "session-1") as [session|] eqn:Hs.
  - exists session. split; [reflexivity|].
    exact (proj1 (X15_history_after_message good_services "session-1" "hello"
                    one_session_world session Hs)).
  - exfalso.
    assert (H : match chat_sessions one_session_world !! "session-1" with
                | Some _ => true
                | None => false
                end = true) by (vm_compute; reflexivity).
    rewrite Hs in H. discriminate.
Defined.

(** ** A report requested from a chat *)

Lemma chat_init_with_completed_job (E : env) (sid h id b : string) (w : world)
    (job : gmap string value) :
  jobs_readable w -> openai_new E = Ok tt ->
  jobs_lookup id (genome_jobs w) = Some job ->
  job !! "status" = Some (VStatus COMPLETED) ->
  job !! "brand_input" = Some (VStr b) -> lower b = lower h ->
  exists w' r, initialize_chat E sid h w = (w', HttpOk r) /\ ci_has_context r = true.
Proof.
  intros Hjobs Hopen Hlook Hst Hb Hlow.
  unfold initialize_chat. rewrite (find_brand_job_readable h _ Hjobs), Hopen.
  eexists _, _. split; [reflexivity|]. cbn. apply bool_decide_eq_true.
  destruct (find (job_matches h) (genome_jobs w)) as [kj|] eqn:Hfind; [discriminate|].
  exfalso. apply jobs_lookup_In in Hlook.
  pose proof (find_none _ _ Hfind _ Hlook) as Hno.
  unfold job_matches, brand_input_lower in Hno. cbn [snd] in Hno.
  rewrite Hb, Hlow, String.eqb_refl, Hst in Hno. discriminate.
Qed.

(** X16. A report requested from a known chat session creates a pending job
    for the brand of the session, marked as coming from that chat, without
    touching the sessions, and schedules its run with automatic input
    type. Once that run has gone through, in a reachable state, the job is
    [COMPLETED] and a chat opened for the same brand, in any letter case,
    reports [has_context = true]. A request from an unknown session answers
    404 and creates nothing. *)
Theorem X16_report_from_chat
    (ops : list op) (E E' : env) (sid sid' em id pdf h : string) (session : chat_session) :
  let w := exec ops initial_world in
  chat_sessions w !! sid = Some session ->
  stages_succeed E id (cs_brand_handle session) "auto" pdf ->
  openai_new E' = Ok tt ->
  lower h = lower (cs_brand_handle session) ->
  let w1 := fst (generate_chat_report sid em id w) in
  let w2 := run_task E (length (background_tasks w)) w1 in
  snd (generate_chat_report sid em id w) = HttpOk id /\
  chat_sessions w1 = chat_sessions w /\
  background_tasks w1
  = (background_tasks w
     ++ [{| task_job_id := id; task_brand_input := cs_brand_handle session;
            task_input_type := "auto"; task_email := em |}])%list /\
  (exists job,
     jobs_lookup id (genome_jobs w1) = Some job /\
     job_status job = Some PENDING /\
     job !! "brand_input" = Some (VStr (cs_brand_handle session)) /\
     job !! "email" = Some (VStr em) /\
     job !! "from_chat" = Some (VBool true) /\
     job !! "chat_session_id" = Some (VStr sid)) /\
  status_of id w2 = Some COMPLETED /\
  (exists w3 r, initialize_chat E' sid' h w2 = (w3, HttpOk r) /\ ci_has_context r = true) /\
  (forall w0 sid0, chat_sessions w0 !! sid0 = None ->
     generate_chat_report sid0 em id w0 = (w0, HttpError 404 "Session not found")).
Proof.
  intros w Hs Hstages Hopen Hlow w1 w2.
  assert (Hw : jobs_readable w) by (apply jobs_readable_exec; constructor).
  assert (Hw2 : jobs_readable w2).
  { subst w2 w1.
    apply (jobs_readable_step (OpRunTask E (length (background_tasks w)))).
    apply (jobs_readable_step (OpChatReport sid em id)). exact Hw. }
  subst w2 w1. unfold generate_chat_report at 1 2 3 4 5 6. rewrite Hs. cbn [fst snd].
  split; [reflexivity|]. split; [reflexivity|]. split; [reflexivity|]. split.
  { eexists. cbn [genome_jobs]. split; [apply jobs_lookup_set_eq|].
    split; [apply new_chat_job_pending|]. unfold new_chat_job. repeat split; lookup_job. }
  revert Hw2. unfold generate_chat_report. rewrite Hs. cbn [fst].
  unfold run_task, take_task. cbn [background_tasks genome_jobs chat_sessions clock].
  rewrite lookup_app_end, take_drop_end.
  unfold run_task_state. cbn [task_job_id task_brand_input task_input_type task_email
                              genome_jobs clock].
  rewrite jobs_lookup_set_eq.
  set (j0 := new_chat_job id (cs_brand_handle session) em sid (clock w)).
  destruct (run_stages_succeed E (S (clock w)) id (cs_brand_handle session) "auto" em
              j0 pdf Hstages)
    as (_ & (j' & Hj' & Hst & _) & _).
  pose proof (run_keeps_other_keys E (S (clock w)) id (cs_brand_handle session) "auto" em
                j0 j' "brand_input" ltac:(discriminate) ltac:(discriminate)
                ltac:(discriminate) ltac:(discriminate) ltac:(discriminate)
                ltac:(discriminate) Hj') as Hb.
  rewrite Hj'.
  match goal with |- jobs_readable ?x -> _ => set (w2 := x) end.
  intros Hw2.
  assert (Hlook : jobs_lookup id (genome_jobs w2) = Some j')
    by (subst w2; cbn [genome_jobs tick put_job]; apply jobs_lookup_set_eq).
  split; [unfold status_of; rewrite Hlook; cbn; unfold job_status; now rewrite Hst|].
  split.
  - apply (chat_init_with_completed_job E' sid' h id (cs_brand_handle session) w2 j');
      auto.
  - intros w0 sid0 H0. now rewrite H0.
Qed.

Lemma X16_report_from_chat_witness :
  exists session,
    chat_sessions one_session_world !! "session-1" = Some session /\
    snd (generate_chat_report "session-1" "user@x.com" "job-7" one_session_world)
    = HttpOk "job-7".
Proof.
  destruct (chat_sessions one_session_world !! "session-1") as [session|] eqn:Hs.
  - exists session. split; [reflexivity|].
    assert (Hh : cs_brand_handle session = "acme").
    { assert (H : match chat_sessions one_session_world !! "session-1" with
                  | Some s => cs_brand_handle s
                  | None => ""
                  end = "acme") by (vm_compute; reflexivity).
      rewrite Hs in H. exact H. }
    assert (Hst : stages_succeed good_services "job-7" (cs_brand_handle session) "auto"
                    "outputs/genome_job-7.pdf").
    { rewrite Hh. split; [reflexivity|].
      exists "brand-dna", "competitor-intel", "growth-roadmap", "content-strategy".
      repeat split; reflexivity. }
    assert (Hlow : lower "ACME" = lower (cs_brand_handle session))
      by (rewrite Hh; reflexivity).
    exact (proj1 (X16_report_from_chat [OpChatInit good_services "session-1" "acme"]
                    good_services good_services "session-1" "session-2" "user@x.com"
                    "job-7" _ "ACME" session Hs Hst eq_refl Hlow)).
  - exfalso.
    assert (H : match chat_sessions one_session_world !! "session-1" with
                | Some _ => true
                | None => false
                end = true) by (vm_compute; reflexivity).
    rewrite Hs in H. discriminate.
Defined.

(** ** Collecting the data of a brand *)

Lemma contains_char (c : ascii) (s : string) :
  contains (String c "") s
  = match s with
    | EmptyString => false
    | String a s' => Ascii.eqb c a || contains (String c "") s'
    end.
Proof.
  destruct s as [|a s']; [reflexivity|]. cbn [contains startswith].
  destruct (Ascii.eqb c a); [|reflexivity]. now destruct s'.
Qed.

Lemma remove_char_absent (c : ascii) (s : string) :
  contains (String c "") (remove_char c s) = false.
Proof.
  induction s as [|a s IH]; [reflexivity|]. cbn [remove_char].
  destruct (Ascii.eqb a c) eqn:Hac; [exact IH|].
  rewrite contains_char, IH, orb_false_r, Ascii.eqb_sym. exact Hac.
Qed.

Lemma contains_char_app (c : ascii) (a b : string) :
  contains (String c "") (a ++ b)
  = contains (String c "") a || contains (String c "") b.
Proof.
  induction a as [|x a IH]; [reflexivity|].
  change (String x a ++ b) with (String x (a ++ b)).
  rewrite (contains_char c (String x (a ++ b))), (contains_char c (String x a)), IH.
  now rewrite orb_assoc.
Qed.

Lemma lower_app (a b : string) : lower (a ++ b) = lower a ++ lower b.
Proof.
  induction a as [|x a IH]; [reflexivity|].
  change (String x a ++ b) with (String x (a ++ b)). cbn [lower].
  rewrite IH. reflexivity.
Qed.

Lemma lower_ascii_space (a : ascii) :
  Ascii.eqb (lower_ascii a) " " = Ascii.eqb a " ".
Proof. destruct a as [[] [] [] [] [] [] [] []]; reflexivity. Qed.

Lemma remove_space_lower (s : string) :
  remove_char " " (lower s) = lower (remove_char " " s).
Proof.
  induction s as [|a s IH]; [reflexivity|]. cbn [lower remove_char].
  rewrite lower_ascii_space. destruct (Ascii.eqb a " "); [exact IH|].
  cbn [lower]. now rewrite IH.
Qed.

Lemma remove_char_idem (c : ascii) (s : string) :
  remove_char c (remove_char c s) = remove_char c s.
Proof.
  induction s as [|a s IH]; [reflexivity|]. cbn [remove_char].
  destruct (Ascii.eqb a c) eqn:Hac; [exact IH|]. cbn [remove_char].
  now rewrite Hac, IH.
Qed.

(** X17. The address guessed for a brand name is "https://www." followed by
    the name in lower case without its spaces and by ".com": it contains no
    space and no upper-case letter, and it is the same for names that differ
    only in letter case or in spaces. *)
Theorem X17_guessed_website (name : string) :
  startswith "https://www." (_find_brand_website name) = true /\
  contains " " (_find_brand_website name) = false /\
  lower (_find_brand_website name) = _find_brand_website name /\
  _find_brand_website (lower name) = _find_brand_website name /\
  _find_brand_website (remove_char " " name) = _find_brand_website name.
Proof.
  unfold _find_brand_website. split; [|split; [|split; [|split]]].
  - apply startswith_spec. eexists. reflexivity.
  - rewrite !contains_char_app, remove_char_absent. reflexivity.
  - rewrite !lower_app, remove_space_lower, lower_idem. reflexivity.
  - now rewrite lower_idem.
  - now rewrite <- !remove_space_lower, remove_char_idem.
Qed.

Example guessed_website_of_a_name :
  _find_brand_website "Blue Bottle Coffee" = "https://www.bluebottlecoffee.com".
Proof. reflexivity. Qed.

(** The address looks like a website: one of the three prefixes. *)
Lemma detect_website (b : string) :
  _detect_input_type b = "website" <->
  startswith "http://" b || startswith "https://" b || startswith "www." b = true.
Proof.
  unfold _detect_input_type.
  destruct (startswith "http://" b || startswith "https://" b || startswith "www." b).
  - split; reflexivity.
  - split; [|discriminate].
    destruct (startswith "@" b); [|discriminate].
    destruct (contains "instagram" b || contains "insta" b); [discriminate|].
    destruct (contains "twitter" b || contains "x.com" b); discriminate.
Qed.

Ltac collect_simpl :=
  cbn [String.eqb Ascii.eqb Bool.eqb orb andb bd_brand_input bd_brand_name
       bd_website_data bd_social_data website_title].

(** X18. With automatic input type, an input with a website prefix is
    scraped at its own address (with "https://" in front when it does not
    start with "http") and the brand is named by the page title, or by the
    input itself when the scrape fails; an "@" handle that mentions "insta",
    "twitter" or "x.com" is not scraped and is named by the handle without
    its "@" signs; every other input, other "@" handles included, keeps its
    text as name and is scraped at the guessed address. *)
Theorem X18_collect_with_automatic_type (E : env) (b : string) :
  let d := collect_brand_data E b "auto" in
  let is_site := startswith "http://" b || startswith "https://" b || startswith "www." b in
  let is_social := startswith "@" b &&
                   (contains "insta" b || contains "twitter" b || contains "x.com" b) in
  let address := if startswith "http" b then b else "https://" ++ b in
  bd_brand_input d = b /\
  (is_site = true ->
   bd_social_data d = NoSocial /\
   (forall title details, http_get E address = Ok (title, details) ->
      bd_website_data d = WebPage address title details /\ bd_brand_name d = title) /\
   (forall e, http_get E address = Raise e ->
      bd_website_data d = WebError address e /\ bd_brand_name d = b)) /\
  (is_site = false -> is_social = true ->
   bd_website_data d = NoWebsite /\
   (exists platform, bd_social_data d = Social platform b /\
                     (platform = "instagram" \/ platform = "twitter")) /\
   bd_brand_name d = remove_char "@" b /\
   contains "@" (bd_brand_name d) = false) /\
  (is_site = false -> is_social = false ->
   bd_brand_name d = b /\ bd_social_data d = NoSocial /\
   bd_website_data d = _scrape_website E (_find_brand_website b)).
Proof.
  cbv zeta.
  assert (Hinsta : contains "instagram" b = true -> contains "insta" b = true)
    by (intros H; eapply contains_trans; [|exact H]; reflexivity).
  unfold collect_brand_data, _detect_input_type.
  destruct (startswith "http://" b || startswith "https://" b || startswith "www." b)
    eqn:Hsite.
  - collect_simpl. split; [reflexivity|]. split; [|split; discriminate].
    intros _. split; [reflexivity|]. unfold _scrape_website. split.
    + intros title details ->. split; reflexivity.
    + intros e ->. split; reflexivity.
  - destruct (startswith "@" b); cbn [andb].
    2:{ collect_simpl. split; [reflexivity|]. split; [discriminate|].
        split; [discriminate|]. intros _ _. auto. }
    destruct (contains "instagram" b) eqn:Hig.
    + rewrite (Hinsta eq_refl). collect_simpl.
      split; [reflexivity|]. split; [discriminate|]. split; [|discriminate].
      intros _ _. split; [reflexivity|]. split; [eauto|]. split; [reflexivity|].
      apply remove_char_absent.
    + destruct (contains "insta" b); cbn [orb].
      * collect_simpl.
        split; [reflexivity|]. split; [discriminate|]. split; [|discriminate].
        intros _ _. split; [reflexivity|]. split; [eauto|]. split; [reflexivity|].
        apply remove_char_absent.
      * destruct (contains "twitter" b || contains "x.com" b); collect_simpl.
        -- split; [reflexivity|]. split; [discriminate|]. split; [|discriminate].
           intros _ _. split; [reflexivity|]. split; [eauto|]. split; [reflexivity|].
           apply remove_char_absent.
        -- split; [reflexivity|]. split; [discriminate|].
           split; [discriminate|]. intros _ _. auto.
Qed.

Lemma X18_collect_with_automatic_type_witness :
  startswith "http://" "@acme_insta" || startswith "https://" "@acme_insta"
  || startswith "www." "@acme_insta" = false /\
  bd_brand_name (collect_brand_data good_services "@acme_insta" "auto") = "acme_insta".
Proof.
  assert (H1 : startswith "http://" "@acme_insta" || startswith "https://" "@acme_insta"
               || startswith "www." "@acme_insta" = false) by reflexivity.
  split; [exact H1|].
  exact (proj1 (proj2 (proj2 (proj1 (proj2 (proj2
           (X18_collect_with_automatic_type good_services "@acme_insta"))) H1 eq_refl)))).
Defined.

Example plain_handle_is_treated_as_a_name :
  let d := collect_brand_data good_services "@acme" "auto" in
  bd_brand_name d = "@acme" /\ bd_social_data d = NoSocial /\
  bd_website_data d = WebPage "https://www.@acme.com" "Acme Inc" "We make everything".
Proof. vm_compute. auto. Qed.

(** ** Parsing the generated Instagram posts *)

Lemma lower_ascii_colon (a : ascii) :
  Ascii.eqb ":" (lower_ascii a) = Ascii.eqb ":" a.
Proof. destruct a as [[] [] [] [] [] [] [] []]; reflexivity. Qed.

Lemma contains_colon_lower (s : string) : contains ":" (lower s) = contains ":" s.
Proof.
  induction s as [|a s IH]; [reflexivity|]. cbn [lower].
  rewrite (contains_char ":" (String (lower_ascii a) (lower s))),
          (contains_char ":" (String a s)), IH, lower_ascii_colon.
  reflexivity.
Qed.

Lemma after_colon_contains (s : string) :
  after_colon s = None <-> contains ":" s = false.
Proof.
  induction s as [|a s IH]; [split; reflexivity|].
  cbn [after_colon]. rewrite (contains_char ":" (String a s)), (Ascii.eqb_sym a ":").
  destruct (Ascii.eqb ":" a); cbn [orb]; [split; discriminate | exact IH].
Qed.

Lemma field_value_raises (line : string) :
  (exists e, field_value line = Raise e) <-> contains ":" line = false.
Proof.
  unfold field_value. rewrite <- after_colon_contains.
  destruct (after_colon line); split; try discriminate; eauto.
  intros [e H]. discriminate.
Qed.

Lemma field_value_message (line e : string) :
  field_value line = Raise e -> e = "list index out of range".
Proof. unfold field_value. destruct (after_colon line); congruence. Qed.

Lemma caption_has_colon (line : string) :
  contains "caption:" (lower line) = true -> contains ":" line = true.
Proof.
  intros H. rewrite <- contains_colon_lower.
  eapply contains_trans; [|exact H]. reflexivity.
Qed.

Lemma field_branch {A : Type} (line : string) (k : string -> A) :
  (exists e, match field_value line with
             | Raise e => Raise e
             | Ok v => Ok (k v)
             end = Raise e) <-> negb (contains ":" line) = true.
Proof.
  rewrite negb_true_iff, <- field_value_raises.
  destruct (field_value line) as [v|e]; split; intros [e' H]; try discriminate; eauto.
Qed.

(** Whether a round of the loop raises depends on the line only. *)
Lemma parse_line_raises (raw : string) (st : list post * post) :
  (exists e, parse_line raw st = Raise e) <-> line_raises raw = true.
Proof.
  unfold parse_line, line_raises. destruct st as [posts current].
  set (line := strip raw).
  destruct (startswith "Post " line || startswith "**Post" line); cbn [negb andb].
  { split; [intros [e H]; discriminate | discriminate]. }
  destruct (contains "caption:" (lower line)) eqn:Hcap; cbn [negb andb].
  { split; [|discriminate]. intros Hex. apply field_branch in Hex.
    rewrite (caption_has_colon _ Hcap) in Hex. discriminate. }
  destruct (contains "hashtag" (lower line)); cbn [orb andb].
  { apply field_branch. }
  destruct (contains "time" (lower line) || contains "posting" (lower line)) eqn:Ht.
  { cbn [orb andb]. apply field_branch. }
  cbn [orb].
  destruct (contains "type" (lower line)); cbn [andb].
  { apply field_branch. }
  split; [intros [e H]; discriminate | discriminate].
Qed.

Lemma parse_line_message (raw e : string) (st : list post * post) :
  parse_line raw st = Raise e -> e = "list index out of range".
Proof.
  unfold parse_line. destruct st as [posts current].
  repeat match goal with
         | |- context [if ?c then _ else _] => destruct c
         end; try discriminate;
    destruct (field_value (strip raw)) as [v|e'] eqn:Hv; try discriminate;
    intros H; injection H as <-; exact (field_value_message _ _ Hv).
Qed.

Lemma parse_lines_raises (lines : list string) (st : list post * post) :
  (exists e, parse_lines lines st = Raise e) <-> existsb line_raises lines = true.
Proof.
  revert st. induction lines as [|raw rest IH]; intros st; cbn [parse_lines existsb].
  - split; [intros [e H]; discriminate | discriminate].
  - rewrite orb_true_iff, <- (parse_line_raises raw st).
    destruct (parse_line raw st) as [st'|e] eqn:Hline.
    + rewrite IH. split; [auto | intros [[e H]|H]; [discriminate | exact H]].
    + split; eauto.
Qed.

Lemma parse_lines_message (lines : list string) (st : list post * post) (e : string) :
  parse_lines lines st = Raise e -> e = "list index out of range".
Proof.
  revert st. induction lines as [|raw rest IH]; intros st; cbn [parse_lines];
    [discriminate|].
  destruct (parse_line raw st) as [st'|e'] eqn:Hline.
  - apply IH.
  - intros H. injection H as <-. exact (parse_line_message _ _ _ Hline).
Qed.

(** X19. Parsing the posts raises exactly when some line of the answer,
    once stripped, is not a header, has no "caption:", mentions "hashtag",
    "time", "posting" or "type", and has no colon; the exception is the
    index error of the missing second part. A line with "caption:" never
    raises. *)
Theorem X19_parse_raises_on_field_without_colon (ai_response : string) :
  (existsb line_raises (split_on "010" ai_response) = true <->
   exists e, _parse_instagram_posts ai_response = Raise e) /\
  (forall e, _parse_instagram_posts ai_response = Raise e ->
     e = "list index out of range") /\
  (forall raw, contains "caption:" (lower (strip raw)) = true -> line_raises raw = false).
Proof.
  unfold _parse_instagram_posts. split; [|split].
  - rewrite <- (parse_lines_raises _ ([], empty_post)).
    destruct (parse_lines (split_on "010" ai_response) ([], empty_post))
      as [[posts current]|e].
    + split; [intros [e H]; discriminate|].
      destruct (flush_post posts current); intros [e H]; discriminate.
    + split; eauto.
  - intros e.
    destruct (parse_lines (split_on "010" ai_response) ([], empty_post))
      as [[posts current]|e'] eqn:Hp.
    + destruct (flush_post posts current); discriminate.
    + intros H. injection H as <-. exact (parse_lines_message _ _ _ Hp).
  - intros raw H. unfold line_raises. rewrite H.
    now destruct (startswith "Post " (strip raw) || startswith "**Post" (strip raw)).
Qed.

Example hashtag_line_without_colon_raises :
  _parse_instagram_posts ("Caption: hello" ++ String "010" "#hashtags for you")
  = Raise "list index out of range".
Proof. vm_compute. reflexivity. Qed.

(** A no-break space in front of a header is stripped, so the line is read
    as a header and not as a line about the posting time. *)
Example no_break_space_is_stripped :
  strip (String "160" "Post time") = "Post time" /\
  line_raises (String "160" "Post time") = false /\
  _parse_instagram_posts (String "160" "Post time")
  = Ok [fallback_post (String "160" "Post time")].
Proof. vm_compute. auto. Qed.

Lemma flush_post_nonempty (posts : list post) (current : post) :
  Forall (fun p => post_nonempty p = true /\ post_error p = None) posts ->
  post_error current = None ->
  Forall (fun p => post_nonempty p = true /\ post_error p = None) (flush_post posts current).
Proof.
  intros Hposts Herr. unfold flush_post.
  destruct (post_nonempty current) eqn:Hne; [|exact Hposts].
  apply Forall_app. split; [exact Hposts|]. constructor; [auto | constructor].
Qed.

Lemma parse_line_ok (raw : string) (st st' : list post * post) :
  parse_state_ok st -> parse_line raw st = Ok st' -> parse_state_ok st'.
Proof.
  unfold parse_line, parse_state_ok. destruct st as [posts current]. cbn [fst snd].
  intros [Hposts Herr].
  repeat match goal with
         | |- context [if ?c then _ else _] => destruct c
         end;
    try (destruct (field_value (strip raw)) as [v|e]; [|discriminate]);
    intros H; injection H as <-; cbn [fst snd post_error];
    auto using flush_post_nonempty.
Qed.

Lemma parse_lines_ok (lines : list string) (st st' : list post * post) :
  parse_state_ok st -> parse_lines lines st = Ok st' -> parse_state_ok st'.
Proof.
  revert st. induction lines as [|raw rest IH]; intros st Hst; cbn [parse_lines].
  - intros H. now injection H as <-.
  - destruct (parse_line raw st) as [st1|e] eqn:Hline; [|discriminate].
    apply IH. eapply parse_line_ok; eauto.
Qed.

Lemma parse_line_no_field (raw : string) :
  field_line raw = false ->
  parse_line raw ([], empty_post) = Ok ([], empty_post).
Proof.
  unfold field_line, parse_line. set (line := strip raw).
  destruct (startswith "Post " line || startswith "**Post" line); [reflexivity|].
  cbn [negb andb]. intros H.
  apply orb_false_elim in H as [H Htype]. apply orb_false_elim in H as [H Hpost].
  apply orb_false_elim in H as [H Htime]. apply orb_false_elim in H as [Hcap Hhash].
  now rewrite Hcap, Hhash, Htime, Hpost, Htype.
Qed.

Lemma parse_lines_no_field (lines : list string) :
  forallb (fun raw => negb (field_line raw)) lines = true ->
  parse_lines lines ([], empty_post) = Ok ([], empty_post).
Proof.
  induction lines as [|raw rest IH]; [reflexivity|]. cbn [forallb parse_lines].
  intros H. apply andb_prop in H as [Hraw Hrest]. apply negb_true_iff in Hraw.
  rewrite (parse_line_no_field raw Hraw). now apply IH.
Qed.

Lemma parsed_posts_ok (ai_response : string) (posts : list post) :
  _parse_instagram_posts ai_response = Ok posts ->
  posts <> [] /\
  Forall (fun p => post_nonempty p = true /\ post_error p = None) posts.
Proof.
  unfold _parse_instagram_posts.
  destruct (parse_lines (split_on "010" ai_response) ([], empty_post))
    as [[done current]|e] eqn:Hp; [|discriminate].
  assert (Hok : parse_state_ok (done, current)).
  { eapply parse_lines_ok; [|exact Hp]. split; [constructor | reflexivity]. }
  destruct Hok as [Hdone Herr]. cbn [fst snd] in *.
  pose proof (flush_post_nonempty done current Hdone Herr) as Hall.
  destruct (flush_post done current) as [|p rest].
  - intros H. injection H as <-. split; [discriminate|].
    constructor; [split; reflexivity | constructor].
  - intros H. injection H as <-. split; [discriminate | exact Hall].
Qed.

(** X20. When parsing the posts returns, the list is never empty, every post
    in it has at least one field and none is an error entry. When no line
    of the answer sets a field, the result is the single fall-back post
    whose caption is the whole answer. *)
Theorem X20_parsed_posts_are_never_empty (ai_response : string) :
  (forall posts, _parse_instagram_posts ai_response = Ok posts ->
     posts <> [] /\
     Forall (fun p => post_nonempty p = true /\ post_error p = None) posts) /\
  (forallb (fun raw => negb (field_line raw)) (split_on "010" ai_response) = true ->
   _parse_instagram_posts ai_response = Ok [fallback_post ai_response]).
Proof.
  split.
  - apply parsed_posts_ok.
  - intros H. unfold _parse_instagram_posts. now rewrite (parse_lines_no_field _ H).
Qed.

Lemma X20_parsed_posts_are_never_empty_witness :
  forallb (fun raw => negb (field_line raw))
    (split_on "010" "Sorry, I cannot help with that.") = true /\
  _parse_instagram_posts "Sorry, I cannot help with that."
  = Ok [fallback_post "Sorry, I cannot help with that."].
Proof.
  assert (H : forallb (fun raw => negb (field_line raw))
                (split_on "010" "Sorry, I cannot help with that.") = true)
    by reflexivity.
  split; [exact H|].
  exact (proj2 (X20_parsed_posts_are_never_empty "Sorry, I cannot help with that.") H).
Defined.

(** X21. Generating the Instagram posts never raises and never returns an
    empty list. When the system prompt cannot be built, the completion call
    fails or the parsing raises, the result is the single error entry with
    the message of the exception; otherwise it is the parsed list, which has
    no error entry. *)
Theorem X21_generate_posts_never_raises (E : env) (self : PixaroBrandAssistant)
    (topic : string) (count : Z) :
  let posts := generate_instagram_posts E self topic count in
  posts <> [] /\
  Forall (fun p => post_nonempty p = true) posts /\
  (forall e, _build_system_prompt self = Raise e -> posts = [error_post e]) /\
  (forall prompt e,
     _build_system_prompt self = Ok prompt ->
     completions_create E prompt [(user, instagram_prompt (brand_handle self) topic count)]
     = Raise e ->
     posts = [error_post e]) /\
  (forall prompt content,
     _build_system_prompt self = Ok prompt ->
     completions_create E prompt [(user, instagram_prompt (brand_handle self) topic count)]
     = Ok content ->
     (existsb line_raises (split_on "010" content) = true ->
      posts = [error_post "list index out of range"]) /\
     (existsb line_raises (split_on "010" content) = false ->
      _parse_instagram_posts content = Ok posts /\
      Forall (fun p => post_error p = None) posts)).
Proof.
  cbv zeta. unfold generate_instagram_posts.
  destruct (_build_system_prompt self) as [prompt|e0].
  2:{ split; [discriminate|]. split; [repeat constructor|].
      split; [intros e H; now injection H as <-|]. split; intros; discriminate. }
  destruct (completions_create E prompt _) as [content|e1] eqn:Hc.
  2:{ split; [discriminate|]. split; [repeat constructor|].
      split; [intros; discriminate|]. split.
      - intros p e Hp He. injection Hp as <-. rewrite Hc in He. now injection He as <-.
      - intros p c Hp Hok. injection Hp as <-. rewrite Hc in Hok. discriminate. }
  pose proof (parse_lines_raises (split_on "010" content) ([], empty_post)) as Hraise.
  destruct (_parse_instagram_posts content) as [posts|e2] eqn:Hparse.
  - destruct (parsed_posts_ok content posts Hparse) as [Hne Hall].
    split; [exact Hne|]. split.
    { eapply Forall_impl; [exact Hall|]. now intros p [H _]. }
    split; [intros; discriminate|]. split.
    + intros p e Hp He. injection Hp as <-. rewrite Hc in He. discriminate.
    + intros p c Hp Hok. injection Hp as <-. rewrite Hc in Hok. injection Hok as <-.
      rewrite Hparse. split.
      * intros Hex. exfalso. apply Hraise in Hex as [e He].
        unfold _parse_instagram_posts in Hparse. rewrite He in Hparse. discriminate.
      * intros _. split; [reflexivity|].
        eapply Forall_impl; [exact Hall|]. now intros q [_ H].
  - assert (He2 : e2 = "list index out of range").
    { unfold _parse_instagram_posts in Hparse.
      destruct (parse_lines (split_on "010" content) ([], empty_post))
        as [[done current]|e'] eqn:Hp.
      - destruct (flush_post done current); discriminate.
      - injection Hparse as <-. exact (parse_lines_message _ _ _ Hp). }
    subst e2.
    split; [discriminate|]. split; [repeat constructor|].
    split; [intros; discriminate|]. split.
    + intros p e Hp He. injection Hp as <-. rewrite Hc in He. discriminate.
    + intros p c Hp Hok. injection Hp as <-. rewrite Hc in Hok. injection Hok as <-.
      rewrite Hparse. split; [reflexivity|].
      intros Hno. exfalso.
      assert (Hex : exists e, parse_lines (split_on "010" content) ([], empty_post)
                              = Raise e).
      { unfold _parse_instagram_posts in Hparse.
        destruct (parse_lines (split_on "010" content) ([], empty_post))
          as [[done current]|e'] eqn:Hp; [|eauto].
        destruct (flush_post done current); discriminate. }
      apply Hraise in Hex. congruence.
Qed.

Lemma X21_generate_posts_never_raises_witness :
  _build_system_prompt (new_assistant "acme" None 0)
  = Ok {| sp_brand_handle := "acme"; sp_brand_dna := []; sp_audience := [];
          sp_competitors := []; sp_with_context := false |} /\
  generate_instagram_posts no_completion (new_assistant "acme" None 0) "coffee" 5
  = [error_post "Request timed out."].
Proof.
  assert (Hp : _build_system_prompt (new_assistant "acme" None 0)
               = Ok {| sp_brand_handle := "acme"; sp_brand_dna := []; sp_audience := [];
                       sp_competitors := []; sp_with_context := false |})
    by (vm_compute; reflexivity).
  split; [exact Hp|].
  exact (proj1 (proj2 (proj2 (proj2 (X21_generate_posts_never_raises no_completion
           (new_assistant "acme" None 0) "coffee" 5)))) _ "Request timed out." Hp eq_refl).
Defined.

Example two_posts_are_parsed :
  _parse_instagram_posts
    ("Post 1" ++ String "010" ("Caption: Hello world" ++ String "010"
     ("Hashtags: #a #b" ++ String "010" ("Post 2" ++ String "010" " caption:  second  "))))
  = Ok [ {| post_caption := Some "Hello world"; post_hashtags := Some "#a #b";
            post_best_time := None; post_content_type := None; post_error := None |};
         {| post_caption := Some "second"; post_hashtags := None;
            post_best_time := None; post_content_type := None; post_error := None |} ].
Proof. vm_compute. reflexivity. Qed.
